(** * cc-agent-manager: the Auto Context pipeline, embedded and verified

    A shallow embedding of the two services of the extension,
    [ClaudeCodeService] and [AutoContextService], followed by the
    properties the specification states about them.

    JavaScript strings are sequences of UTF-16 code units; they are modelled
    as lists of code units ([N]), so that [length], [substring], [split] and
    the regular expressions count and test exactly what the program does. *)

From Stdlib Require Import Ascii String DecimalString.
From Stdlib Require Import List NArith ZArith Bool Arith Lia.
Import ListNotations.

Set Warnings "-register-all".

(* ===================================================================== *)
(** * Part I. Definitions                                                 *)
(* ===================================================================== *)

(** ** JavaScript strings and the built-ins the services call *)

Module Js.

Definition char := N.
Definition jsstring := list char.

(** An ASCII literal as a JavaScript string. *)
Definition str (s : String.string) : jsstring :=
  map N_of_ascii (String.list_ascii_of_string s).

Definition LF : char := 10%N.
Definition CR : char := 13%N.
Definition DQUOTE : char := 34%N.
Definition SQUOTE : char := 39%N.
Definition DOLLAR : char := 36%N.
Definition DASH : char := 45%N.
Definition COLON : char := 58%N.

(** [WhiteSpace] and [LineTerminator] of ECMAScript: the class [\s] of a
    regular expression and what [trim] strips. *)
Definition isSpace (c : char) : bool :=
  (N.leb 9 c && N.leb c 13) || N.eqb c 32 || N.eqb c 160 || N.eqb c 5760
  || (N.leb 8192 c && N.leb c 8202) || N.eqb c 8232 || N.eqb c 8233
  || N.eqb c 8239 || N.eqb c 8287 || N.eqb c 12288 || N.eqb c 65279.

(** [LineTerminator]: what [.] refuses and where [^] and [$] anchor under
    the [m] flag. *)
Definition isLineTerminator (c : char) : bool :=
  N.eqb c 10 || N.eqb c 13 || N.eqb c 8232 || N.eqb c 8233.

Fixpoint streq (a b : jsstring) : bool :=
  match a, b with
  | [], [] => true
  | x :: a', y :: b' => N.eqb x y && streq a' b'
  | _, _ => false
  end.

(** [s.startsWith(p)] *)
Fixpoint startsWith (p s : jsstring) : bool :=
  match p, s with
  | [], _ => true
  | x :: p', y :: s' => N.eqb x y && startsWith p' s'
  | _ :: _, [] => false
  end.

(** [s.endsWith(p)] *)
Definition endsWith (p s : jsstring) : bool :=
  startsWith (rev p) (rev s).

(** [s.indexOf(p)] counted from the head of [s]; [None] is -1. *)
Fixpoint indexOf (p s : jsstring) : option nat :=
  if startsWith p s then Some 0
  else match s with
       | [] => None
       | _ :: s' => option_map S (indexOf p s')
       end.

(** [s.indexOf(p, from)] *)
Definition indexOfFrom (p s : jsstring) (from : nat) : option nat :=
  if Nat.ltb (length s) from then (if streq p [] then Some (length s) else None)
  else option_map (fun i => from + i) (indexOf p (skipn from s)).

(** [s.includes(p)] *)
Definition includes (p s : jsstring) : bool :=
  match indexOf p s with Some _ => true | None => false end.

(** [s.length] as a number of the program. *)
Definition strlen (s : jsstring) : N := N.of_nat (length s).

(** [s.substring(0, n)] and [s.substring(n)] for [0 <= n]. *)
Definition substringTo (n : nat) (s : jsstring) : jsstring := firstn n s.
Definition substringFrom (n : nat) (s : jsstring) : jsstring := skipn n s.

Fixpoint dropWhile (p : char -> bool) (s : jsstring) : jsstring :=
  match s with
  | [] => []
  | c :: s' => if p c then dropWhile p s' else s
  end.

Fixpoint takeWhile (p : char -> bool) (s : jsstring) : jsstring :=
  match s with
  | [] => []
  | c :: s' => if p c then c :: takeWhile p s' else []
  end.

Definition trimStart (s : jsstring) : jsstring := dropWhile isSpace s.
Definition trimEnd (s : jsstring) : jsstring := rev (dropWhile isSpace (rev s)).
Definition trim (s : jsstring) : jsstring := trimEnd (trimStart s).

(** [s.split(sep)] for a one-unit separator: never the empty list. *)
Fixpoint split (sep : char) (s : jsstring) : list jsstring :=
  match s with
  | [] => [[]]
  | c :: s' =>
      if N.eqb c sep then [] :: split sep s'
      else match split sep s' with
           | l :: ls => (c :: l) :: ls
           | [] => [[c]]
           end
  end.

(** [parts.join(sep)] *)
Fixpoint join (sep : jsstring) (parts : list jsstring) : jsstring :=
  match parts with
  | [] => []
  | [p] => p
  | p :: ps => p ++ sep ++ join sep ps
  end.

(** The text of several lines: [lines.join('\n')]. *)
Definition unlines (ls : list jsstring) : jsstring := join [LF] ls.

(** [piece.repeat(n)] *)
Fixpoint repeatStr (piece : jsstring) (n : nat) : jsstring :=
  match n with
  | O => []
  | S n' => piece ++ repeatStr piece n'
  end.

(** [a || b] on strings: the empty string is falsy. *)
Definition orElse (a : option jsstring) (b : jsstring) : jsstring :=
  match a with
  | Some (c :: s) => c :: s
  | _ => b
  end.

(** [list.includes(name)] *)
Definition listIncludes (l : list jsstring) (name : jsstring) : bool :=
  existsb (streq name) l.

End Js.

Import Js.
Arguments str s%_string.

(** ** ClaudeCodeService: the digest builder and the assistant client *)

Module ClaudeCodeService.

Record ClaudeResponse := {
  success : bool;
  content : jsstring;
  error : option jsstring
}.

(** *** The workspace as [getProjectContext] and [getReadableFiles] see it *)

(** One path under the workspace root: [fs.existsSync] is false ([Absent]),
    or it is true and [fs.readFileSync] throws ([Unreadable]) or returns the
    text. *)
Inductive file :=
| Absent
| Unreadable
| Readable (text : jsstring).

(** package.json, observed through the [try] block of priority 3:
    the file does not exist; [readFileSync] throws; [JSON.parse] (or the
    property accesses building the summary) throws; or
    [JSON.stringify({name, description, scripts, dependencies, devDependencies}, null, 2)]
    yields [summary]. The serialisation itself is not modelled. *)
Inductive manifest :=
| NoManifest
| UnreadableManifest
| BrokenManifest
| Manifest (summary : jsstring).

(** An entry of [fs.readdirSync(dir, { withFileTypes: true })]; for a
    directory, its own listing, [None] when reading it throws. *)
Inductive dirent :=
| FileEntry (name : jsstring)
| DirEntry (name : jsstring) (listing : option (list dirent)).

Record workspace := {
  claudeMd : file;
  readmeMd : file;
  packageJson : manifest;
  pyprojectToml : file;
  requirementsTxt : file;
  rootListing : option (list dirent)
}.

Definition existsSync (f : file) : bool :=
  match f with Absent => false | _ => true end.

Definition manifestExists (m : manifest) : bool :=
  match m with NoManifest => false | _ => true end.

(** *** getDirectoryStructure *)

Definition skipDirs : list jsstring :=
  [str "node_modules"; str ".git"; str "dist"; str "out"; str "build";
   str "__pycache__"; str "venv"; str ".venv"; str ".idea"; str ".vscode"].

Definition direntName (e : dirent) : jsstring :=
  match e with FileEntry n => n | DirEntry n _ => n end.

(** The lines one iteration of the [for] loop pushes, at recursion depth
    [depth]; the recursive call on a sub-directory is at [depth + 1] and
    returns the empty string beyond [maxDepth] or when its listing throws. *)
Fixpoint entryLines (maxDepth depth : nat) (e : dirent) {struct e} : list jsstring :=
  let indent := repeatStr (str "  ") depth in
  if startsWith (str ".") (direntName e) && Nat.eqb depth 0 then []
  else if listIncludes skipDirs (direntName e) then []
  else match e with
       | DirEntry name listing =>
           let subTree :=
             if Nat.ltb maxDepth (S depth) then []
             else match listing with
                  | None => []
                  | Some entries =>
                      unlines (flat_map (entryLines maxDepth (S depth)) entries)
                  end in
           (indent ++ name ++ str "/")
             :: match subTree with [] => [] | _ => [subTree] end
       | FileEntry name => [indent ++ name]
       end.

Definition getDirectoryStructure (dir : option (list dirent)) (depth maxDepth : nat)
  : jsstring :=
  if Nat.ltb maxDepth depth then []
  else match dir with
       | None => []
       | Some entries => unlines (flat_map (entryLines maxDepth depth) entries)
       end.

(** *** getProjectContext *)

Definition MAX_FILE_SIZE : N := 2000.
Definition MAX_TOTAL : N := 8000.

(** The locals of [getProjectContext], and the files read so far. *)
Record digestState := {
  contextParts : list jsstring;
  totalChars : N;
  filesRead : list jsstring
}.

Definition pushPart (label body : jsstring) (counted : N) (st : digestState)
  : digestState :=
  {| contextParts := contextParts st ++ [str "## " ++ label ++ [LF] ++ body];
     totalChars := totalChars st + counted;
     filesRead := filesRead st |}.

Definition noteRead (name : jsstring) (st : digestState) : digestState :=
  {| contextParts := contextParts st;
     totalChars := totalChars st;
     filesRead := filesRead st ++ [name] |}.

(** Priority 1: CLAUDE.md, cut to [MAX_FILE_SIZE]; [None] is the exception
    of [readFileSync], which the block does not catch. *)
Definition guidelinesSection (name : jsstring) (f : file) (st : digestState)
  : option digestState :=
  if existsSync f && N.ltb (totalChars st) MAX_TOTAL then
    match f with
    | Readable text =>
        let trimmed := substringTo (N.to_nat MAX_FILE_SIZE) text in
        Some (pushPart name trimmed (strlen trimmed) (noteRead name st))
    | _ => None
    end
  else Some st.

(** Priorities 2 and 4: a text file cut to
    [Math.min(cap, MAX_TOTAL - totalChars)]. *)
Definition textSection (name : jsstring) (f : file) (cap : N) (st : digestState)
  : option digestState :=
  if existsSync f && N.ltb (totalChars st) MAX_TOTAL then
    match f with
    | Readable text =>
        let remaining := N.min cap (MAX_TOTAL - totalChars st) in
        let trimmed := substringTo (N.to_nat remaining) text in
        Some (pushPart name trimmed (strlen trimmed) (noteRead name st))
    | _ => None
    end
  else Some st.

(** Priority 3: the summary is pushed whole; every exception is swallowed. *)
Definition manifestSection (m : manifest) (st : digestState) : digestState :=
  if manifestExists m && N.ltb (totalChars st) MAX_TOTAL then
    match m with
    | Manifest summary =>
        pushPart (str "package.json") summary (strlen summary)
                 (noteRead (str "package.json") st)
    | BrokenManifest => noteRead (str "package.json") st
    | _ => st
    end
  else st.

(** Priority 5: the tree, cut to what is left; [totalChars] is not updated. *)
Definition structureSection (root : option (list dirent)) (st : digestState)
  : digestState :=
  if N.ltb (totalChars st) MAX_TOTAL then
    let structure := getDirectoryStructure root 0 2 in
    let remaining := N.min 1000 (MAX_TOTAL - totalChars st) in
    pushPart (str "Structure") (substringTo (N.to_nat remaining) structure) 0 st
  else st.

Definition bindOpt {A B} (x : option A) (k : A -> option B) : option B :=
  match x with Some a => k a | None => None end.

Notation "x <- c ;; k" := (bindOpt c (fun x => k))
  (at level 61, c at next level, right associativity).

Definition emptyDigest : digestState :=
  {| contextParts := []; totalChars := 0; filesRead := [] |}.

(** The five priority blocks in order; [None] when a read throws. *)
Definition runProjectContext (ws : workspace) : option digestState :=
  s1 <- guidelinesSection (str "CLAUDE.md") (claudeMd ws) emptyDigest ;;
  s2 <- textSection (str "README.md") (readmeMd ws) MAX_FILE_SIZE s1 ;;
  s4 <- textSection (str "pyproject.toml") (pyprojectToml ws) 1000
          (manifestSection (packageJson ws) s2) ;;
  Some (structureSection (rootListing ws) s4).

Definition getProjectContext (ws : workspace) : option jsstring :=
  option_map (fun st => join [LF; LF] (contextParts st)) (runProjectContext ws).

(** The files [getProjectContext] reads with [readFileSync]. *)
Definition projectContextReads (ws : workspace) : option (list jsstring) :=
  option_map filesRead (runProjectContext ws).

(** *** getReadableFiles *)

Definition checkFiles (ws : workspace) : list (jsstring * bool) :=
  [(str "README.md", existsSync (readmeMd ws));
   (str "CLAUDE.md", existsSync (claudeMd ws));
   (str "package.json", manifestExists (packageJson ws));
   (str "pyproject.toml", existsSync (pyprojectToml ws));
   (str "requirements.txt", existsSync (requirementsTxt ws))].

Definition getReadableFiles (ws : workspace) : list jsstring :=
  map fst (filter snd (checkFiles ws)).

(** *** execute

    The promise of [execute] is settled by callbacks the event loop runs one
    at a time: the stream handlers, the two timers, and the handlers of the
    process's [close] and [error] events. A call is modelled by the state
    the executor leaves behind and the sequence of callbacks that become
    due; a timer callback runs only while its timer is still scheduled. The
    lines sent to the output channel carry wall-clock times and are left
    out. *)

Inductive promise (A : Type) :=
| Pending
| Fulfilled (value : A)
| Rejected (reason : jsstring).
Arguments Pending {A}.
Arguments Fulfilled {A} value.
Arguments Rejected {A} reason.

(** [resolve(value)]: a promise that is already settled ignores it. *)
Definition resolve {A} (value : A) (p : promise A) : promise A :=
  match p with
  | Pending => Fulfilled value
  | _ => p
  end.

(** The callbacks: [data] on stdout and on stderr with the decoded chunk,
    the [setInterval] and the [setTimeout] callbacks, [close] with the exit
    code ([None] for [null], a process ended by a signal), and [error] with
    the message of the error. *)
Inductive event :=
| StdoutData (chunk : jsstring)
| StderrData (chunk : jsstring)
| WaitingTick
| TimeoutDue
| Close (code : option Z)
| ProcError (message : jsstring).

(** The variables the callbacks share: the two buffers, the promise, and
    whether [timeoutId] and [waitingInterval] are still scheduled;
    [killed] records [proc.kill()]. *)
Record running := {
  stdout : jsstring;
  stderr : jsstring;
  settled : promise ClaudeResponse;
  timeoutId : bool;
  waitingInterval : bool;
  killed : bool
}.

(** [options?.timeout || 300000], in milliseconds. *)
Definition effectiveTimeout (timeout : option N) : N :=
  match timeout with
  | Some 0%N | None => 300000%N
  | Some t => t
  end.

(** The arguments of [spawn]; the prompt goes to the standard input. *)
Definition spawnArgs (skipPermissions : bool) : list jsstring :=
  [str "-p"; str "--model"; str "sonnet"]
  ++ (if skipPermissions then [str "--dangerously-skip-permissions"] else []).

(** The state when the executor returns: both timers scheduled. *)
Definition started : running :=
  {| stdout := []; stderr := []; settled := Pending;
     timeoutId := true; waitingInterval := true; killed := false |}.

(** The text of [code] in a template literal. *)
Definition showCode (code : option Z) : jsstring :=
  match code with
  | None => str "null"
  | Some z => str (NilEmpty.string_of_int (Z.to_int z))
  end.

Section Execute.

(** The text of the number [timeout / 1000] in a template literal
    (floating-point formatting, not modelled). *)
Variable showSeconds : N -> jsstring.

(** The three values the callbacks resolve the promise with. *)
Definition timeoutResponse (timeout : N) (out : jsstring) : ClaudeResponse :=
  {| success := false;
     content := out;
     error := Some (str "Timeout after " ++ showSeconds timeout
                    ++ str "s. Partial output: " ++ substringTo 200 out) |}.

Definition closeResponse (code : option Z) (out err : jsstring) : ClaudeResponse :=
  match code with
  | Some 0%Z => {| success := true; content := trim out; error := None |}
  | _ => {| success := false;
            content := trim out;
            error := Some (orElse (Some err)
                             (str "Process exited with code " ++ showCode code)) |}
  end.

Definition errorResponse (message : jsstring) : ClaudeResponse :=
  {| success := false;
     content := [];
     error := Some (str "Failed to execute Claude Code: " ++ message
                    ++ str ". Make sure 'claude' CLI is installed.") |}.

(** One callback. *)
Definition handle (timeout : N) (st : running) (ev : event) : running :=
  match ev with
  | StdoutData chunk =>
      {| stdout := stdout st ++ chunk; stderr := stderr st;
         settled := settled st; timeoutId := timeoutId st;
         waitingInterval := waitingInterval st; killed := killed st |}
  | StderrData chunk =>
      {| stdout := stdout st; stderr := stderr st ++ chunk;
         settled := settled st; timeoutId := timeoutId st;
         waitingInterval := waitingInterval st; killed := killed st |}
  | WaitingTick => st
  | TimeoutDue =>
      if timeoutId st then
        {| stdout := stdout st; stderr := stderr st;
           settled := resolve (timeoutResponse timeout (stdout st)) (settled st);
           timeoutId := false; waitingInterval := false; killed := true |}
      else st
  | Close code =>
      {| stdout := stdout st; stderr := stderr st;
         settled := resolve (closeResponse code (stdout st) (stderr st)) (settled st);
         timeoutId := false; waitingInterval := false; killed := killed st |}
  | ProcError message =>
      {| stdout := stdout st; stderr := stderr st;
         settled := resolve (errorResponse message) (settled st);
         timeoutId := false; waitingInterval := false; killed := killed st |}
  end.

Definition runEvents (timeout : N) (events : list event) (st : running) : running :=
  fold_left (handle timeout) events st.

(** The promise [execute(prompt, { timeout })] returns, after [events]. *)
Definition execute (timeout : option N) (events : list event)
  : promise ClaudeResponse :=
  settled (runEvents (effectiveTimeout timeout) events started).

End Execute.

(** *** isAvailable

    [claude --version] is spawned; the promise is settled by the [close]
    and [error] handlers of the process and by a five-second timer that no
    handler cancels. Nothing listens to the output streams. *)

Record probe := {
  verdict : promise bool;
  probeKilled : bool
}.

Definition probing : probe := {| verdict := Pending; probeKilled := false |}.

(** One callback of the probe. *)
Definition probeHandle (st : probe) (ev : event) : probe :=
  match ev with
  | Close code =>
      {| verdict := resolve (match code with Some 0%Z => true | _ => false end)
                            (verdict st);
         probeKilled := probeKilled st |}
  | ProcError _ =>
      {| verdict := resolve false (verdict st); probeKilled := probeKilled st |}
  | TimeoutDue =>
      {| verdict := resolve false (verdict st); probeKilled := true |}
  | _ => st
  end.

(** The promise [isAvailable()] returns, after [events]. *)
Definition isAvailable (events : list event) : promise bool :=
  verdict (fold_left probeHandle events probing).

(** *** The executor

    The function passed to [new Promise] runs before any callback. In
    [execute] it calls [spawn] and writes the prompt to the standard input
    of the child, and only then schedules the timers and registers the
    handlers; in [isAvailable] it calls [spawn] first. Neither guards these
    calls: if one of them throws, the promise is rejected with what was
    thrown, and no timer or handler exists, so no callback ever runs.
    Otherwise the promise is the one the callbacks settle. *)
Inductive launch :=
| ExecutorThrows (reason : jsstring)
| Launched.

(** The promise of a whole call of [execute]: the executor, then the
    callbacks. *)
Definition executeCall (showSeconds : N -> jsstring) (l : launch)
  (timeout : option N) (events : list event) : promise ClaudeResponse :=
  match l with
  | ExecutorThrows reason => Rejected reason
  | Launched => execute showSeconds timeout events
  end.

(** The promise of a whole call of [isAvailable]. *)
Definition isAvailableCall (l : launch) (events : list event) : promise bool :=
  match l with
  | ExecutorThrows reason => Rejected reason
  | Launched => isAvailable events
  end.

End ClaudeCodeService.

(** ** AutoContextService: scanner, normalizer and rewriter *)

Module AutoContextService.

Import ClaudeCodeService.

(** A scanned file. [path] is kept as the names from the scan root down
    to the file, the components [path.join] puts together. *)
Record MarkdownFile := {
  name : jsstring;
  path : list jsstring;
  content : jsstring;
  title : option jsstring;
  description : option jsstring
}.

(** *** parseMarkdown *)

Definition HASH : char := 35%N.

(** The longest run [.+] can take: up to the next line terminator. *)
Definition restOfLine (s : jsstring) : jsstring :=
  takeWhile (fun c => negb (isLineTerminator c)) s.

(** [\s*(.+)] at the head of [s], the group. The star is greedy: it first
    takes a white-space unit, and gives it back to the group only when the
    rest cannot match. *)
Fixpoint spacesThenText (s : jsstring) : option jsstring :=
  match s with
  | [] => None
  | c :: s' =>
      if isSpace c then
        match spacesThenText s' with
        | Some g => Some g
        | None => if isLineTerminator c then None else Some (restOfLine s)
        end
      else if isLineTerminator c then None
      else Some (restOfLine s)
  end.

(** [\s+(.+)$] under the [m] flag, at the head of [s]. *)
Definition spaceThenText (s : jsstring) : option jsstring :=
  match s with
  | c :: s' => if isSpace c then spacesThenText s' else None
  | [] => None
  end.

(** [content.match(/^#\s+(.+)$/m)]: the group of the leftmost match;
    [atLineStart] tells whether [^] holds at the head of [s]. *)
Fixpoint matchTitle (atLineStart : bool) (s : jsstring) : option jsstring :=
  match s with
  | [] => None
  | c :: s' =>
      match (if atLineStart && N.eqb c HASH then spaceThenText s' else None) with
      | Some g => Some g
      | None => matchTitle (isLineTerminator c) s'
      end
  end.

Definition isEmpty (s : jsstring) : bool :=
  match s with [] => true | _ => false end.

(** The [for] loop over the lines; [skipping] is true inside the inner
    [while], which runs from a line that trims to [---] to the next one. *)
Fixpoint scanDescription (skipping : bool) (lines : list jsstring)
  : option jsstring :=
  match lines with
  | [] => None
  | raw :: rest =>
      let line := trim raw in
      if skipping then scanDescription (negb (streq line (str "---"))) rest
      else if isEmpty line || startsWith [HASH] line then scanDescription false rest
      else if streq line (str "---") then scanDescription true rest
      else Some (substringTo 200 line)
  end.

Definition parseMarkdown (content : jsstring) : option jsstring * option jsstring :=
  (option_map trim (matchTitle true content),
   scanDescription false (split LF content)).

(** *** findMarkdownFiles *)

(** A directory as the scanner observes it: [existsSync] is false, or
    [readdirSync] throws, or it lists entries. *)
Inductive listing (A : Type) :=
| Missing
| Unlistable
| Entries (entries : list A).
Arguments Missing {A}.
Arguments Unlistable {A}.
Arguments Entries {A} entries.

(** A directory entry: a directory ([isDirectory()]) with its listing, or
    anything else with the result of [readFileSync] ([None]: it throws). *)
Inductive node :=
| FileNode (name : jsstring) (text : option jsstring)
| DirNode (name : jsstring) (dir : listing node).

Definition MAX_DEPTH : nat := 5.

Definition skipDirs : list jsstring :=
  [str "node_modules"; str ".git"; str "dist"; str "out"; str "build";
   str ".claude"].

Definition markdownFile (name : jsstring) (fullPath : list jsstring)
  (content : jsstring) : MarkdownFile :=
  {| name := name; path := fullPath; content := content;
     title := fst (parseMarkdown content);
     description := snd (parseMarkdown content) |}.

(** The body of the [for] loop for one entry of the directory [dir]
    (its path from the scan root), itself scanned at depth [depth]. The
    array [files] is threaded through; [None] is an exception leaving
    [findMarkdownFiles]. The recursive call on a sub-directory is unfolded
    in place: see [findMarkdownFiles] below. *)
Fixpoint visitEntry (depth : nat) (dir : list jsstring) (e : node)
  (files : list MarkdownFile) {struct e} : option (list MarkdownFile) :=
  match e with
  | DirNode name sub =>
      if negb (listIncludes skipDirs name) && negb (startsWith (str ".") name) then
        if Nat.ltb MAX_DEPTH (S depth) then Some files
        else match sub with
             | Missing => Some files
             | Unlistable => None
             | Entries entries =>
                 (fix loop (es : list node) (acc : list MarkdownFile) :=
                    match es with
                    | [] => Some acc
                    | e' :: es' =>
                        match visitEntry (S depth) (dir ++ [name]) e' acc with
                        | Some acc' => loop es' acc'
                        | None => None
                        end
                    end) entries files
             end
      else Some files
  | FileNode name text =>
      if endsWith (str ".md") name then
        match text with
        | Some content => Some (files ++ [markdownFile name (dir ++ [name]) content])
        | None => Some files
        end
      else Some files
  end.

Fixpoint visitEntries (depth : nat) (dir : list jsstring) (es : list node)
  (files : list MarkdownFile) : option (list MarkdownFile) :=
  match es with
  | [] => Some files
  | e :: es' =>
      match visitEntry depth dir e files with
      | Some files' => visitEntries depth dir es' files'
      | None => None
      end
  end.

(** [findMarkdownFiles(dir, files, depth)] *)
Definition findMarkdownFiles (dir : list jsstring) (d : listing node)
  (files : list MarkdownFile) (depth : nat) : option (list MarkdownFile) :=
  if Nat.ltb MAX_DEPTH depth then Some files
  else match d with
       | Missing => Some files
       | Unlistable => None
       | Entries entries => visitEntries depth dir entries files
       end.

(** [scanMarkdownFiles()]: the scan of the workspace root from depth 0. *)
Definition scanMarkdownFiles (root : listing node) : option (list MarkdownFile) :=
  findMarkdownFiles [] root [] 0.

(** *** fixFrontmatterFormat

    [agentName] stands for [path.basename(agentPath, '.md')]. *)

(** The delimiters of the header block inside the regular expression:
    the opening line with its line feed, and the line feed with the closing
    hyphens. *)
Definition OPEN : jsstring := str "---" ++ [LF].
Definition CLOSE : jsstring := LF :: str "---".

(** [([\s\S]*?)\n---] at the head of [s]: the lazy group takes the
    shortest prefix that the closing delimiter follows. The result is the
    group and the text after the match. *)
Fixpoint lazyUntilClose (s : jsstring) : option (jsstring * jsstring) :=
  if startsWith CLOSE s then Some ([], skipn 4 s)
  else match s with
       | [] => None
       | c :: s' =>
           match lazyUntilClose s' with
           | Some (g, rest) => Some (c :: g, rest)
           | None => None
           end
       end.

(** [content.match(/^---\n([\s\S]*?)\n---/)]: group 1 and the text after
    the match (the match starts at index 0: there is no [m] flag). *)
Definition matchFrontmatter (content : jsstring) : option (jsstring * jsstring) :=
  if startsWith OPEN content then lazyUntilClose (skipn 4 content) else None.

(** [line.match(/^\s*key:\s*/)] as a test. *)
Definition hasKey (key line : jsstring) : bool :=
  startsWith (key ++ [COLON]) (dropWhile isSpace line).

(** [[a-zA-Z_-]] *)
Definition isFieldChar (c : char) : bool :=
  (N.leb 97 c && N.leb c 122) || (N.leb 65 c && N.leb c 90)
  || N.eqb c 95 || N.eqb c DASH.

Definition isQuote (c : char) : bool := N.eqb c DQUOTE || N.eqb c SQUOTE.
Definition notQuote (c : char) : bool := negb (isQuote c).

(** The match of a line against the quoted-value pattern: from the start
    of the line, a group of white space (the indent), a group [[a-zA-Z_-]+]
    (the field), a colon, white space, a quote character (double or
    single), a group of one or more units that are not quotes (the value), a
    quote character again (not necessarily the same), and white space up to
    the end of the line. The result is the three groups. Each greedy run is
    followed by a unit outside its class, so the longest run is the only one
    a match can use and no backtracking point survives. *)
Definition matchQuoted (line : jsstring)
  : option (jsstring * jsstring * jsstring) :=
  let indent := takeWhile isSpace line in
  let afterIndent := dropWhile isSpace line in
  let field := takeWhile isFieldChar afterIndent in
  match field, dropWhile isFieldChar afterIndent with
  | _ :: _, c :: afterColon =>
      if N.eqb c COLON then
        match dropWhile isSpace afterColon with
        | q :: afterQuote =>
            if isQuote q then
              let value := takeWhile notQuote afterQuote in
              match value, dropWhile notQuote afterQuote with
              | _ :: _, _ :: trailing =>
                  if forallb isSpace trailing then Some (indent, field, value)
                  else None
              | _, _ => None
              end
            else None
        | [] => None
        end
      else None
  | _, _ => None
  end.

(** The three tests of [needsQuotes]: a unit of the class
    [[:#\[\]{}|>&*!?,]] anywhere, a first unit that is an at-sign, a
    backtick or a quote, and [value.trim() !== value]. *)
Definition yamlSpecial : jsstring := str ":#[]{}|>&*!?,".
Definition yamlLeading : jsstring := [64; 96; SQUOTE; DQUOTE]%N.

Definition needsQuotes (value : jsstring) : bool :=
  existsb (fun c => existsb (N.eqb c) yamlSpecial) value
  || match value with
     | c :: _ => existsb (N.eqb c) yamlLeading
     | [] => false
     end
  || negb (streq (trim value) value).

Record headerScan := {
  hasName : bool;
  hasDescription : bool;
  hasModel : bool;
  fixedLines : list jsstring
}.

Definition pushLine (line : jsstring) (st : headerScan) : headerScan :=
  {| hasName := hasName st; hasDescription := hasDescription st;
     hasModel := hasModel st; fixedLines := fixedLines st ++ [line] |}.

(** One iteration of the loop over the header lines. *)
Definition fixLine (st : headerScan) (line : jsstring) : headerScan :=
  if hasKey (str "tools") line then st
  else if hasKey (str "allowed-tools") line then st
  else
    let st' :=
      {| hasName := hasName st || hasKey (str "name") line;
         hasDescription := hasDescription st || hasKey (str "description") line;
         hasModel := hasModel st || hasKey (str "model") line;
         fixedLines := fixedLines st |} in
    match matchQuoted line with
    | Some (indent, field, value) =>
        if needsQuotes value then pushLine line st'
        else pushLine (indent ++ field ++ str ": " ++ value) st'
    | None => pushLine line st'
    end.

Definition scanStart : headerScan :=
  {| hasName := false; hasDescription := false; hasModel := false;
     fixedLines := [] |}.

Definition nameLine (agentName : jsstring) : jsstring :=
  str "name: " ++ agentName.
Definition descriptionLine (agentName : jsstring) : jsstring :=
  str "description: Agent for " ++ agentName.
Definition modelLine : jsstring := str "model: sonnet".

(** Add missing required fields: [unshift] for the name, [push] for the
    other two. *)
Definition addMissing (agentName : jsstring) (st : headerScan) : list jsstring :=
  (if hasName st then [] else [nameLine agentName])
  ++ fixedLines st
  ++ (if hasDescription st then [] else [descriptionLine agentName])
  ++ (if hasModel st then [] else [modelLine]).

(** The replacement text [String.prototype.replace] builds from a template
    (GetSubstitution), for a match at index 0 of a pattern without capture
    groups: [$$] is a dollar sign, [$&] the matched text, [$`] the empty
    text before the match, [$'] the text after it; a dollar sign before
    anything else stands for itself. *)
Fixpoint getSubstitution (matched tail template : jsstring) : jsstring :=
  match template with
  | [] => []
  | c :: t =>
      if N.eqb c DOLLAR then
        match t with
        | d :: t' =>
            if N.eqb d DOLLAR then DOLLAR :: getSubstitution matched tail t'
            else if N.eqb d 96 then getSubstitution matched tail t'
            else if N.eqb d 38 then matched ++ getSubstitution matched tail t'
            else if N.eqb d SQUOTE then tail ++ getSubstitution matched tail t'
            else DOLLAR :: getSubstitution matched tail t
        | [] => [DOLLAR]
        end
      else c :: getSubstitution matched tail t
  end.

(** The header a file without one receives. *)
Definition newFrontmatter (agentName : jsstring) : jsstring :=
  unlines [str "---"; nameLine agentName; descriptionLine agentName;
           modelLine; str "---"; str ""; str ""].

Definition fixFrontmatterFormat (content agentName : jsstring) : jsstring :=
  match matchFrontmatter content with
  | None => newFrontmatter agentName ++ content
  | Some (frontmatter, rest) =>
      let lines := split LF frontmatter in
      let scan := fold_left fixLine lines scanStart in
      let fixedFrontmatter := unlines (addMissing agentName scan) in
      getSubstitution (OPEN ++ frontmatter ++ CLOSE) rest
                      (OPEN ++ fixedFrontmatter ++ CLOSE)
      ++ rest
  end.

(** The lines of the header block of a text, as the normalizer reads it. *)
Definition headerLines (content : jsstring) : option (list jsstring) :=
  option_map (fun m => split LF (fst m)) (matchFrontmatter content).

(** *** updateAgentWithContextAI *)

(** The result of a file-system call: its value, or the message of the
    exception it throws. *)
Inductive io (A : Type) :=
| Returns (value : A)
| Throws (message : jsstring).
Arguments Returns {A} value.
Arguments Throws {A} message.

(** The definition file on disk: what reading it gives, and whether a write
    is refused. *)
Record agentFile := {
  readFileSync : io jsstring;
  writeFileSync : jsstring -> io unit
}.

Record outcome := {
  success : bool;
  method : jsstring;
  error : option jsstring
}.

Definition contextMarker : jsstring := str "## Project Context (Auto-generated)".

(** Step 2: everything from the marker on is dropped. *)
Definition removeOldContext (content : jsstring) : jsstring :=
  match indexOf contextMarker content with
  | Some markerIndex => trimEnd (substringTo markerIndex content)
  | None => content
  end.

(** [content.match(/description:\s*(.+)/)], group 1 of the leftmost match. *)
Fixpoint matchDescription (s : jsstring) : option jsstring :=
  match (if startsWith (str "description:") s
         then spacesThenText (skipn 12 s) else None) with
  | Some g => Some g
  | None => match s with
            | [] => None
            | _ :: s' => matchDescription s'
            end
  end.

Definition generateDefaultAgentPrompt (agentName projectName : jsstring) : jsstring :=
  unlines
    [str "You are a specialized agent for the **" ++ projectName ++ str "** project.";
     str "";
     str "## Your Role";
     str "";
     str "As the " ++ agentName ++ str " agent, you help with tasks related to this project. You have knowledge of the project structure, conventions, and codebase.";
     str "";
     str "## Your Responsibilities";
     str "";
     str "- Assist with development tasks within your area of expertise";
     str "- Follow project conventions and patterns";
     str "- Provide accurate information based on the project context below";
     str "- Ask clarifying questions when requirements are unclear";
     str "";
     str "## Guidelines";
     str "";
     str "- Always consider the existing codebase patterns before suggesting changes";
     str "- Prioritize maintainability and readability";
     str "- Test your suggestions mentally before recommending them";
     str ""].

(** Steps 1 to 4: what is kept of the file that was read. *)
Record prepared := {
  frontmatter : jsstring;
  currentPrompt : jsstring;
  agentDescription : jsstring
}.

Definition prepare (agentName original : jsstring) : prepared :=
  let content := removeOldContext (fixFrontmatterFormat original agentName) in
  let parts :=
    match indexOfFrom (str "---") content 4 with
    | Some frontmatterEnd =>
        (substringTo (frontmatterEnd + 3) content,
         trim (substringFrom (frontmatterEnd + 3) content))
    | None => ([], [])
    end in
  {| frontmatter := fst parts;
     currentPrompt := snd parts;
     agentDescription :=
       match matchDescription content with
       | Some g => trim g
       | None => str "Specialized agent for " ++ agentName
       end |}.

Section Rewriter.

(** [path.basename(this.workspaceRoot)]. *)
Variable projectName : jsstring.

(** [generateContextSection(files)]: string assembly over the scanned
    files; it touches neither the disk nor the assistant and its text does
    not influence the control flow below. *)
Variable generateContextSection : list MarkdownFile -> jsstring.

(** The response the awaited call
    [claudeService.generateFullAgent(agentName, agentDescription, currentPrompt)]
    settles with; the promise of [execute] is never rejected. *)
Variable generateFullAgent : jsstring -> jsstring -> jsstring -> ClaudeResponse.

(** Steps 5 and 6, from the response to the prompt, the context section and
    the method. *)
Definition chooseBody (agentName currentPrompt : jsstring)
  (files : list MarkdownFile) (response : ClaudeResponse)
  : jsstring * jsstring * jsstring :=
  if ClaudeCodeService.success response then
    let responseContent := ClaudeCodeService.content response in
    match indexOf (str "## Project Context") responseContent with
    | Some (S i) =>
        (trim (substringTo (S i) responseContent),
         [LF; LF] ++ substringFrom (S i) responseContent,
         str "AI generated")
    | _ =>
        (responseContent, generateContextSection files,
         str "AI prompt + static context")
    end
  else
    (if Nat.ltb 50 (length currentPrompt) then currentPrompt
     else generateDefaultAgentPrompt agentName projectName,
     generateContextSection files,
     str "fallback (AI failed: "
       ++ orElse (ClaudeCodeService.error response) (str "unknown") ++ str ")").

(** The text written back, and the method, for a file that was read. *)
Definition rebuild (agentName : jsstring) (files : list MarkdownFile)
  (original : jsstring) : jsstring * jsstring :=
  let p := prepare agentName original in
  let response :=
    generateFullAgent agentName (agentDescription p) (currentPrompt p) in
  let '(newPrompt, contextSection, method) :=
    chooseBody agentName (currentPrompt p) files response in
  (frontmatter p ++ [LF; LF] ++ newPrompt ++ contextSection, method).

Definition failed (message : jsstring) : outcome :=
  {| success := false; method := str "failed"; error := Some message |}.

(** The outcome, and the text written to the file if a write succeeded. *)
Definition updateAgentWithContextAI (agentName : jsstring) (disk : agentFile)
  (files : list MarkdownFile) : outcome * option jsstring :=
  match readFileSync disk with
  | Throws message => (failed message, None)
  | Returns original =>
      let '(content, method) := rebuild agentName files original in
      match writeFileSync disk content with
      | Throws message => (failed message, None)
      | Returns _ =>
          ({| success := true; method := method; error := None |}, Some content)
      end
  end.

End Rewriter.

(** *** extractClaudeContext *)

Definition FENCE : jsstring := str "```".

(** The [for] loop over the lines of CLAUDE.md: what is pushed to
    [relevantLines] from [lines] on, given the two locals at the head of the
    iteration. *)
Fixpoint relevantLines (inCodeBlock : bool) (lineCount : nat) (lines : list jsstring)
  : list jsstring :=
  match lines with
  | [] => []
  | line :: rest =>
      if startsWith FENCE (trim line) then relevantLines (negb inCodeBlock) lineCount rest
      else if inCodeBlock then relevantLines inCodeBlock lineCount rest
      else if streq (trim line) (str "---") then relevantLines inCodeBlock lineCount rest
      else
        let pushed :=
          if Nat.leb 15 (S lineCount) then [line]
          else line :: relevantLines inCodeBlock (S lineCount) rest in
        if startsWith (str "#") line || startsWith (str "-") (trim line)
           || startsWith (str "*") (trim line)
        then pushed
        else if negb (isEmpty (trim line)) && Nat.ltb lineCount 15 then pushed
        else if Nat.leb 15 lineCount then []
        else relevantLines inCodeBlock lineCount rest
  end.

Definition extractClaudeContext (content : jsstring) : jsstring :=
  unlines (relevantLines false 0 (split LF content)).

(** *** extractReadmeSummary *)

(** Two units are the same under the [i] flag. The patterns below hold
    ASCII letters only, and the canonical form of a unit outside ASCII is
    never an ASCII letter, so folding the ASCII capitals is all the flag
    does here. *)
Definition foldCase (c : char) : char :=
  if N.leb 65 c && N.leb c 90 then (c + 32)%N else c.

Fixpoint startsWithIgnoreCase (p s : jsstring) : bool :=
  match p, s with
  | [], _ => true
  | x :: p', y :: s' => N.eqb (foldCase x) (foldCase y) && startsWithIgnoreCase p' s'
  | _ :: _, [] => false
  end.

Definition STAR : char := 42%N.

(** [c?] at the head of [s]: greedy, and what follows it in the patterns
    below never accepts [c]. *)
Definition optional (c : char) (s : jsstring) : jsstring :=
  match s with
  | x :: s' => if N.eqb x c then s' else s
  | [] => []
  end.

(** The class of ASCII digits and the full stop. *)
Definition isDigitOrDot (c : char) : bool :=
  (N.leb 48 c && N.leb c 57) || N.eqb c 46.

(** The version-line test: from the start of the line, the word Version
    and a colon in any letter case, white space, at most two asterisks, one
    or more digits or full stops, at most two asterisks, and white space up
    to the end. The classes that follow one another are disjoint, so each
    greedy run is the only one a match can use. *)
Definition isVersionLine (line : jsstring) : bool :=
  startsWithIgnoreCase (str "version:") line
  && (let afterStars := optional STAR (optional STAR (dropWhile isSpace (skipn 8 line))) in
      negb (isEmpty (takeWhile isDigitOrDot afterStars))
      && forallb isSpace
           (optional STAR (optional STAR (dropWhile isDigitOrDot afterStars)))).

(** The empty-blockquote test: a greater-than sign and white space up to
    the end of the line. *)
Definition isEmptyBlockquote (line : jsstring) : bool :=
  match line with
  | c :: s => N.eqb c 62 && forallb isSpace s
  | [] => false
  end.

(** The [for] loop over the lines of the README, with its four locals and
    the array [summaryLines] at the head of the iteration; the result is
    [summaryLines] when the loop ends. *)
Fixpoint summaryLoop (inCodeBlock inFrontmatter passedTitle : bool)
  (emptyLineCount : nat) (summaryLines lines : list jsstring) : list jsstring :=
  match lines with
  | [] => summaryLines
  | line :: rest =>
      if streq (trim line) (str "---") then
        summaryLoop inCodeBlock (negb inFrontmatter) passedTitle emptyLineCount
                    summaryLines rest
      else if inFrontmatter then
        summaryLoop inCodeBlock inFrontmatter passedTitle emptyLineCount
                    summaryLines rest
      else if startsWith FENCE (trim line) then
        summaryLoop (negb inCodeBlock) inFrontmatter passedTitle emptyLineCount
                    summaryLines rest
      else if inCodeBlock then
        summaryLoop inCodeBlock inFrontmatter passedTitle emptyLineCount
                    summaryLines rest
      else if startsWith (str "# ") line && negb passedTitle then
        summaryLoop inCodeBlock inFrontmatter true emptyLineCount summaryLines rest
      else if startsWith (str "#") line then summaryLines
      else if isEmpty (trim line) then
        if Nat.ltb 2 (S emptyLineCount) && Nat.ltb 0 (length summaryLines)
        then summaryLines
        else summaryLoop inCodeBlock inFrontmatter passedTitle (S emptyLineCount)
                         summaryLines rest
      else if isVersionLine line then
        summaryLoop inCodeBlock inFrontmatter passedTitle 0 summaryLines rest
      else if startsWith (str "[![") line then
        summaryLoop inCodeBlock inFrontmatter passedTitle 0 summaryLines rest
      else if isEmptyBlockquote line then
        summaryLoop inCodeBlock inFrontmatter passedTitle 0 summaryLines rest
      else
        if Nat.leb 6 (length (summaryLines ++ [trim line]))
        then summaryLines ++ [trim line]
        else summaryLoop inCodeBlock inFrontmatter passedTitle 0
                         (summaryLines ++ [trim line]) rest
  end.

Definition extractReadmeSummary (content : jsstring) : jsstring :=
  unlines (summaryLoop false false false 0 [] (split LF content)).

(** *** buildAgentTemplate *)

Definition buildAgentTemplate (name description promptContent : jsstring) : jsstring :=
  unlines [str "---";
           str "name: " ++ name;
           str "description: " ++ description;
           str "model: sonnet";
           str "---";
           str "";
           promptContent;
           str ""].

(** A suggestion of the static analysis. *)
Module AgentSuggestion.

Record t := {
  name : jsstring;
  description : jsstring;
  reason : jsstring;
  template : jsstring
}.

End AgentSuggestion.

(** The text of an array length in a template literal. *)
Definition showLength (n : nat) : jsstring :=
  str (NilEmpty.string_of_uint (Nat.to_uint n)).

(** [s.replace(pattern, '')] for a string pattern: the first occurrence
    goes. *)
Definition removeFirst (pattern s : jsstring) : jsstring :=
  match indexOf pattern s with
  | Some i => substringTo i s ++ substringFrom (i + length pattern) s
  | None => s
  end.

Section Static.

(** [path.basename(this.workspaceRoot)]. *)
Variable projectName : jsstring.

(** [String.prototype.toLowerCase], which follows the Unicode case
    mappings. *)
Variable toLowerCase : jsstring -> jsstring.

(** [path.relative(this.workspaceRoot, file.path)]. *)
Variable relative : MarkdownFile -> jsstring.

(** *** detectTechStack *)

Definition detectTechStack (files : list MarkdownFile) : list jsstring :=
  let allContent := join (str " ") (map (fun f => toLowerCase (content f)) files) in
  let mentions (word : jsstring) := includes word allContent in
  (if mentions (str "fastapi") then [str "FastAPI"]
   else if mentions (str "express") then [str "Express"]
   else if mentions (str "django") then [str "Django"]
   else if mentions (str "flask") then [str "Flask"]
   else if mentions (str "nestjs") then [str "NestJS"]
   else [])
  ++ (if mentions (str "ionic") then [str "Ionic"] else [])
  ++ (if mentions (str "angular") then [str "Angular"]
      else if mentions (str "react") then [str "React"]
      else if mentions (str "vue") then [str "Vue"]
      else if mentions (str "svelte") then [str "Svelte"]
      else [])
  ++ (if mentions (str "sqlite") then [str "SQLite"]
      else if mentions (str "postgresql") || mentions (str "postgres") then [str "PostgreSQL"]
      else if mentions (str "mongodb") then [str "MongoDB"]
      else if mentions (str "mysql") then [str "MySQL"]
      else [])
  ++ (if mentions (str "sqlalchemy") then [str "SQLAlchemy"]
      else if mentions (str "prisma") then [str "Prisma"]
      else if mentions (str "typeorm") then [str "TypeORM"]
      else [])
  ++ (if mentions (str "jwt") then [str "JWT"] else [])
  ++ (if mentions (str "oauth") then [str "OAuth"] else [])
  ++ (if mentions (str "typescript") then [str "TypeScript"] else [])
  ++ (if mentions (str "graphql") then [str "GraphQL"] else [])
  ++ (if mentions (str "docker") then [str "Docker"] else []).

(** *** generateContextSection *)

(** [f.name.toLowerCase() === lower] *)
Definition named (lower : jsstring) (f : MarkdownFile) : bool :=
  streq (toLowerCase (name f)) lower.

(** One iteration of the loop over [keyDocs]. *)
Definition documentLine (file : MarkdownFile) : jsstring :=
  str "- `" ++ relative file ++ str "`"
  ++ match description file with
     | Some (c :: d) =>
         str " - " ++ substringTo 80 (c :: d)
         ++ (if Nat.ltb 80 (length (c :: d)) then str "..." else [])
     | _ =>
         match title file with
         | Some (c :: t) =>
             if negb (streq (c :: t) (removeFirst (str ".md") (name file)))
             then str " - " ++ (c :: t)
             else []
         | _ => []
         end
     end
  ++ [LF].

Definition generateContextSection (files : list MarkdownFile) : jsstring :=
  let readme := find (named (str "readme.md")) files in
  let claudeFile := find (named (str "claude.md")) files in
  let changelog := find (named (str "changelog.md")) files in
  let contributing := find (named (str "contributing.md")) files in
  let otherDocs :=
    filter (fun f => negb (listIncludes [str "readme.md"; str "claude.md";
                                         str "changelog.md"; str "contributing.md"]
                             (toLowerCase (name f)))) files in
  let keyDocs := firstn 5 otherDocs in
  [LF; LF] ++ str "## Project Context (Auto-generated)" ++ [LF; LF]
  ++ str "Project: **" ++ projectName ++ str "**" ++ [LF; LF]
  ++ match readme with
     | Some file =>
         match extractReadmeSummary (content file) with
         | [] => []
         | summary => str "### Overview" ++ [LF] ++ summary ++ [LF; LF]
         end
     | None => []
     end
  ++ match claudeFile with
     | Some file =>
         match extractClaudeContext (content file) with
         | [] => []
         | claudeContext =>
             str "### Project Guidelines (from CLAUDE.md)" ++ [LF] ++ claudeContext
             ++ [LF; LF]
         end
     | None => []
     end
  ++ match detectTechStack files with
     | [] => []
     | techStack => str "### Tech Stack" ++ [LF] ++ join (str ", ") techStack ++ [LF; LF]
     end
  ++ (if Nat.ltb 0 (length keyDocs)
         || match changelog with Some _ => true | None => false end
         || match contributing with Some _ => true | None => false end
      then
        str "### Documentation" ++ [LF]
        ++ match changelog with
           | Some _ => str "- `CHANGELOG.md` - Project version history" ++ [LF]
           | None => []
           end
        ++ match contributing with
           | Some _ => str "- `CONTRIBUTING.md` - Contribution guidelines" ++ [LF]
           | None => []
           end
        ++ concat (map documentLine keyDocs)
      else []).

(** *** updateAgentWithContext

    The static strategy: the result of the call, and the text written to
    the file if the write succeeded. *)

Definition updateAgentWithContext (agentName : jsstring) (disk : agentFile)
  (files : list MarkdownFile) : bool * option jsstring :=
  match readFileSync disk with
  | Throws _ => (false, None)
  | Returns original =>
      let stripped := removeOldContext (fixFrontmatterFormat original agentName) in
      let withPrompt :=
        match indexOfFrom (str "---") stripped 4 with
        | Some frontmatterEnd =>
            let bodyContent := trim (substringFrom (frontmatterEnd + 3) stripped) in
            if isEmpty bodyContent || Nat.ltb (length bodyContent) 20
            then substringTo (frontmatterEnd + 3) stripped ++ [LF; LF]
                 ++ generateDefaultAgentPrompt agentName projectName
            else stripped
        | None => stripped
        end in
      let content := withPrompt ++ generateContextSection files in
      match writeFileSync disk content with
      | Throws _ => (false, None)
      | Returns _ => (true, Some content)
      end
  end.

(** *** suggestAgents and its templates *)

Definition getDocsAgentTemplate (files : list MarkdownFile) : jsstring :=
  let fileList := unlines (map (fun f => str "- " ++ relative f) (firstn 10 files)) in
  unlines
    [str "---";
     str "name: docs-expert";
     str "description: Expert in " ++ projectName
       ++ str " documentation and project structure";
     str "model: sonnet";
     str "---";
     str "";
     str "You are a documentation expert for the " ++ projectName ++ str " project.";
     str "";
     str "## Your Knowledge Base";
     str "";
     str "The project has the following documentation files:";
     fileList;
     str "";
     str "## Your Responsibilities";
     str "";
     str "- Answer questions about the project based on documentation";
     str "- Help users find relevant documentation";
     str "- Explain project structure and conventions";
     str "- Assist with understanding the codebase";
     str "";
     str "## Guidelines";
     str "";
     str "- Always reference specific documentation files when answering";
     str "- If information is not in the docs, say so clearly";
     str "- Suggest improvements to documentation when appropriate";
     str ""].

Definition getApiAgentTemplate : jsstring :=
  unlines
    [str "---";
     str "name: api-expert";
     str "description: Expert in " ++ projectName ++ str " API and endpoints";
     str "model: sonnet";
     str "---";
     str "";
     str "You are an API expert for the " ++ projectName ++ str " project.";
     str "";
     str "## Your Responsibilities";
     str "";
     str "- Help users understand API endpoints and their usage";
     str "- Assist with API integration and troubleshooting";
     str "- Explain request/response formats";
     str "- Guide users through authentication and authorization";
     str "";
     str "## Guidelines";
     str "";
     str "- Provide working code examples when possible";
     str "- Warn about breaking changes or deprecated endpoints";
     str "- Consider security best practices";
     str ""].

Definition getTestAgentTemplate : jsstring :=
  unlines
    [str "---";
     str "name: test-expert";
     str "description: Expert in testing for " ++ projectName;
     str "model: sonnet";
     str "---";
     str "";
     str "You are a testing expert for the " ++ projectName ++ str " project.";
     str "";
     str "## Your Responsibilities";
     str "";
     str "- Help write and improve tests";
     str "- Debug failing tests";
     str "- Suggest test coverage improvements";
     str "- Guide testing best practices";
     str "";
     str "## Guidelines";
     str "";
     str "- Follow existing test patterns in the project";
     str "- Prioritize meaningful tests over coverage numbers";
     str "- Consider edge cases and error scenarios";
     str ""].

Definition getArchitectureAgentTemplate : jsstring :=
  unlines
    [str "---";
     str "name: architecture-expert";
     str "description: Expert in " ++ projectName ++ str " architecture and design";
     str "model: sonnet";
     str "---";
     str "";
     str "You are an architecture expert for the " ++ projectName ++ str " project.";
     str "";
     str "## Your Responsibilities";
     str "";
     str "- Explain architectural decisions and patterns";
     str "- Help with system design questions";
     str "- Guide refactoring efforts";
     str "- Identify potential improvements";
     str "";
     str "## Guidelines";
     str "";
     str "- Consider scalability and maintainability";
     str "- Respect existing patterns unless there's good reason to change";
     str "- Document architectural decisions";
     str ""].

Definition suggestAgents (files : list MarkdownFile) : list AgentSuggestion.t :=
  let contentLower := join (str " ") (map (fun f => toLowerCase (content f)) files) in
  let mentions (word : jsstring) := includes word contentLower in
  (if Nat.leb 3 (length files) then
     [{| AgentSuggestion.name := str "docs-expert";
         AgentSuggestion.description :=
           str "Expert in " ++ projectName ++ str " documentation and project structure";
         AgentSuggestion.reason :=
           str "Found " ++ showLength (length files)
           ++ str " documentation files in the project";
         AgentSuggestion.template := getDocsAgentTemplate files |}]
   else [])
  ++ (if mentions (str "api") || mentions (str "endpoint") || mentions (str "rest") then
        [{| AgentSuggestion.name := str "api-expert";
            AgentSuggestion.description :=
              str "Expert in " ++ projectName ++ str " API and endpoints";
            AgentSuggestion.reason := str "Found API-related documentation";
            AgentSuggestion.template := getApiAgentTemplate |}]
      else [])
  ++ (if mentions (str "test") || mentions (str "jest") || mentions (str "mocha") then
        [{| AgentSuggestion.name := str "test-expert";
            AgentSuggestion.description := str "Expert in testing for " ++ projectName;
            AgentSuggestion.reason := str "Found testing-related documentation";
            AgentSuggestion.template := getTestAgentTemplate |}]
      else [])
  ++ (if mentions (str "architecture") || mentions (str "design") || mentions (str "structure") then
        [{| AgentSuggestion.name := str "architecture-expert";
            AgentSuggestion.description :=
              str "Expert in " ++ projectName ++ str " architecture and design";
            AgentSuggestion.reason := str "Found architecture-related documentation";
            AgentSuggestion.template := getArchitectureAgentTemplate |}]
      else []).

End Static.

End AutoContextService.

(** ** The extension's commands: creating an agent *)

Module Extension.

(** The class of lower-case ASCII letters, digits and the hyphen. *)
Definition isNameChar (c : char) : bool :=
  (N.leb 97 c && N.leb c 122) || (N.leb 48 c && N.leb c 57) || N.eqb c DASH.

(** [validateInput] of the name box: the message shown, [None] when the
    name is accepted. *)
Definition validateInput (value : jsstring) : option jsstring :=
  match value with
  | [] => Some (str "Name is required")
  | _ =>
      if negb (forallb isNameChar value)
      then Some (str "Name should only contain lowercase letters, numbers, and hyphens")
      else None
  end.

Definition getAgentTemplate (name : jsstring) : jsstring :=
  unlines
    [str "---";
     str "name: " ++ name;
     str "description: Description of what this agent does and when to use it";
     str "model: sonnet";
     str "---";
     str "";
     str "You are a specialized agent for [describe purpose].";
     str "";
     str "## Your Responsibilities";
     str "";
     str "- [List main responsibilities]";
     str "";
     str "## Guidelines";
     str "";
     str "- [Add specific guidelines]";
     str "";
     str "## Constraints";
     str "";
     str "- [Add any constraints or limitations]";
     str ""].

End Extension.

(* ===================================================================== *)
(** * Part II. The vocabulary of the properties                           *)
(* ===================================================================== *)

(** Predicates, measures and sample inputs the statements of Part III
    are written with. *)

(** ** For the digest *)

Section DigestVocabulary.

Import ClaudeCodeService.

(** The characters a text file contributes under a cap. *)
Definition cappedLength (f : file) (cap : N) : N :=
  match f with
  | Readable text => N.min (strlen text) cap
  | _ => 0%N
  end.

(** The manifest summary, if there is one, is no longer than the budget the
    two files before it leave. *)
Definition manifestFits (ws : workspace) : Prop :=
  match packageJson ws with
  | Manifest summary =>
      (cappedLength (claudeMd ws) MAX_FILE_SIZE
       + cappedLength (readmeMd ws) MAX_FILE_SIZE
       + strlen summary <= MAX_TOTAL)%N
  | _ => True
  end.

(** The section labels and the separators of a digest with all five
    sections: 13 + 13 + 16 + 18 + 13 and four times 2. *)
Definition LABEL_OVERHEAD : N := 81.

(** Every part weighs its length and one separator. *)
Definition weight (parts : list jsstring) : N :=
  fold_right (fun p acc => (strlen p + 2 + acc)%N) 0%N parts.

(** A manifest with a long name: the text
    [JSON.stringify({ name, dependencies: [], devDependencies: [] }, null, 2)]
    gives for a package.json that holds only that name. *)
Definition summaryOfName (pkgName : jsstring) : jsstring :=
  unlines [str "{";
           str "  " ++ [DQUOTE] ++ str "name" ++ [DQUOTE] ++ str ": "
             ++ [DQUOTE] ++ pkgName ++ [DQUOTE] ++ str ",";
           str "  " ++ [DQUOTE] ++ str "dependencies" ++ [DQUOTE] ++ str ": [],";
           str "  " ++ [DQUOTE] ++ str "devDependencies" ++ [DQUOTE] ++ str ": []";
           str "}"].

(** A workspace with 2000 characters of CLAUDE.md, 2000 of README.md, a
    manifest whose summary has 3003 characters and a pyproject.toml of 1000
    characters. *)
Definition fullWorkspace : workspace :=
  {| claudeMd := Readable (repeat 97%N 2000);
     readmeMd := Readable (repeat 98%N 2000);
     packageJson := Manifest (summaryOfName (repeat 99%N 2940));
     pyprojectToml := Readable (repeat 100%N 1000);
     requirementsTxt := Absent;
     rootListing := Some [FileEntry (str "CLAUDE.md"); FileEntry (str "README.md");
                          FileEntry (str "package.json");
                          FileEntry (str "pyproject.toml")] |}.

(** Every file that exists can be read. *)
Definition readable (f : file) : bool :=
  match f with Unreadable => false | _ => true end.

(** A workspace that holds only requirements.txt. *)
Definition requirementsOnly : workspace :=
  {| claudeMd := Absent; readmeMd := Absent; packageJson := NoManifest;
     pyprojectToml := Absent;
     requirementsTxt := Readable (str "flask");
     rootListing := Some [FileEntry (str "requirements.txt")] |}.

End DigestVocabulary.

(** ** For the assistant client *)

Section ExecuteVocabulary.

Import ClaudeCodeService.

(** Callbacks that leave the process running and the promise alone. *)
Definition isOutput (ev : event) : bool :=
  match ev with
  | StdoutData _ | StderrData _ | WaitingTick => true
  | _ => false
  end.

(** What the [data] handler of stdout has accumulated. *)
Fixpoint stdoutOf (events : list event) : jsstring :=
  match events with
  | [] => []
  | StdoutData chunk :: rest => chunk ++ stdoutOf rest
  | _ :: rest => stdoutOf rest
  end.

(** Tests on the state of a promise. *)
Definition isRejected {A} (p : promise A) : bool :=
  match p with Rejected _ => true | _ => false end.

Definition isPending {A} (p : promise A) : bool :=
  match p with Pending => true | _ => false end.

(** No callback rejects, and the watchdog stays scheduled only while the
    promise is pending. *)
Definition wellFormed (st : running) : Prop :=
  isRejected (settled st) = false
  /\ (timeoutId st = false -> isPending (settled st) = false).

End ExecuteVocabulary.

(** A rendering of [timeout / 1000] for timeouts of whole seconds. *)
Definition secondsText (t : N) : jsstring :=
  ClaudeCodeService.showCode (Some (Z.of_N (t / 1000))).

(** ** For the scan *)

Section ScanVocabulary.

Import AutoContextService.

(** Induction over a tree of entries. *)
Section NodeInduction.

Variable P : node -> Prop.
Hypothesis onFile : forall name text, P (FileNode name text).
Hypothesis onMissing : forall name, P (DirNode name Missing).
Hypothesis onUnlistable : forall name, P (DirNode name Unlistable).
Hypothesis onEntries :
  forall name entries, Forall P entries -> P (DirNode name (Entries entries)).

Fixpoint node_tree_ind (e : node) : P e :=
  match e with
  | FileNode name text => onFile name text
  | DirNode name Missing => onMissing name
  | DirNode name Unlistable => onUnlistable name
  | DirNode name (Entries entries) =>
      onEntries name entries
        ((fix all (es : list node) : Forall P es :=
            match es with
            | [] => Forall_nil P
            | e' :: es' => Forall_cons e' (node_tree_ind e') (all es')
            end) entries)
  end.

End NodeInduction.

(** Every directory of the tree that exists can be listed. *)
Fixpoint listable (e : node) : bool :=
  match e with
  | FileNode _ _ => true
  | DirNode _ Missing => true
  | DirNode _ Unlistable => false
  | DirNode _ (Entries entries) => forallb listable entries
  end.

(** A directory the scan may enter. *)
Definition entered (name : jsstring) : bool :=
  negb (listIncludes skipDirs name) && negb (startsWith (str ".") name).

(** The directories on the way from the scan root to a file. *)
Definition directoriesOf (f : MarkdownFile) : list jsstring :=
  removelast (path f).

(** Within the depth, and reached through entered directories only. *)
Definition wellPlaced (f : MarkdownFile) : Prop :=
  length (directoriesOf f) <= MAX_DEPTH
  /\ Forall (fun d => listIncludes skipDirs d = false
                      /\ startsWith (str ".") d = false) (directoriesOf f).

(** A tree with a file at the root, one in [docs], a chain of directories
    [d1/.../d6] holding one file at each level, and files inside
    [node_modules] and the hidden [.cache]. *)
Definition sampleTree : listing node :=
  let page := Some (unlines [str "# Page"; str ""; str "Text."]) in
  Entries
    [FileNode (str "README.md") page;
     FileNode (str "notes.txt") page;
     DirNode (str "node_modules") (Entries [FileNode (str "dep.md") page]);
     DirNode (str ".cache") (Entries [FileNode (str "hidden.md") page]);
     DirNode (str "docs") (Entries [FileNode (str "guide.md") page]);
     DirNode (str "d1") (Entries [FileNode (str "l1.md") page;
      DirNode (str "d2") (Entries [FileNode (str "l2.md") page;
       DirNode (str "d3") (Entries [FileNode (str "l3.md") page;
        DirNode (str "d4") (Entries [FileNode (str "l4.md") page;
         DirNode (str "d5") (Entries [FileNode (str "l5.md") page;
          DirNode (str "d6") (Entries [FileNode (str "l6.md") page])])])])])])].

End ScanVocabulary.

(** ** For the normalizer *)

Section FrontmatterVocabulary.

Import AutoContextService.

(** Three hyphens: what a delimiter line holds. *)
Definition DASHES : jsstring := str "---".

(** The header block a file without delimiters receives. *)
Definition reviewerHeader : jsstring :=
  unlines [str "---"; str "name: reviewer"; str "description: Agent for reviewer";
           str "model: sonnet"; str "---"].

(** The text stops the run: it is empty or begins outside the class. *)
Definition stops (p : char -> bool) (s : jsstring) : Prop :=
  match s with
  | [] => True
  | c :: _ => p c = false
  end.

(** The keys the loop tests for. *)
Definition TOOLS : jsstring := str "tools".
Definition ALLOWED_TOOLS : jsstring := str "allowed-tools".
Definition NAME : jsstring := str "name".
Definition DESCRIPTION : jsstring := str "description".
Definition MODEL : jsstring := str "model".

(** The line an iteration pushes, if it pushes one. *)
Definition keepLine (line : jsstring) : option jsstring :=
  if hasKey TOOLS line || hasKey ALLOWED_TOOLS line then None
  else match matchQuoted line with
       | Some (indent, field, value) =>
           if needsQuotes value then Some line
           else Some (indent ++ field ++ str ": " ++ value)
       | None => Some line
       end.

(** The lines the loop leaves in [fixedLines]. *)
Definition keptLines (lines : list jsstring) : list jsstring :=
  flat_map (fun l => match keepLine l with Some x => [x] | None => [] end) lines.

(** No unit of [bad] occurs in [s]. *)
Definition noneOf (bad : list char) (s : jsstring) : bool :=
  forallb (fun c => negb (existsb (N.eqb c) bad)) s.

(** The header block, if the text has one, holds no dollar sign and does
    not begin with three hyphens. *)
Definition plainHeader (content : jsstring) : bool :=
  match matchFrontmatter content with
  | Some (frontmatter, _) =>
      noneOf [DOLLAR] frontmatter && negb (startsWith DASHES frontmatter)
  | None => true
  end.

(** The number of lines a key test accepts. *)
Definition countKey (key : jsstring) (lines : list jsstring) : nat :=
  length (filter (hasKey key) lines).

(** The header lines of the input, none if it has no header block. *)
Definition inputHeaderLines (content : jsstring) : list jsstring :=
  match headerLines content with
  | Some lines => lines
  | None => []
  end.

(** What the first pass guarantees of the lines it writes. *)
Definition shaped (content agentName : jsstring) (fixed : list jsstring) : Prop :=
  Forall (fun l => ~ In LF l) fixed
  /\ Forall (fun l => ~ In DOLLAR l) fixed
  /\ Forall (fun l => startsWith DASHES l = false) fixed
  /\ countKey NAME fixed = Nat.max 1 (countKey NAME (inputHeaderLines content))
  /\ countKey DESCRIPTION fixed
     = Nat.max 1 (countKey DESCRIPTION (inputHeaderLines content))
  /\ countKey MODEL fixed = Nat.max 1 (countKey MODEL (inputHeaderLines content))
  /\ countKey TOOLS fixed = 0
  /\ countKey ALLOWED_TOOLS fixed = 0
  /\ (noneOf [DQUOTE; SQUOTE] agentName = true ->
      Forall (fun l => keepLine l = Some l) fixed).

(** Does a second pass leave the result of the first one alone? *)
Definition stableUnderSecondPass (content agentName : jsstring) : bool :=
  streq (fixFrontmatterFormat (fixFrontmatterFormat content agentName) agentName)
        (fixFrontmatterFormat content agentName).

(** A header block with quoted values and a tool list. *)
Definition quotedSample : jsstring :=
  unlines [str "---"; str "name: 'rev'"; str "tools: Read, Grep";
           str "  description: 'x: y' "; str "allowed-tools: Bash"; str "---";
           str "body"].

End FrontmatterVocabulary.

(** ** For the rewriter *)

(** An assistant that always times out. *)
Definition timedOut (_ _ _ : jsstring) : ClaudeCodeService.ClaudeResponse :=
  {| ClaudeCodeService.success := false;
     ClaudeCodeService.content := [];
     ClaudeCodeService.error := Some (str "Timeout after 90s. Partial output: ") |}.

(** A file that holds [text] and accepts every write. *)
Definition writableFile (text : jsstring) : AutoContextService.agentFile :=
  {| AutoContextService.readFileSync := AutoContextService.Returns text;
     AutoContextService.writeFileSync := fun _ => AutoContextService.Returns tt |}.

(** ** For the exit of the process and the availability probe *)

Section ExitVocabulary.

Import ClaudeCodeService.

(** What the [data] handler of stderr has accumulated. *)
Fixpoint stderrOf (events : list event) : jsstring :=
  match events with
  | [] => []
  | StderrData chunk :: rest => chunk ++ stderrOf rest
  | _ :: rest => stderrOf rest
  end.

(** [code === 0] *)
Definition exitedCleanly (code : option Z) : bool :=
  match code with
  | Some 0%Z => true
  | _ => false
  end.

(** What the probe answers when [ev] is the first callback to settle it. *)
Definition probeAnswer (ev : event) : bool :=
  match ev with
  | Close code => exitedCleanly code
  | _ => false
  end.

End ExitVocabulary.

(** ** For what the scan returns and when it fails *)

Section ScanResultVocabulary.

Import AutoContextService.

(** The scan, visiting [e] in a directory listed at depth [depth], enters a
    directory that cannot be listed. *)
Fixpoint blockedAt (depth : nat) (e : node) : bool :=
  match e with
  | FileNode _ _ => false
  | DirNode name sub =>
      entered name && negb (Nat.ltb MAX_DEPTH (S depth))
      && match sub with
         | Missing => false
         | Unlistable => true
         | Entries entries => existsb (blockedAt (S depth)) entries
         end
  end.

(** The scan of [root] meets a directory it has to list and cannot: the
    root itself, or a directory it enters. *)
Definition scanBlocked (root : listing node) : bool :=
  match root with
  | Missing => false
  | Unlistable => true
  | Entries entries => existsb (blockedAt 0) entries
  end.

(** A record as the scanner builds it: a markdown file named by the last
    component of its path, with the title and the description
    [parseMarkdown] finds in its content. *)
Definition scanned (f : MarkdownFile) : Prop :=
  endsWith (str ".md") (name f) = true
  /\ last (path f) [] = name f
  /\ title f = fst (parseMarkdown (content f))
  /\ description f = snd (parseMarkdown (content f)).

(** A tree whose root holds an unreadable file and three directories that
    cannot be listed: a hidden one, one on the skip list, and one six
    levels down. *)
Definition guardedTree : listing node :=
  Entries
    [FileNode (str "README.md") None;
     DirNode (str ".private") Unlistable;
     DirNode (str "node_modules") Unlistable;
     DirNode (str "a") (Entries
      [DirNode (str "b") (Entries
        [DirNode (str "c") (Entries
          [DirNode (str "d") (Entries
            [DirNode (str "e") (Entries
              [FileNode (str "deep.md") (Some (str "# Deep"));
               DirNode (str "f") Unlistable])])])])])].

End ScanResultVocabulary.

(** ** For the static analysis *)

Section StaticVocabulary.

Import AutoContextService.

(** [toLowerCase] on ASCII text. *)
Definition lowerAscii (s : jsstring) : jsstring := map foldCase s.

(** [path.relative] on a POSIX system: the names from the workspace root
    down, joined by slashes. *)
Definition slashPath (f : MarkdownFile) : jsstring := join (str "/") (path f).

(** The record the scanner builds for a file at the workspace root. *)
Definition rootFile (name content : jsstring) : MarkdownFile :=
  markdownFile name [name] content.

(** Three documents of a small service. *)
Definition sampleDocs : list MarkdownFile :=
  [rootFile (str "README.md")
     (unlines [str "# Demo"; str ""; str "A FastAPI service with a React client.";
               str ""; str "## Usage"; str "Call the REST endpoint."]);
   rootFile (str "CLAUDE.md")
     (unlines [str "# Rules"; str "- Run the tests first"; str "```sh";
               str "make test"; str "```"]);
   rootFile (str "guide.md") (unlines [str "# Guide"; str ""; str "How to deploy."])].

(** [a] is [b] with some elements left out, the others in place. *)
Inductive Subsequence : list jsstring -> list jsstring -> Prop :=
| Subsequence_nil : Subsequence [] []
| Subsequence_skip (x : jsstring) (a b : list jsstring) :
    Subsequence a b -> Subsequence a (x :: b)
| Subsequence_take (x : jsstring) (a b : list jsstring) :
    Subsequence a b -> Subsequence (x :: a) (x :: b).

(** The technologies [detectTechStack] knows, family by family, in the
    order of its tests. *)
Definition backends : list jsstring :=
  [str "FastAPI"; str "Express"; str "Django"; str "Flask"; str "NestJS"].
Definition frontends : list jsstring :=
  [str "Angular"; str "React"; str "Vue"; str "Svelte"].
Definition databases : list jsstring :=
  [str "SQLite"; str "PostgreSQL"; str "MongoDB"; str "MySQL"].
Definition mappers : list jsstring :=
  [str "SQLAlchemy"; str "Prisma"; str "TypeORM"].
Definition technologies : list jsstring :=
  backends ++ [str "Ionic"] ++ frontends ++ databases ++ mappers
  ++ [str "JWT"; str "OAuth"; str "TypeScript"; str "GraphQL"; str "Docker"].

(** How many elements of [stack] belong to [family]. *)
Definition countIn (family stack : list jsstring) : nat :=
  length (filter (listIncludes family) stack).

(** The agents [suggestAgents] knows, in the order of its tests. *)
Definition knownAgents : list jsstring :=
  [str "docs-expert"; str "api-expert"; str "test-expert"; str "architecture-expert"].

(** The header block of an agent definition with the three keys, and the
    text of a definition with that header. *)
Definition headerOf (name description : jsstring) : list jsstring :=
  [str "name: " ++ name; str "description: " ++ description; str "model: sonnet"].

Definition definitionText (name description : jsstring) (body : list jsstring)
  : jsstring :=
  unlines (str "---" :: headerOf name description ++ str "---" :: body).

End StaticVocabulary.

(** ** For the directory tree of the digest *)

Section TreeVocabulary.

Import ClaudeCodeService.

(** Induction over a tree of directory entries. *)
Section DirentInduction.

Variable P : dirent -> Prop.
Hypothesis onFile : forall name, P (FileEntry name).
Hypothesis onUnreadable : forall name, P (DirEntry name None).
Hypothesis onListing :
  forall name entries, Forall P entries -> P (DirEntry name (Some entries)).

Fixpoint dirent_tree_ind (e : dirent) : P e :=
  match e with
  | FileEntry name => onFile name
  | DirEntry name None => onUnreadable name
  | DirEntry name (Some entries) =>
      onListing name entries
        ((fix all (es : list dirent) : Forall P es :=
            match es with
            | [] => Forall_nil P
            | e' :: es' => Forall_cons e' (dirent_tree_ind e') (all es')
            end) entries)
  end.

End DirentInduction.

(** The entry with everything more than [levels] directories below it
    made unreadable. *)
Fixpoint prune (levels : nat) (e : dirent) {struct e} : dirent :=
  match e with
  | FileEntry name => FileEntry name
  | DirEntry name listing =>
      DirEntry name
        match levels, listing with
        | S k, Some entries => Some (map (prune k) entries)
        | _, _ => None
        end
  end.

(** The workspace with its tree cut two directory levels below the root. *)
Definition shallow (ws : workspace) : workspace :=
  {| claudeMd := claudeMd ws;
     readmeMd := readmeMd ws;
     packageJson := packageJson ws;
     pyprojectToml := pyprojectToml ws;
     requirementsTxt := requirementsTxt ws;
     rootListing := option_map (map (prune 2)) (rootListing ws) |}.

(** A tree four directories deep. *)
Definition deepTree : list dirent :=
  [FileEntry (str "README.md");
   DirEntry (str "src") (Some
     [FileEntry (str "main.ts");
      DirEntry (str "core") (Some
        [FileEntry (str "a.ts");
         DirEntry (str "deep") (Some
           [FileEntry (str "b.ts");
            DirEntry (str "deeper") None])])]);
   DirEntry (str "node_modules") (Some [FileEntry (str "x.js")]);
   FileEntry (str ".env")].

End TreeVocabulary.

(** ** Tactics *)

(** Decide every comparison in sight, dropping the impossible cases. *)
Ltac by_ranges :=
  repeat match goal with
    | H : context [N.leb ?a ?b] |- _ => destruct (N.leb_spec a b); try lia
    | H : context [N.eqb ?a ?b] |- _ => destruct (N.eqb_spec a b); try lia
    | |- context [N.leb ?a ?b] => destruct (N.leb_spec a b); try lia
    | |- context [N.eqb ?a ?b] => destruct (N.eqb_spec a b); try lia
    end;
  cbn in *; try reflexivity; try discriminate.

(** Case analysis on every test of a conditional in the goal. *)
Ltac by_tests :=
  repeat match goal with
    | |- context [if ?b then _ else _] => destruct b
    end.

(* ===================================================================== *)
(** * Part III. Properties                                                *)
(* ===================================================================== *)

(** ** Lengths *)

Lemma strlen_app (a b : jsstring) : strlen (a ++ b) = (strlen a + strlen b)%N.
Proof. unfold strlen. rewrite length_app. lia. Qed.

Lemma strlen_cons (c : char) (s : jsstring) : strlen (c :: s) = (1 + strlen s)%N.
Proof. unfold strlen. cbn [length]. lia. Qed.

Lemma strlen_substringTo (n : N) (s : jsstring) :
  strlen (substringTo (N.to_nat n) s) = N.min (strlen s) n.
Proof. unfold strlen, substringTo. rewrite length_firstn. lia. Qed.

(** ** The project-context digest *)

Section DigestFacts.

Import ClaudeCodeService.

Lemma weight_snoc (parts : list jsstring) (p : jsstring) :
  weight (parts ++ [p]) = (weight parts + strlen p + 2)%N.
Proof.
  induction parts as [|q parts IH]; cbn [weight fold_right app].
  - lia.
  - fold (weight (parts ++ [p])). fold (weight parts). rewrite IH. lia.
Qed.

Lemma strlen_join_parts (parts : list jsstring) :
  strlen (join [LF; LF] parts) = (weight parts - 2)%N.
Proof.
  induction parts as [|p parts IH].
  - reflexivity.
  - destruct parts as [|q parts].
    + cbn [join weight fold_right]. lia.
    + change (join [LF; LF] (p :: q :: parts))
        with (p ++ [LF; LF] ++ join [LF; LF] (q :: parts)).
      rewrite !strlen_app, IH.
      change (strlen [LF; LF]) with 2%N.
      cbn [weight fold_right]. lia.
Qed.

Lemma weight_pushPart (label body : jsstring) (counted : N) (st : digestState) :
  weight (contextParts (pushPart label body counted st))
  = (weight (contextParts st) + strlen label + strlen body + 6)%N.
Proof.
  unfold pushPart; cbn [contextParts]. rewrite weight_snoc, !strlen_app.
  change (strlen (str "## ")) with 3%N. change (strlen [LF]) with 1%N. lia.
Qed.

(** A text section never overshoots the budget, and its part weighs the
    counted characters and its label. *)
Lemma textSection_spec (name : jsstring) (f : file) (cap : N) (st st' : digestState) :
  textSection name f cap st = Some st' ->
  totalChars st' =
    (totalChars st + cappedLength f (N.min cap (MAX_TOTAL - totalChars st)))%N
  /\ (weight (contextParts st') + totalChars st
      <= weight (contextParts st) + totalChars st' + strlen name + 6)%N.
Proof.
  unfold textSection, existsSync, cappedLength. destruct f as [| |text].
  - rewrite andb_false_l. intros [= <-]. split; lia.
  - rewrite andb_true_l. destruct (N.ltb_spec (totalChars st) MAX_TOTAL).
    + discriminate.
    + intros [= <-]. split; lia.
  - rewrite andb_true_l.
    destruct (N.ltb_spec (totalChars st) MAX_TOTAL) as [Hlt|Hge].
    + intros E.
      set (remaining := N.min cap (MAX_TOTAL - totalChars st)) in *.
      assert (Est : st' = pushPart name (substringTo (N.to_nat remaining) text)
                           (strlen (substringTo (N.to_nat remaining) text))
                           (noteRead name st)) by congruence.
      rewrite Est, weight_pushPart.
      change (totalChars (pushPart ?l ?b ?c ?s)) with (totalChars s + c)%N.
      change (totalChars (noteRead name st)) with (totalChars st).
      change (contextParts (noteRead name st)) with (contextParts st).
      rewrite strlen_substringTo. split; lia.
    + intros [= <-]. split; lia.
Qed.

(** With nothing counted yet, the cut of CLAUDE.md is that of the other
    text sections. *)
Lemma guidelinesSection_first (name : jsstring) (f : file) :
  guidelinesSection name f emptyDigest = textSection name f MAX_FILE_SIZE emptyDigest.
Proof. destruct f; reflexivity. Qed.

Lemma manifestSection_spec (m : manifest) (st : digestState) :
  let st' := manifestSection m st in
  totalChars st' =
    (totalChars st + match m with
                     | Manifest summary =>
                         if N.ltb (totalChars st) MAX_TOTAL then strlen summary else 0
                     | _ => 0
                     end)%N
  /\ (weight (contextParts st') + totalChars st
      <= weight (contextParts st) + totalChars st' + 18)%N.
Proof.
  unfold manifestSection.
  destruct m as [| | |summary]; cbn [manifestExists andb];
    destruct (N.ltb (totalChars st) MAX_TOTAL); cbn zeta;
    try rewrite weight_pushPart;
    cbn [pushPart noteRead totalChars contextParts];
    try change (strlen (str "package.json")) with 12%N; split; lia.
Qed.

Lemma structureSection_spec (root : option (list dirent)) (st : digestState) :
  (totalChars st <= MAX_TOTAL)%N ->
  (weight (contextParts (structureSection root st)) + totalChars st
   <= weight (contextParts st) + MAX_TOTAL + 15)%N.
Proof.
  intros Hle. unfold structureSection.
  destruct (N.ltb_spec (totalChars st) MAX_TOTAL) as [Hlt|Hge].
  - cbn zeta. rewrite weight_pushPart, strlen_substringTo.
    change (strlen (str "Structure")) with 9%N. lia.
  - lia.
Qed.

(** The digest stays within the budget plus the uncounted labels, whatever
    the manifest; with a manifest that overshoots, within what the manifest
    itself adds. *)
Lemma digest_length_general (ws : workspace) (st : digestState) :
  runProjectContext ws = Some st ->
  (strlen (join [LF; LF] (contextParts st))
   <= N.max MAX_TOTAL
        (cappedLength (claudeMd ws) MAX_FILE_SIZE
         + cappedLength (readmeMd ws) MAX_FILE_SIZE
         + match packageJson ws with Manifest s => strlen s | _ => 0 end)
      + LABEL_OVERHEAD)%N.
Proof.
  unfold runProjectContext, bindOpt. rewrite guidelinesSection_first.
  destruct (textSection (str "CLAUDE.md") (claudeMd ws) MAX_FILE_SIZE emptyDigest)
    as [s1|] eqn:E1; [|discriminate].
  destruct (textSection (str "README.md") (readmeMd ws) MAX_FILE_SIZE s1)
    as [s2|] eqn:E2; [|discriminate].
  destruct (textSection (str "pyproject.toml") (pyprojectToml ws) 1000
              (manifestSection (packageJson ws) s2)) as [s4|] eqn:E4; [|discriminate].
  intros [= <-].
  apply textSection_spec in E1, E2, E4.
  destruct E1 as [T1 W1], E2 as [T2 W2], E4 as [T4 W4].
  destruct (manifestSection_spec (packageJson ws) s2) as [T3 W3].
  cbn zeta in T3, W3.
  assert (C1 : (cappedLength (claudeMd ws) (N.min MAX_FILE_SIZE (MAX_TOTAL - totalChars emptyDigest))
                = cappedLength (claudeMd ws) MAX_FILE_SIZE)%N) by reflexivity.
  assert (B1 : (cappedLength (claudeMd ws) MAX_FILE_SIZE <= MAX_FILE_SIZE)%N).
  { destruct (claudeMd ws); cbn [cappedLength]; unfold MAX_FILE_SIZE; lia. }
  assert (B2 : (cappedLength (readmeMd ws) MAX_FILE_SIZE <= MAX_FILE_SIZE)%N).
  { destruct (readmeMd ws); cbn [cappedLength]; unfold MAX_FILE_SIZE; lia. }
  rewrite C1 in T1. cbn [totalChars emptyDigest] in T1.
  assert (C2 : (N.min MAX_FILE_SIZE (MAX_TOTAL - totalChars s1) = MAX_FILE_SIZE)%N).
  { unfold MAX_FILE_SIZE, MAX_TOTAL in *. lia. }
  rewrite C2 in T2.
  assert (B4 : (cappedLength (pyprojectToml ws)
                  (N.min 1000 (MAX_TOTAL - totalChars (manifestSection (packageJson ws) s2)))
                <= MAX_TOTAL - totalChars (manifestSection (packageJson ws) s2))%N).
  { destruct (pyprojectToml ws); cbn [cappedLength]; lia. }
  assert (L2 : (totalChars s2 < MAX_TOTAL)%N).
  { unfold MAX_FILE_SIZE, MAX_TOTAL in *. lia. }
  apply N.ltb_lt in L2. rewrite L2 in T3.
  rewrite strlen_join_parts.
  set (s3 := manifestSection (packageJson ws) s2) in *.
  set (root := rootListing ws).
  change (strlen (str "CLAUDE.md")) with 9%N in W1.
  change (strlen (str "README.md")) with 9%N in W2.
  change (strlen (str "pyproject.toml")) with 14%N in W4.
  change (weight (contextParts emptyDigest)) with 0%N in W1.
  destruct (N.le_gt_cases (totalChars s4) MAX_TOTAL) as [Hfit|Hover].
  - pose proof (structureSection_spec root s4 Hfit) as W5.
    unfold LABEL_OVERHEAD, MAX_TOTAL, MAX_FILE_SIZE in *.
    destruct (packageJson ws); lia.
  - assert (E5 : structureSection root s4 = s4).
    { unfold structureSection. destruct (N.ltb_spec (totalChars s4) MAX_TOTAL); [lia|reflexivity]. }
    rewrite E5.
    unfold LABEL_OVERHEAD, MAX_TOTAL, MAX_FILE_SIZE in *.
    destruct (packageJson ws); lia.
Qed.

(** The builder returns a digest whenever the text files that exist can be
    read. *)
Lemma getProjectContext_returns (ws : workspace) :
  readable (claudeMd ws) = true ->
  readable (readmeMd ws) = true ->
  readable (pyprojectToml ws) = true ->
  exists digest, getProjectContext ws = Some digest.
Proof.
  intros H1 H2 H4.
  unfold getProjectContext, runProjectContext, bindOpt, guidelinesSection, textSection.
  destruct (claudeMd ws); try discriminate H1;
    destruct (readmeMd ws); try discriminate H2;
    destruct (pyprojectToml ws); try discriminate H4;
    cbn [existsSync andb];
    repeat match goal with
      | |- context [if N.ltb ?a ?b then _ else _] => destruct (N.ltb a b)
      end;
    eexists; reflexivity.
Qed.

(** C1 (amended). When the manifest summary fits the budget left by
    CLAUDE.md and README.md (or there is no summary), the digest is at most
    8000 characters plus the 81 characters of section labels and
    separators, which the running total never counts. *)
Theorem digest_within_budget_and_labels (ws : workspace) (digest : jsstring) :
  getProjectContext ws = Some digest ->
  manifestFits ws ->
  (strlen digest <= MAX_TOTAL + LABEL_OVERHEAD)%N.
Proof.
  unfold getProjectContext, manifestFits.
  destruct (runProjectContext ws) as [st|] eqn:Erun; [|discriminate].
  intros E Hfit. cbn [option_map] in E.
  assert (Ed : digest = join [LF; LF] (contextParts st)) by congruence.
  rewrite Ed.
  pose proof (digest_length_general ws st Erun) as H.
  assert (B1 : (cappedLength (claudeMd ws) MAX_FILE_SIZE <= MAX_FILE_SIZE)%N)
    by (destruct (claudeMd ws); cbn [cappedLength]; unfold MAX_FILE_SIZE; lia).
  assert (B2 : (cappedLength (readmeMd ws) MAX_FILE_SIZE <= MAX_FILE_SIZE)%N)
    by (destruct (readmeMd ws); cbn [cappedLength]; unfold MAX_FILE_SIZE; lia).
  unfold MAX_TOTAL, MAX_FILE_SIZE, LABEL_OVERHEAD in *.
  destruct (packageJson ws); lia.
Qed.

(** C1, counterexample: the counted bodies fill the budget exactly (2000 +
    2000 + 3003 + 997) and the four labels and three separators come on
    top: the digest has 8066 characters. *)
Lemma digest_exceeds_budget :
  option_map strlen (getProjectContext fullWorkspace) = Some 8066%N
  /\ (MAX_TOTAL < 8066)%N.
Proof. split; vm_compute; reflexivity. Qed.

(** C1 (amended) on the workspace above, whose manifest fits. *)
Lemma digest_within_budget_and_labels_witness :
  exists digest,
    getProjectContext fullWorkspace = Some digest
    /\ manifestFits fullWorkspace
    /\ (strlen digest <= MAX_TOTAL + LABEL_OVERHEAD)%N.
Proof.
  assert (Hfit : manifestFits fullWorkspace) by (vm_compute; discriminate).
  destruct (getProjectContext fullWorkspace) as [digest|] eqn:E.
  - exists digest. split; [reflexivity|]. split; [exact Hfit|].
    exact (digest_within_budget_and_labels fullWorkspace digest E Hfit).
  - vm_compute in E. discriminate E.
Defined.

(** The overshoot that the manifest itself causes is not bounded: the
    summary is pushed whole. *)
Example digest_with_long_manifest :
  option_map strlen
    (getProjectContext
       {| claudeMd := Readable (repeat 97%N 2000);
          readmeMd := Readable (repeat 98%N 2000);
          packageJson := Manifest (summaryOfName (repeat 99%N 4937));
          pyprojectToml := Readable (repeat 100%N 1000);
          requirementsTxt := Absent;
          rootListing := Some [FileEntry (str "package.json")] |})
  = Some 9046%N.
Proof. vm_compute. reflexivity. Qed.

(** C5. In a workspace that holds only requirements.txt the progress
    query names that file, while the digest builder reads no file at all:
    its digest is the directory tree alone. *)
Theorem readable_files_lists_unread_requirements :
  getReadableFiles requirementsOnly = [str "requirements.txt"]
  /\ projectContextReads requirementsOnly = Some []
  /\ getProjectContext requirementsOnly
     = Some (unlines [str "## Structure"; str "requirements.txt"]).
Proof. repeat split; vm_compute; reflexivity. Qed.

(** Apart from requirements.txt, every file the digest builder reads is one
    the progress query names. *)
Lemma textSection_reads (name : jsstring) (f : file) (cap : N) (st st' : digestState) :
  textSection name f cap st = Some st' ->
  filesRead st' = filesRead st
  \/ (existsSync f = true /\ filesRead st' = filesRead st ++ [name]).
Proof.
  unfold textSection. destruct (existsSync f) eqn:Hex; cbn [andb].
  - destruct (N.ltb (totalChars st) MAX_TOTAL).
    + destruct f; try discriminate. intros E. right. split; [reflexivity|].
      assert (Est : st' = pushPart name
                (substringTo (N.to_nat (N.min cap (MAX_TOTAL - totalChars st))) text)
                (strlen (substringTo (N.to_nat (N.min cap (MAX_TOTAL - totalChars st)))
                           text))
                (noteRead name st)) by congruence.
      rewrite Est. reflexivity.
    + intros E. left. congruence.
  - intros E. left. congruence.
Qed.

Lemma manifestSection_reads (m : manifest) (st : digestState) :
  filesRead (manifestSection m st) = filesRead st
  \/ (manifestExists m = true
      /\ filesRead (manifestSection m st) = filesRead st ++ [str "package.json"]).
Proof.
  unfold manifestSection.
  destruct m; cbn [manifestExists andb];
    destruct (N.ltb (totalChars st) MAX_TOTAL); auto.
Qed.

Lemma structureSection_reads (root : option (list dirent)) (st : digestState) :
  filesRead (structureSection root st) = filesRead st.
Proof.
  unfold structureSection. destruct (N.ltb (totalChars st) MAX_TOTAL); reflexivity.
Qed.

Lemma reads_are_listed (ws : workspace) (reads : list jsstring) :
  projectContextReads ws = Some reads ->
  incl reads (getReadableFiles ws).
Proof.
  unfold projectContextReads, runProjectContext, bindOpt.
  rewrite guidelinesSection_first.
  destruct (textSection (str "CLAUDE.md") (claudeMd ws) MAX_FILE_SIZE emptyDigest)
    as [s1|] eqn:E1; [|discriminate].
  destruct (textSection (str "README.md") (readmeMd ws) MAX_FILE_SIZE s1)
    as [s2|] eqn:E2; [|discriminate].
  destruct (textSection (str "pyproject.toml") (pyprojectToml ws) 1000
              (manifestSection (packageJson ws) s2)) as [s4|] eqn:E4; [|discriminate].
  cbn [option_map]. intros [= <-]. rewrite structureSection_reads.
  apply textSection_reads in E1, E2, E4.
  pose proof (manifestSection_reads (packageJson ws) s2) as E3.
  change (filesRead emptyDigest) with (@nil jsstring) in E1.
  unfold getReadableFiles, checkFiles. intros x Hx.
  assert (Hcases : (x = str "CLAUDE.md" /\ existsSync (claudeMd ws) = true)
                   \/ (x = str "README.md" /\ existsSync (readmeMd ws) = true)
                   \/ (x = str "package.json" /\ manifestExists (packageJson ws) = true)
                   \/ (x = str "pyproject.toml" /\ existsSync (pyprojectToml ws) = true)).
  { destruct E4 as [E4|[X4 E4]]; rewrite E4 in Hx;
      [|apply in_app_or in Hx as [Hx|[<-|[]]]; [|auto]];
      (destruct E3 as [E3|[X3 E3]]; rewrite E3 in Hx;
       [|apply in_app_or in Hx as [Hx|[<-|[]]]; [|auto]]);
      (destruct E2 as [E2|[X2 E2]]; rewrite E2 in Hx;
       [|apply in_app_or in Hx as [Hx|[<-|[]]]; [|auto]]);
      (destruct E1 as [E1|[X1 E1]]; rewrite E1 in Hx;
       [destruct Hx|destruct Hx as [<-|[]]; auto]). }
  destruct Hcases as [[-> H]|[[-> H]|[[-> H]|[-> H]]]]; rewrite H;
    cbn [filter snd map fst];
    repeat match goal with
      | |- context [if ?b then _ else _] => destruct b
      end; cbn [map fst In]; auto 6.
Qed.

End DigestFacts.

(** ** The markdown scanner *)

Section ScannerFacts.

Import AutoContextService.

(** The example of the specification. *)
Example parseMarkdown_example :
  parseMarkdown (unlines [str "---"; str "foo: bar"; str "---"; str "";
                          str "# Title"; str ""; str "Hello world."])
  = (Some (str "Title"), Some (str "Hello world.")).
Proof. vm_compute. reflexivity. Qed.

(** A description is a trimmed line cut to 200 characters: neither empty
    nor a heading nor a delimiter line. *)
Lemma scanDescription_spec (lines : list jsstring) :
  forall skipping d,
    scanDescription skipping lines = Some d ->
    exists raw,
      In raw lines
      /\ d = substringTo 200 (trim raw)
      /\ isEmpty (trim raw) = false
      /\ startsWith [HASH] (trim raw) = false
      /\ streq (trim raw) (str "---") = false.
Proof.
  induction lines as [|raw rest IH]; intros skipping d; [discriminate|].
  cbn [scanDescription].
  assert (Hrest : forall b, scanDescription b rest = Some d ->
            exists raw', In raw' (raw :: rest)
              /\ d = substringTo 200 (trim raw')
              /\ isEmpty (trim raw') = false
              /\ startsWith [HASH] (trim raw') = false
              /\ streq (trim raw') (str "---") = false).
  { intros b Hb. destruct (IH b d Hb) as (raw' & Hin & Hrest).
    exists raw'. split; [right; exact Hin|exact Hrest]. }
  destruct skipping; [apply Hrest|].
  destruct (isEmpty (trim raw)) eqn:He; [apply Hrest|].
  destruct (startsWith [HASH] (trim raw)) eqn:Hh; [apply Hrest|]. cbn [orb].
  destruct (streq (trim raw) (str "---")) eqn:Hd; [apply Hrest|].
  intros [= <-]. exists raw. repeat split; try assumption. left. reflexivity.
Qed.

Lemma description_at_most_200 (content d : jsstring) :
  snd (parseMarkdown content) = Some d -> length d <= 200.
Proof.
  unfold parseMarkdown. cbn [snd]. intros H.
  destruct (scanDescription_spec _ _ _ H) as (raw & _ & -> & _).
  unfold substringTo. rewrite length_firstn. lia.
Qed.

(** C9. A horizontal rule in the middle of a file opens a skipped region
    like the header block does: the paragraph between two rules is passed
    over and the description is taken after the second rule. *)
Theorem parseMarkdown_skips_region_after_title :
  parseMarkdown (unlines [str "# Title"; str ""; str "---"; str "";
                          str "Hello"; str ""; str "---"; str ""; str "World"])
  = (Some (str "Title"), Some (str "World")).
Proof. vm_compute. reflexivity. Qed.

(** The title group may come from the line after a bare hash sign, since
    the white space of the pattern spans line feeds. *)
Example parseMarkdown_title_on_next_line :
  parseMarkdown (unlines [str "#"; str "text"])
  = (Some (str "text"), Some (str "text")).
Proof. vm_compute. reflexivity. Qed.

End ScannerFacts.

(** ** The assistant client *)

Section ExecuteFacts.

Import ClaudeCodeService.

Variable showSeconds : N -> jsstring.

Lemma runEvents_app (t : N) (a b : list event) (st : running) :
  runEvents showSeconds t (a ++ b) st
  = runEvents showSeconds t b (runEvents showSeconds t a st).
Proof. unfold runEvents. apply fold_left_app. Qed.

(** While only output arrives, nothing but the two buffers changes. *)
Lemma runEvents_output (t : N) (events : list event) (st : running) :
  forallb isOutput events = true ->
  runEvents showSeconds t events st
  = {| stdout := stdout st ++ stdoutOf events;
       stderr := stderr (runEvents showSeconds t events st);
       settled := settled st; timeoutId := timeoutId st;
       waitingInterval := waitingInterval st; killed := killed st |}.
Proof.
  revert st. induction events as [|ev events IH]; intros st Hq.
  - cbn. rewrite app_nil_r. destruct st; reflexivity.
  - cbn [forallb] in Hq. apply andb_prop in Hq as [Hev Hq].
    change (runEvents showSeconds t (ev :: events) st)
      with (runEvents showSeconds t events (handle showSeconds t st ev)).
    rewrite (IH _ Hq).
    destruct ev; try discriminate Hev; cbn [handle stdout stderr settled timeoutId
      waitingInterval killed stdoutOf]; rewrite <- ?app_assoc; reflexivity.
Qed.

(** A settled promise keeps its value through every callback. *)
Lemma handle_keeps_value (t : N) (st : running) (ev : event) (r : ClaudeResponse) :
  settled st = Fulfilled r -> settled (handle showSeconds t st ev) = Fulfilled r.
Proof.
  intros H. destruct ev; cbn [handle settled]; try assumption.
  - destruct (timeoutId st); cbn [settled]; [rewrite H; reflexivity|assumption].
  - rewrite H; reflexivity.
  - rewrite H; reflexivity.
Qed.

Lemma runEvents_keeps_value (t : N) (events : list event) (st : running)
  (r : ClaudeResponse) :
  settled st = Fulfilled r ->
  settled (runEvents showSeconds t events st) = Fulfilled r.
Proof.
  revert st. induction events as [|ev events IH]; intros st H; [exact H|].
  apply IH, handle_keeps_value, H.
Qed.

Lemma handle_wellFormed (t : N) (st : running) (ev : event) :
  wellFormed st -> wellFormed (handle showSeconds t st ev).
Proof.
  intros [Hrej Hpend]. unfold wellFormed.
  destruct ev; cbn [handle settled timeoutId]; try (split; assumption).
  - destruct (timeoutId st) eqn:Ht; cbn [settled timeoutId].
    + destruct (settled st); split; try reflexivity; try assumption; discriminate.
    + split; [assumption|]. intros _. apply Hpend. reflexivity.
  - destruct (settled st); split; try reflexivity; try assumption; discriminate.
  - destruct (settled st); split; try reflexivity; try assumption; discriminate.
Qed.

Lemma runEvents_wellFormed (t : N) (events : list event) (st : running) :
  wellFormed st -> wellFormed (runEvents showSeconds t events st).
Proof.
  revert st. induction events as [|ev events IH]; intros st H; [exact H|].
  apply IH, handle_wellFormed, H.
Qed.

Lemma started_wellFormed : wellFormed started.
Proof. split; [reflexivity|discriminate]. Qed.

(** The state right after the watchdog fired on a running process. *)
Lemma timeout_after_output (t : N) (before : list event) :
  forallb isOutput before = true ->
  settled (runEvents showSeconds t (before ++ [TimeoutDue]) started)
  = Fulfilled (timeoutResponse showSeconds t (stdoutOf before)).
Proof.
  intros Hq. rewrite runEvents_app, (runEvents_output t before started Hq).
  reflexivity.
Qed.

(** C6. If only output has arrived when the watchdog fires, the promise
    is fulfilled with a failure whose content is the standard output
    captured so far and whose error message carries its first 200
    characters, whatever happens afterwards. *)
Theorem execute_timeout_reports_partial_output
  (timeout : option N) (before after : list event) :
  forallb isOutput before = true ->
  exists response,
    execute showSeconds timeout (before ++ TimeoutDue :: after) = Fulfilled response
    /\ success response = false
    /\ content response = stdoutOf before
    /\ error response
       = Some (str "Timeout after " ++ showSeconds (effectiveTimeout timeout)
               ++ str "s. Partial output: " ++ substringTo 200 (stdoutOf before)).
Proof.
  intros Hq.
  exists (timeoutResponse showSeconds (effectiveTimeout timeout) (stdoutOf before)).
  split; [|repeat split].
  unfold execute.
  change (before ++ TimeoutDue :: after) with (before ++ [TimeoutDue] ++ after).
  rewrite app_assoc, runEvents_app.
  apply runEvents_keeps_value, timeout_after_output, Hq.
Qed.

(** What the callbacks guarantee once the executor has returned: they never
    reject; a fulfilled promise keeps its value through every later
    callback; the promise is settled as soon as the watchdog is no longer
    scheduled; and a timeout on a running process fixes the failure response
    even if the process then exits with code 0. *)
Lemma callbacks_settle_once (timeout : option N) (events : list event) :
  isRejected (execute showSeconds timeout events) = false
  /\ (forall response more,
        execute showSeconds timeout events = Fulfilled response ->
        execute showSeconds timeout (events ++ more) = Fulfilled response)
  /\ (timeoutId (runEvents showSeconds (effectiveTimeout timeout) events started) = false ->
      exists response, execute showSeconds timeout events = Fulfilled response)
  /\ (forallb isOutput events = true ->
      forall more,
        execute showSeconds timeout (events ++ TimeoutDue :: Close (Some 0%Z) :: more)
        = Fulfilled (timeoutResponse showSeconds (effectiveTimeout timeout)
                       (stdoutOf events))
        /\ success (timeoutResponse showSeconds (effectiveTimeout timeout)
                      (stdoutOf events)) = false).
Proof.
  unfold execute.
  pose proof (runEvents_wellFormed (effectiveTimeout timeout) events started
                started_wellFormed) as [Hrej Hpend].
  split; [exact Hrej|]. split; [|split].
  - intros response more H. rewrite runEvents_app.
    apply runEvents_keeps_value, H.
  - intros Hid. specialize (Hpend Hid).
    destruct (settled (runEvents showSeconds (effectiveTimeout timeout) events started))
      as [|response|reason]; try discriminate.
    exists response. reflexivity.
  - intros Hq more. split; [|reflexivity].
    change (events ++ TimeoutDue :: Close (Some 0%Z) :: more)
      with (events ++ [TimeoutDue] ++ Close (Some 0%Z) :: more).
    rewrite app_assoc, runEvents_app.
    apply runEvents_keeps_value, timeout_after_output, Hq.
Qed.

(** C10. The promise of [execute] is rejected exactly when the executor
    itself throws (in [spawn], or when writing the prompt to the standard
    input); it is then rejected whatever happens later. When the executor
    returns, the promise is never rejected; once fulfilled it keeps its value
    through every later callback; it is settled as soon as the watchdog is no
    longer scheduled; and a timeout on a running process fixes the failure
    response even if the process then exits with code 0. *)
Theorem execute_settles_once (l : launch) (timeout : option N) (events : list event) :
  (isRejected (executeCall showSeconds l timeout events) = true
   <-> exists reason, l = ExecutorThrows reason)
  /\ (forall reason more,
        l = ExecutorThrows reason ->
        executeCall showSeconds l timeout (events ++ more) = Rejected reason)
  /\ (forall response more,
        executeCall showSeconds l timeout events = Fulfilled response ->
        executeCall showSeconds l timeout (events ++ more) = Fulfilled response)
  /\ (timeoutId (runEvents showSeconds (effectiveTimeout timeout) events started) = false ->
      exists response,
        executeCall showSeconds Launched timeout events = Fulfilled response)
  /\ (forallb isOutput events = true ->
      forall more,
        executeCall showSeconds Launched timeout
          (events ++ TimeoutDue :: Close (Some 0%Z) :: more)
        = Fulfilled (timeoutResponse showSeconds (effectiveTimeout timeout)
                       (stdoutOf events))
        /\ success (timeoutResponse showSeconds (effectiveTimeout timeout)
                      (stdoutOf events)) = false).
Proof.
  destruct (callbacks_settle_once timeout events) as (Hrej & Hkeep & Hid & Hlate).
  split; [|split; [|split; [|split]]].
  - destruct l as [reason|]; cbn [executeCall].
    + split; [intros _; exists reason; reflexivity|reflexivity].
    + rewrite Hrej. split; [discriminate|intros [reason H]; discriminate].
  - intros reason more ->. reflexivity.
  - destruct l as [reason|]; cbn [executeCall]; [discriminate|exact Hkeep].
  - exact Hid.
  - exact Hlate.
Qed.

End ExecuteFacts.

(** The promise is rejected when [spawn] throws, and no callback can
    fulfil it. *)
Lemma execute_rejects_when_executor_throws :
  ClaudeCodeService.executeCall secondsText
    (ClaudeCodeService.ExecutorThrows (str "spawn E2BIG")) None
    [ClaudeCodeService.StdoutData (str "late"); ClaudeCodeService.Close (Some 0%Z)]
  = ClaudeCodeService.Rejected (str "spawn E2BIG")
  /\ isRejected
       (ClaudeCodeService.executeCall secondsText
          (ClaudeCodeService.ExecutorThrows (str "spawn E2BIG")) None
          [ClaudeCodeService.StdoutData (str "late");
           ClaudeCodeService.Close (Some 0%Z)]) = true.
Proof. split; reflexivity. Qed.

(** C6 on a concrete run: two chunks of output, the timeout after 90
    seconds, and the exit of the killed process. *)
Lemma execute_timeout_reports_partial_output_witness :
  forallb isOutput
    [ClaudeCodeService.StdoutData (str "You are"); ClaudeCodeService.WaitingTick;
     ClaudeCodeService.StdoutData (str " the")] = true
  /\ exists response,
       ClaudeCodeService.execute secondsText (Some 90000%N)
         ([ClaudeCodeService.StdoutData (str "You are"); ClaudeCodeService.WaitingTick;
           ClaudeCodeService.StdoutData (str " the")]
          ++ ClaudeCodeService.TimeoutDue
             :: [ClaudeCodeService.Close None])
       = ClaudeCodeService.Fulfilled response
       /\ ClaudeCodeService.success response = false
       /\ ClaudeCodeService.content response = str "You are the"
       /\ ClaudeCodeService.error response
          = Some (str "Timeout after 90s. Partial output: You are the").
Proof.
  split; [reflexivity|].
  exact (execute_timeout_reports_partial_output secondsText (Some 90000%N)
           [ClaudeCodeService.StdoutData (str "You are"); ClaudeCodeService.WaitingTick;
            ClaudeCodeService.StdoutData (str " the")]
           [ClaudeCodeService.Close None] eq_refl).
Defined.

(** ** The scan: depth and skipped directories *)

Section ScanFacts.

Import AutoContextService.

(** The recursive call on a sub-directory is [findMarkdownFiles] one level
    down. *)
Lemma visitEntry_directory (depth : nat) (dir : list jsstring) (name : jsstring)
  (sub : listing node) (files : list MarkdownFile) :
  visitEntry depth dir (DirNode name sub) files
  = if entered name
    then findMarkdownFiles (dir ++ [name]) sub files (S depth)
    else Some files.
Proof.
  unfold entered, findMarkdownFiles. cbn [visitEntry].
  destruct (negb (listIncludes skipDirs name) && negb (startsWith (str ".") name));
    [|reflexivity].
  destruct (Nat.ltb MAX_DEPTH (S depth)); [reflexivity|].
  destruct sub as [| |entries]; try reflexivity.
  revert files. induction entries as [|e es IH]; intros files; [reflexivity|].
  cbn [visitEntries].
  destruct (visitEntry (S depth) (dir ++ [name]) e files); [apply IH|reflexivity].
Qed.

Lemma entered_spec (name : jsstring) :
  entered name = true ->
  listIncludes skipDirs name = false /\ startsWith (str ".") name = false.
Proof.
  unfold entered. intros H. apply andb_prop in H as [H1 H2].
  split; apply negb_true_iff; assumption.
Qed.

(** One entry keeps the invariant: the files collected so far are well
    placed, and the directory being listed is within the depth and reached
    through entered directories only. *)
Lemma visitEntry_wellPlaced (e : node) :
  forall depth dir files files',
    length dir = depth -> depth <= MAX_DEPTH ->
    Forall (fun d => listIncludes skipDirs d = false
                     /\ startsWith (str ".") d = false) dir ->
    Forall wellPlaced files ->
    visitEntry depth dir e files = Some files' ->
    Forall wellPlaced files'.
Proof.
  induction e as [name text|name|name|name entries IH] using node_tree_ind;
    intros depth dir files files' Hlen Hdepth Hdir Hfiles.
  - cbn [visitEntry]. destruct (endsWith (str ".md") name);
      [|intros [= <-]; exact Hfiles].
    destruct text as [content|]; intros [= <-]; [|exact Hfiles].
    apply Forall_app. split; [exact Hfiles|]. constructor; [|constructor].
    unfold wellPlaced, directoriesOf, markdownFile; cbn [path].
    rewrite removelast_last. split; [lia|exact Hdir].
  - rewrite visitEntry_directory. unfold findMarkdownFiles.
    destruct (entered name), (Nat.ltb MAX_DEPTH (S depth));
      intros [= <-]; exact Hfiles.
  - rewrite visitEntry_directory. unfold findMarkdownFiles.
    destruct (entered name), (Nat.ltb MAX_DEPTH (S depth));
      intros E; try discriminate E; injection E as <-; exact Hfiles.
  - rewrite visitEntry_directory. unfold findMarkdownFiles.
    destruct (entered name) eqn:Hent; [|intros [= <-]; exact Hfiles].
    destruct (Nat.ltb_spec MAX_DEPTH (S depth)) as [Hdeep|Hok];
      [intros [= <-]; exact Hfiles|].
    assert (Hdir' : Forall (fun d => listIncludes skipDirs d = false
                                     /\ startsWith (str ".") d = false)
                      (dir ++ [name])).
    { apply Forall_app. split; [exact Hdir|].
      constructor; [apply entered_spec, Hent|constructor]. }
    assert (Hlen' : length (dir ++ [name]) = S depth).
    { rewrite length_app. cbn [length]. lia. }
    clear Hent Hdir. revert files Hfiles.
    induction IH as [|e es He _ IHes]; intros files Hfiles; cbn [visitEntries].
    + intros [= <-]. exact Hfiles.
    + destruct (visitEntry (S depth) (dir ++ [name]) e files) as [mid|] eqn:E;
        [|discriminate].
      apply IHes. exact (He _ _ _ _ Hlen' Hok Hdir' Hfiles E).
Qed.

Lemma findMarkdownFiles_wellPlaced (d : listing node) :
  forall depth dir files files',
    length dir = depth ->
    Forall (fun n => listIncludes skipDirs n = false
                     /\ startsWith (str ".") n = false) dir ->
    Forall wellPlaced files ->
    findMarkdownFiles dir d files depth = Some files' ->
    Forall wellPlaced files'.
Proof.
  intros depth dir files files' Hlen Hdir Hfiles. unfold findMarkdownFiles.
  destruct (Nat.ltb_spec MAX_DEPTH depth) as [Hdeep|Hok];
    [intros [= <-]; exact Hfiles|].
  destruct d as [| |entries];
    [intros [= <-]; exact Hfiles | discriminate |].
  revert files Hfiles. induction entries as [|e es IH]; intros files Hfiles;
    cbn [visitEntries].
  - intros [= <-]. exact Hfiles.
  - destruct (visitEntry depth dir e files) as [mid|] eqn:E; [|discriminate].
    apply IH. exact (visitEntry_wellPlaced e depth dir files mid Hlen Hok Hdir Hfiles E).
Qed.

(** The scan completes when every directory it may meet can be listed. *)
Lemma visitEntry_returns (e : node) :
  listable e = true ->
  forall depth dir files, exists files', visitEntry depth dir e files = Some files'.
Proof.
  induction e as [name text|name|name|name entries IH] using node_tree_ind;
    intros Hl depth dir files.
  - cbn [visitEntry]. destruct (endsWith (str ".md") name), text; eexists; reflexivity.
  - rewrite visitEntry_directory. unfold findMarkdownFiles.
    destruct (entered name), (Nat.ltb MAX_DEPTH (S depth)); eexists; reflexivity.
  - discriminate Hl.
  - rewrite visitEntry_directory. unfold findMarkdownFiles.
    destruct (entered name); [|eexists; reflexivity].
    destruct (Nat.ltb MAX_DEPTH (S depth)); [eexists; reflexivity|].
    cbn [listable] in Hl. revert files.
    induction IH as [|e es He _ IHes]; intros files; cbn [visitEntries].
    + eexists; reflexivity.
    + cbn [forallb] in Hl. apply andb_prop in Hl as [Hle Hles].
      destruct (He Hle (S depth) (dir ++ [name]) files) as [mid ->].
      apply IHes, Hles.
Qed.

Lemma scanMarkdownFiles_returns (entries : list node) :
  forallb listable entries = true ->
  exists files, scanMarkdownFiles (Entries entries) = Some files.
Proof.
  unfold scanMarkdownFiles, findMarkdownFiles. cbn [Nat.ltb Nat.leb MAX_DEPTH].
  generalize (@nil MarkdownFile) as files.
  induction entries as [|e es IH]; intros files Hl; cbn [visitEntries].
  - eexists; reflexivity.
  - cbn [forallb] in Hl. apply andb_prop in Hl as [Hle Hles].
    destruct (visitEntry_returns e Hle 0 [] files) as [mid ->]. apply IH, Hles.
Qed.

(** C7. Every file a completed scan returns lies in a directory at most
    [MAX_DEPTH] levels below the scan root, and none of the directories on
    the way to it is on the skip list or begins with a dot. *)
Theorem scan_respects_depth_and_skip_list (root : listing node)
  (files : list MarkdownFile) (f : MarkdownFile) :
  scanMarkdownFiles root = Some files ->
  In f files ->
  length (directoriesOf f) <= MAX_DEPTH
  /\ Forall (fun d => listIncludes skipDirs d = false
                      /\ startsWith (str ".") d = false) (directoriesOf f).
Proof.
  intros Hscan Hin.
  assert (H : Forall wellPlaced files).
  { apply (findMarkdownFiles_wellPlaced root 0 [] [] files eq_refl
             (Forall_nil _) (Forall_nil _) Hscan). }
  rewrite Forall_forall in H. exact (H f Hin).
Qed.

Example sampleTree_scan :
  option_map (map (fun f => path f)) (scanMarkdownFiles sampleTree)
  = Some [[str "README.md"]; [str "docs"; str "guide.md"];
          [str "d1"; str "l1.md"]; [str "d1"; str "d2"; str "l2.md"];
          [str "d1"; str "d2"; str "d3"; str "l3.md"];
          [str "d1"; str "d2"; str "d3"; str "d4"; str "l4.md"];
          [str "d1"; str "d2"; str "d3"; str "d4"; str "d5"; str "l5.md"]].
Proof. vm_compute. reflexivity. Qed.

(** C7 on the sample tree, for the deepest file the scan returns. *)
Lemma scan_respects_depth_and_skip_list_witness :
  exists files f,
    scanMarkdownFiles sampleTree = Some files
    /\ In f files
    /\ path f = [str "d1"; str "d2"; str "d3"; str "d4"; str "d5"; str "l5.md"]
    /\ length (directoriesOf f) <= MAX_DEPTH
    /\ Forall (fun d => listIncludes skipDirs d = false
                        /\ startsWith (str ".") d = false) (directoriesOf f).
Proof.
  destruct (scanMarkdownFiles sampleTree) as [files|] eqn:E;
    [|vm_compute in E; discriminate E].
  exists files.
  exists (markdownFile (str "l5.md")
            [str "d1"; str "d2"; str "d3"; str "d4"; str "d5"; str "l5.md"]
            (unlines [str "# Page"; str ""; str "Text."])).
  assert (Hin : In (markdownFile (str "l5.md")
                      [str "d1"; str "d2"; str "d3"; str "d4"; str "d5"; str "l5.md"]
                      (unlines [str "# Page"; str ""; str "Text."])) files).
  { vm_compute in E. injection E as <-. do 6 right. left. reflexivity. }
  split; [reflexivity|]. split; [exact Hin|]. split; [reflexivity|].
  exact (scan_respects_depth_and_skip_list sampleTree files _ E Hin).
Defined.

End ScanFacts.

(** ** The frontmatter normalizer *)

Section FrontmatterFacts.

Import AutoContextService.

(** *** Prefixes *)

Lemma startsWith_app (p s : jsstring) : startsWith p (p ++ s) = true.
Proof.
  induction p as [|c p IH]; [reflexivity|].
  cbn [startsWith app]. rewrite N.eqb_refl. exact IH.
Qed.

Lemma startsWith_true (p s : jsstring) :
  startsWith p s = true -> s = p ++ skipn (length p) s.
Proof.
  revert s. induction p as [|c p IH]; intros s H; [reflexivity|].
  destruct s as [|d s]; [discriminate|].
  cbn [startsWith] in H. apply andb_prop in H as [Hc Hp].
  apply N.eqb_eq in Hc. subst d. cbn [length skipn app]. f_equal. apply IH, Hp.
Qed.

Lemma startsWith_app_r (p a x : jsstring) :
  startsWith p a = true -> startsWith p (a ++ x) = true.
Proof.
  intros H. rewrite (startsWith_true p a H), <- app_assoc. apply startsWith_app.
Qed.

(** A prefix that avoids a unit cannot reach across it. *)
Lemma startsWith_before (c : char) (p a x : jsstring) :
  ~ In c p -> startsWith p (a ++ c :: x) = startsWith p a.
Proof.
  revert a. induction p as [|d p IH]; intros a Hc; [reflexivity|].
  destruct a as [|e a]; cbn [startsWith app].
  - destruct (N.eqb_spec d c) as [->|_]; [|reflexivity].
    exfalso. apply Hc. left. reflexivity.
  - rewrite IH; [reflexivity|]. intros Hin. apply Hc. right. exact Hin.
Qed.

Lemma startsWith_head (a b : char) (p q s : jsstring) :
  startsWith (a :: p) s = true -> startsWith (b :: q) s = true -> a = b.
Proof.
  destruct s as [|c s]; [discriminate|]. cbn [startsWith].
  intros Ha Hb. apply andb_prop in Ha as [Ha _], Hb as [Hb _].
  apply N.eqb_eq in Ha, Hb. congruence.
Qed.

(** *** Lines *)

Lemma split_not_nil (sep : char) (s : jsstring) : split sep s <> [].
Proof.
  destruct s as [|c s]; cbn [split]; [discriminate|].
  destruct (N.eqb c sep); [discriminate|].
  destruct (split sep s); discriminate.
Qed.

Lemma join_cons_head (sep : jsstring) (c : char) (l : jsstring) (ls : list jsstring) :
  join sep ((c :: l) :: ls) = c :: join sep (l :: ls).
Proof. destruct ls; reflexivity. Qed.

Lemma join_split (sep : char) (s : jsstring) : join [sep] (split sep s) = s.
Proof.
  induction s as [|c s IH]; [reflexivity|]. cbn [split].
  destruct (N.eqb_spec c sep) as [->|Hne].
  - pose proof (split_not_nil sep s) as Hnil.
    destruct (split sep s) as [|l ls]; [contradiction|].
    change (join [sep] ([] :: l :: ls)) with (sep :: join [sep] (l :: ls)).
    rewrite IH. reflexivity.
  - pose proof (split_not_nil sep s) as Hnil.
    destruct (split sep s) as [|l ls]; [contradiction|].
    rewrite join_cons_head, IH. reflexivity.
Qed.

Lemma split_app_sep (sep : char) (l s : jsstring) :
  ~ In sep l -> split sep (l ++ sep :: s) = l :: split sep s.
Proof.
  induction l as [|c l IH]; intros Hl.
  - cbn [app split]. rewrite N.eqb_refl. reflexivity.
  - cbn [app split]. destruct (N.eqb_spec c sep) as [->|_].
    + exfalso. apply Hl. left. reflexivity.
    + rewrite IH; [reflexivity|]. intros Hin. apply Hl. right. exact Hin.
Qed.

Lemma split_without_sep (sep : char) (l : jsstring) :
  ~ In sep l -> split sep l = [l].
Proof.
  induction l as [|c l IH]; intros Hl; [reflexivity|].
  cbn [split]. destruct (N.eqb_spec c sep) as [->|_].
  - exfalso. apply Hl. left. reflexivity.
  - rewrite IH; [reflexivity|]. intros Hin. apply Hl. right. exact Hin.
Qed.

Lemma split_join (sep : char) (ls : list jsstring) :
  ls <> [] -> Forall (fun l => ~ In sep l) ls -> split sep (join [sep] ls) = ls.
Proof.
  induction ls as [|l ls IH]; intros Hnil Hall; [contradiction|].
  inversion Hall as [|? ? Hl Hls]; subst.
  destruct ls as [|l2 ls].
  - cbn [join]. apply split_without_sep, Hl.
  - change (join [sep] (l :: l2 :: ls)) with (l ++ sep :: join [sep] (l2 :: ls)).
    rewrite split_app_sep by exact Hl. f_equal. apply IH; [discriminate|exact Hls].
Qed.

Lemma split_lines_without_sep (sep : char) (s : jsstring) :
  Forall (fun l => ~ In sep l) (split sep s).
Proof.
  induction s as [|c s IH]; cbn [split].
  - constructor; [intros []|constructor].
  - destruct (N.eqb_spec c sep) as [->|Hne].
    + constructor; [intros []|exact IH].
    + destruct (split sep s) as [|l ls]; [constructor; [|constructor]|].
      * intros [H|[]]. apply Hne. exact H.
      * inversion IH as [|? ? Hl Hls]; subst. constructor; [|exact Hls].
        intros [H|H]; [apply Hne; exact H|exact (Hl H)].
Qed.

Lemma in_join (sep : jsstring) (ls : list jsstring) (l : jsstring) (c : char) :
  In l ls -> In c l -> In c (join sep ls).
Proof.
  induction ls as [|l0 ls IH]; intros Hl Hc; [contradiction|].
  destruct ls as [|l1 ls].
  - destruct Hl as [->|[]]. exact Hc.
  - change (join sep (l0 :: l1 :: ls)) with (l0 ++ sep ++ join sep (l1 :: ls)).
    rewrite !in_app_iff. destruct Hl as [->|Hl]; [left; exact Hc|].
    right. right. apply IH; assumption.
Qed.

Lemma in_split_line (sep : char) (s l : jsstring) (c : char) :
  In l (split sep s) -> In c l -> In c s.
Proof.
  intros Hl Hc. rewrite <- (join_split sep s). exact (in_join [sep] _ l c Hl Hc).
Qed.

(** *** The header block *)

Lemma lazyUntilClose_unfold (s : jsstring) :
  lazyUntilClose s
  = if startsWith CLOSE s then Some ([], skipn 4 s)
    else match s with
         | [] => None
         | c :: s' =>
             match lazyUntilClose s' with
             | Some (g, rest) => Some (c :: g, rest)
             | None => None
             end
         end.
Proof. destruct s; reflexivity. Qed.

(** Inside a line the lazy group simply advances. *)
Lemma lazyUntilClose_line (l s : jsstring) :
  ~ In LF l ->
  lazyUntilClose (l ++ s)
  = match lazyUntilClose s with
    | Some (g, rest) => Some (l ++ g, rest)
    | None => None
    end.
Proof.
  induction l as [|c l IH]; intros Hl.
  - cbn [app]. destruct (lazyUntilClose s) as [[g rest]|]; reflexivity.
  - cbn [app]. rewrite lazyUntilClose_unfold.
    assert (Hc : startsWith CLOSE (c :: l ++ s) = false).
    { unfold CLOSE. cbn [startsWith]. destruct (N.eqb_spec LF c) as [<-|_];
        [|reflexivity]. exfalso. apply Hl. left. reflexivity. }
    rewrite Hc, IH by (intros Hin; apply Hl; right; exact Hin).
    destruct (lazyUntilClose s) as [[g rest]|]; reflexivity.
Qed.

Lemma dashes_without_LF : ~ In LF DASHES.
Proof. cbv. intros [H|[H|[H|[]]]]; discriminate H. Qed.

(** The text of several lines continues with a line feed when something
    that begins with one follows. *)
Lemma unlines_then_LF (l : jsstring) (ls : list jsstring) (x : jsstring) :
  exists z, unlines (l :: ls) ++ LF :: x = l ++ LF :: z.
Proof.
  destruct ls as [|l2 ls].
  - exists x. reflexivity.
  - exists (unlines (l2 :: ls) ++ LF :: x).
    change (unlines (l :: l2 :: ls)) with (l ++ [LF] ++ unlines (l2 :: ls)).
    rewrite <- !app_assoc. reflexivity.
Qed.

(** Lines without line feeds, none but possibly the first beginning with
    three hyphens, are found again as the header block. *)
Lemma lazyUntilClose_complete (ls : list jsstring) (rest : jsstring) :
  ls <> [] ->
  Forall (fun l => ~ In LF l) ls ->
  Forall (fun l => startsWith DASHES l = false) (tl ls) ->
  lazyUntilClose (unlines ls ++ CLOSE ++ rest) = Some (unlines ls, rest).
Proof.
  induction ls as [|l ls IH]; intros Hnil Hlf Hdash; [contradiction|].
  inversion Hlf as [|? ? Hl Hls]; subst.
  destruct ls as [|l2 ls].
  - cbn [unlines join]. rewrite lazyUntilClose_line by exact Hl.
    rewrite lazyUntilClose_unfold.
    change (startsWith CLOSE (CLOSE ++ rest)) with true. cbn match.
    change (skipn 4 (CLOSE ++ rest)) with rest. rewrite app_nil_r. reflexivity.
  - change (unlines (l :: l2 :: ls)) with (l ++ [LF] ++ unlines (l2 :: ls)).
    rewrite <- !app_assoc. rewrite lazyUntilClose_line by exact Hl.
    cbn [app]. rewrite lazyUntilClose_unfold.
    cbn [tl] in Hdash. inversion Hdash as [|? ? Hd2 Hdls]; subst.
    assert (Hc : startsWith CLOSE (LF :: unlines (l2 :: ls) ++ CLOSE ++ rest) = false).
    { unfold CLOSE at 1. cbn [startsWith]. rewrite N.eqb_refl. cbn [andb].
      destruct (unlines_then_LF l2 ls (DASHES ++ rest)) as [z Hz].
      change (CLOSE ++ rest) with (LF :: DASHES ++ rest). rewrite Hz.
      fold DASHES. rewrite startsWith_before by exact dashes_without_LF. exact Hd2. }
    rewrite Hc. rewrite IH; [reflexivity|discriminate|exact Hls|exact Hdls].
Qed.

(** What the lazy group found: the text splits as group, closing
    delimiter and rest, and no line of the group after the first begins
    with three hyphens. *)
Lemma lazyUntilClose_sound (s g rest : jsstring) :
  lazyUntilClose s = Some (g, rest) ->
  s = g ++ CLOSE ++ rest
  /\ Forall (fun l => startsWith DASHES l = false) (tl (split LF g)).
Proof.
  revert g. induction s as [|c s IH]; intros g.
  - cbn. discriminate.
  - rewrite lazyUntilClose_unfold.
    destruct (startsWith CLOSE (c :: s)) eqn:Hc.
    + intros [= <- <-]. split; [|constructor].
      cbn [app]. exact (startsWith_true CLOSE (c :: s) Hc).
    + destruct (lazyUntilClose s) as [[g' rest']|] eqn:E; [|discriminate].
      intros [= <- <-]. destruct (IH g' eq_refl) as [Hs Hlines]. split.
      * cbn [app]. f_equal. exact Hs.
      * cbn [split]. destruct (N.eqb_spec c LF) as [->|Hne].
        -- cbn [tl]. pose proof (split_not_nil LF g') as Hnil.
           pose proof (join_split LF g') as Hjoin.
           destruct (split LF g') as [|l0 ls]; [contradiction|].
           constructor; [|exact Hlines].
           destruct (startsWith DASHES l0) eqn:Hd; [|reflexivity].
           exfalso. unfold CLOSE in Hc. cbn [startsWith] in Hc.
           rewrite N.eqb_refl in Hc. cbn [andb] in Hc. fold DASHES in Hc.
           assert (Hs' : exists z, s = l0 ++ z).
           { rewrite Hs, <- Hjoin. destruct ls as [|l1 ls].
             - exists (CLOSE ++ rest'). reflexivity.
             - exists ([LF] ++ join [LF] (l1 :: ls) ++ CLOSE ++ rest').
               change (join [LF] (l0 :: l1 :: ls))
                 with (l0 ++ [LF] ++ join [LF] (l1 :: ls)).
               rewrite <- !app_assoc. reflexivity. }
           destruct Hs' as [z Hz]. rewrite Hz, (startsWith_app_r _ _ z Hd) in Hc.
           discriminate Hc.
        -- destruct (split LF g') as [|l0 ls]; [constructor|exact Hlines].
Qed.

Lemma matchFrontmatter_sound (content g rest : jsstring) :
  matchFrontmatter content = Some (g, rest) ->
  content = OPEN ++ g ++ CLOSE ++ rest
  /\ Forall (fun l => startsWith DASHES l = false) (tl (split LF g)).
Proof.
  unfold matchFrontmatter. destruct (startsWith OPEN content) eqn:Ho; [|discriminate].
  intros H. apply lazyUntilClose_sound in H as [Hs Hl]. split; [|exact Hl].
  rewrite (startsWith_true OPEN content Ho). f_equal. exact Hs.
Qed.

Lemma matchFrontmatter_complete (ls : list jsstring) (rest : jsstring) :
  ls <> [] ->
  Forall (fun l => ~ In LF l) ls ->
  Forall (fun l => startsWith DASHES l = false) (tl ls) ->
  matchFrontmatter (OPEN ++ unlines ls ++ CLOSE ++ rest) = Some (unlines ls, rest).
Proof.
  intros Hnil Hlf Hdash. unfold matchFrontmatter.
  rewrite startsWith_app. change (skipn 4 (OPEN ++ ?x)) with x.
  apply lazyUntilClose_complete; assumption.
Qed.

(** A text with an opening delimiter has a first line of three hyphens. *)
Lemma matchFrontmatter_none (content : jsstring) :
  ~ In DASHES (split LF content) -> matchFrontmatter content = None.
Proof.
  intros Hno. unfold matchFrontmatter.
  destruct (startsWith OPEN content) eqn:Ho; [|reflexivity].
  exfalso. apply Hno. rewrite (startsWith_true OPEN content Ho).
  change (OPEN ++ ?x) with (DASHES ++ LF :: x).
  rewrite split_app_sep by exact dashes_without_LF. left. reflexivity.
Qed.

(** C4. A text without a delimiter line, normalized under the base name
    [reviewer], is the synthesized header block, an empty line, and the
    text itself; the header block of the result holds the three lines. *)
Theorem fixFrontmatterFormat_synthesizes_header (content : jsstring) :
  ~ In (str "---") (split LF content) ->
  fixFrontmatterFormat content (str "reviewer")
  = reviewerHeader ++ [LF; LF] ++ content
  /\ headerLines (fixFrontmatterFormat content (str "reviewer"))
     = Some [str "name: reviewer"; str "description: Agent for reviewer";
             str "model: sonnet"].
Proof.
  intros Hno. unfold fixFrontmatterFormat.
  rewrite (matchFrontmatter_none content Hno).
  split; [reflexivity|].
  change (newFrontmatter (str "reviewer") ++ content)
    with (OPEN ++ unlines [str "name: reviewer"; str "description: Agent for reviewer";
                           str "model: sonnet"] ++ CLOSE ++ [LF; LF] ++ content).
  unfold headerLines. rewrite matchFrontmatter_complete.
  - reflexivity.
  - discriminate.
  - repeat constructor; cbv; intuition discriminate.
  - repeat constructor.
Qed.

(** C4 on a two-line prompt. *)
Lemma fixFrontmatterFormat_synthesizes_header_witness :
  ~ In (str "---") (split LF (unlines [str "You review code."; str "Be brief."]))
  /\ fixFrontmatterFormat (unlines [str "You review code."; str "Be brief."])
       (str "reviewer")
     = unlines [str "---"; str "name: reviewer";
                str "description: Agent for reviewer"; str "model: sonnet";
                str "---"; str ""; str "You review code."; str "Be brief."].
Proof.
  assert (H : ~ In (str "---")
                (split LF (unlines [str "You review code."; str "Be brief."]))).
  { cbv. intros [H|[H|[]]]; discriminate H. }
  split; [exact H|].
  exact (proj1 (fixFrontmatterFormat_synthesizes_header _ H)).
Defined.

(** *** Runs of a character class *)

Lemma takeWhile_dropWhile (p : char -> bool) (s : jsstring) :
  takeWhile p s ++ dropWhile p s = s.
Proof.
  induction s as [|c s IH]; [reflexivity|].
  cbn [takeWhile dropWhile]. destruct (p c); [|reflexivity].
  cbn [app]. f_equal. exact IH.
Qed.

Lemma takeWhile_all (p : char -> bool) (s : jsstring) :
  forallb p (takeWhile p s) = true.
Proof.
  induction s as [|c s IH]; [reflexivity|].
  cbn [takeWhile]. destruct (p c) eqn:Hc; [|reflexivity].
  cbn [forallb]. rewrite Hc. exact IH.
Qed.

Lemma dropWhile_stops (p : char -> bool) (s : jsstring) : stops p (dropWhile p s).
Proof.
  induction s as [|c s IH]; [exact I|].
  cbn [dropWhile]. destruct (p c) eqn:Hc; [exact IH|exact Hc].
Qed.

Lemma takeWhile_app (p : char -> bool) (a b : jsstring) :
  forallb p a = true -> stops p b -> takeWhile p (a ++ b) = a.
Proof.
  induction a as [|c a IH]; intros Ha Hb.
  - destruct b as [|d b]; [reflexivity|]. cbn in Hb |- *. rewrite Hb. reflexivity.
  - cbn [forallb] in Ha. apply andb_prop in Ha as [Hc Ha].
    cbn [app takeWhile]. rewrite Hc, IH by assumption. reflexivity.
Qed.

Lemma dropWhile_app (p : char -> bool) (a b : jsstring) :
  forallb p a = true -> stops p b -> dropWhile p (a ++ b) = b.
Proof.
  induction a as [|c a IH]; intros Ha Hb.
  - destruct b as [|d b]; [reflexivity|]. cbn in Hb |- *. rewrite Hb. reflexivity.
  - cbn [forallb] in Ha. apply andb_prop in Ha as [Hc Ha].
    cbn [app dropWhile]. rewrite Hc. apply IH; assumption.
Qed.

Lemma dropWhile_length (p : char -> bool) (s : jsstring) :
  length (dropWhile p s) <= length s.
Proof.
  induction s as [|c s IH]; [reflexivity|].
  cbn [dropWhile]. destruct (p c); cbn [length]; lia.
Qed.

Lemma trim_length (s : jsstring) : length (trim s) <= length s.
Proof.
  unfold trim, trimEnd, trimStart. rewrite length_rev.
  pose proof (dropWhile_length isSpace (rev (dropWhile isSpace s))) as H1.
  pose proof (dropWhile_length isSpace s) as H2.
  rewrite length_rev in H1. lia.
Qed.

(** A text that [trim] leaves alone does not begin with white space. *)
Lemma trim_fixed_stops (s : jsstring) : trim s = s -> stops isSpace s.
Proof.
  destruct s as [|c s]; [intros _; exact I|]. intros H. cbn [stops].
  destruct (isSpace c) eqn:Hc; [|reflexivity]. exfalso.
  assert (Hlen : length (trim (c :: s)) <= length s).
  { unfold trim, trimEnd, trimStart. rewrite length_rev. cbn [dropWhile].
    rewrite Hc.
    pose proof (dropWhile_length isSpace (rev (dropWhile isSpace s))) as H1.
    pose proof (dropWhile_length isSpace s) as H2.
    rewrite length_rev in H1. lia. }
  rewrite H in Hlen. cbn [length] in Hlen. lia.
Qed.

Lemma streq_eq (a b : jsstring) : streq a b = true <-> a = b.
Proof.
  revert b. induction a as [|x a IH]; intros [|y b]; cbn [streq];
    try (split; [discriminate|discriminate]); [split; reflexivity|].
  rewrite andb_true_iff, N.eqb_eq, IH. split.
  - intros [-> ->]. reflexivity.
  - intros [= -> ->]. split; reflexivity.
Qed.

(** *** Character classes *)

Lemma fieldChar_not_space (c : char) : isFieldChar c = true -> isSpace c = false.
Proof.
  unfold isFieldChar, isSpace, DASH. intros H. by_ranges.
Qed.

Lemma fieldChar_not_colon (c : char) : isFieldChar c = true -> N.eqb c COLON = false.
Proof.
  intros H. apply N.eqb_neq. intros ->. discriminate H.
Qed.

Lemma quote_not_space (c : char) : isQuote c = true -> isSpace c = false.
Proof.
  unfold isQuote, isSpace, DQUOTE, SQUOTE. intros H. by_ranges.
Qed.

(** *** Key tests *)

Lemma startsWith_key (k field x : jsstring) :
  forallb isFieldChar k = true -> forallb isFieldChar field = true ->
  startsWith (k ++ [COLON]) (field ++ COLON :: x) = streq k field.
Proof.
  revert field. induction k as [|a k IH]; intros [|f field] Hk Hf;
    cbn [app startsWith streq forallb] in *.
  - reflexivity.
  - apply andb_prop in Hf as [Hf _]. apply fieldChar_not_colon in Hf.
    rewrite N.eqb_sym, Hf. reflexivity.
  - apply andb_prop in Hk as [Hk _]. apply fieldChar_not_colon in Hk.
    rewrite Hk. reflexivity.
  - apply andb_prop in Hk as [_ Hk], Hf as [_ Hf]. rewrite IH by assumption.
    reflexivity.
Qed.

(** On a line that begins with an indented field and a colon, a key test
    compares the key with the field. *)
Lemma hasKey_field (k indent field x : jsstring) :
  forallb isFieldChar k = true ->
  forallb isSpace indent = true ->
  forallb isFieldChar field = true -> field <> [] ->
  hasKey k (indent ++ field ++ COLON :: x) = streq k field.
Proof.
  intros Hk Hi Hf Hne. unfold hasKey. rewrite dropWhile_app.
  - apply startsWith_key; assumption.
  - exact Hi.
  - destruct field as [|f field]; [contradiction|]. cbn [app stops].
    cbn [forallb] in Hf. apply andb_prop in Hf as [Hf _].
    apply fieldChar_not_space, Hf.
Qed.

(** *** The quoted-value pattern *)

Lemma matchQuoted_spec (l indent field value : jsstring) :
  matchQuoted l = Some (indent, field, value) ->
  exists ws q q2 trailing,
    l = indent ++ field ++ COLON :: ws ++ q :: value ++ q2 :: trailing
    /\ forallb isSpace indent = true
    /\ forallb isFieldChar field = true /\ field <> []
    /\ forallb notQuote value = true /\ value <> [].
Proof.
  unfold matchQuoted.
  pose proof (takeWhile_dropWhile isSpace l) as E1.
  pose proof (takeWhile_all isSpace l) as A1.
  remember (takeWhile isSpace l) as ind eqn:Hind.
  remember (dropWhile isSpace l) as r1 eqn:Hr1.
  pose proof (takeWhile_dropWhile isFieldChar r1) as E2.
  pose proof (takeWhile_all isFieldChar r1) as A2.
  remember (takeWhile isFieldChar r1) as fld eqn:Hfld.
  remember (dropWhile isFieldChar r1) as r2 eqn:Hr2.
  destruct fld as [|f0 fld]; [discriminate|].
  destruct r2 as [|c afterColon]; [discriminate|].
  destruct (N.eqb_spec c COLON) as [->|]; [|discriminate].
  pose proof (takeWhile_dropWhile isSpace afterColon) as E3.
  remember (takeWhile isSpace afterColon) as ws eqn:Hws.
  remember (dropWhile isSpace afterColon) as r3 eqn:Hr3.
  destruct r3 as [|q afterQuote]; [discriminate|].
  destruct (isQuote q); [|discriminate].
  pose proof (takeWhile_dropWhile notQuote afterQuote) as E4.
  pose proof (takeWhile_all notQuote afterQuote) as A4.
  remember (takeWhile notQuote afterQuote) as val eqn:Hval.
  remember (dropWhile notQuote afterQuote) as r4 eqn:Hr4.
  destruct val as [|v0 val]; [discriminate|].
  destruct r4 as [|q2 trailing]; [discriminate|].
  destruct (forallb isSpace trailing); [|discriminate].
  intros [= <- <- <-].
  exists ws, q, q2, trailing.
  split; [|repeat split; try assumption; discriminate].
  rewrite <- E1, <- E2, <- E3, <- E4. reflexivity.
Qed.

(** The line the loop writes for a quoted value that needs no quotes does
    not match the pattern again. *)
Lemma matchQuoted_rewritten (indent field value : jsstring) :
  forallb isSpace indent = true ->
  forallb isFieldChar field = true -> field <> [] ->
  forallb notQuote value = true -> value <> [] ->
  needsQuotes value = false ->
  matchQuoted (indent ++ field ++ str ": " ++ value) = None.
Proof.
  intros Hi Hf Hfne Hv Hvne Hq.
  assert (Hstop : stops isSpace (field ++ str ": " ++ value)).
  { destruct field as [|f field]; [contradiction|]. cbn [app stops].
    cbn [forallb] in Hf. apply andb_prop in Hf as [Hf _].
    apply fieldChar_not_space, Hf. }
  unfold matchQuoted.
  rewrite takeWhile_app, dropWhile_app by assumption.
  change (str ": " ++ value) with (COLON :: 32%N :: value).
  rewrite takeWhile_app, dropWhile_app by (assumption || reflexivity).
  destruct field as [|f field]; [contradiction|].
  rewrite N.eqb_refl.
  change (dropWhile isSpace (32%N :: value)) with (dropWhile isSpace value).
  unfold needsQuotes in Hq. apply orb_false_elim in Hq as [_ Hq].
  apply negb_false_iff, streq_eq, trim_fixed_stops in Hq.
  destruct value as [|v value]; [contradiction|].
  cbn [stops] in Hq. cbn [dropWhile]. rewrite Hq.
  cbn [forallb] in Hv. apply andb_prop in Hv as [Hv _].
  unfold notQuote in Hv. apply negb_true_iff in Hv. rewrite Hv. reflexivity.
Qed.

(** *** One iteration of the loop *)

Lemma keptLines_cons (l : jsstring) (lines : list jsstring) :
  keptLines (l :: lines)
  = match keepLine l with Some x => [x] | None => [] end ++ keptLines lines.
Proof. reflexivity. Qed.

Lemma colon_not_in_dashes : ~ In COLON DASHES.
Proof. cbv. intros [H|[H|[H|[]]]]; discriminate H. Qed.

(** A pushed line is pushed unchanged when met again; it answers the key
    tests like the line it comes from, begins with hyphens only if that
    line does, and holds no unit that line does not hold, apart from the
    colon and the space the loop writes. *)
Lemma keepLine_stable (l l' : jsstring) :
  keepLine l = Some l' ->
  keepLine l' = Some l'
  /\ (forall k, forallb isFieldChar k = true -> hasKey k l' = hasKey k l)
  /\ startsWith DASHES l' = startsWith DASHES l
  /\ (forall c, In c l' -> In c l \/ c = COLON \/ c = 32%N).
Proof.
  unfold keepLine.
  destruct (hasKey TOOLS l || hasKey ALLOWED_TOOLS l) eqn:Hdrop; [discriminate|].
  destruct (matchQuoted l) as [[[indent field] value]|] eqn:Hm.
  - destruct (needsQuotes value) eqn:Hq; intros [= <-].
    + rewrite Hdrop, Hm, Hq. repeat split; auto.
    + destruct (matchQuoted_spec l indent field value Hm)
        as (ws & q & q2 & trailing & El & Hi & Hf & Hfne & Hv & Hvne).
      assert (Hkeys : forall k, forallb isFieldChar k = true ->
                hasKey k (indent ++ field ++ str ": " ++ value) = hasKey k l).
      { intros k Hk. rewrite El.
        change (str ": " ++ value) with (COLON :: 32%N :: value).
        rewrite !hasKey_field by assumption. reflexivity. }
      split; [|split; [exact Hkeys|split]].
      * rewrite !Hkeys by reflexivity. rewrite Hdrop.
        change (matchQuoted ?x)
          with (matchQuoted (indent ++ field ++ str ": " ++ value)).
        rewrite matchQuoted_rewritten by assumption. reflexivity.
      * rewrite El. change (str ": " ++ value) with (COLON :: 32%N :: value).
        rewrite !(app_assoc indent field).
        rewrite !startsWith_before by exact colon_not_in_dashes. reflexivity.
      * intros c. rewrite El.
        change (str ": " ++ value) with (COLON :: 32%N :: value).
        rewrite !in_app_iff. cbn [In]. rewrite !in_app_iff. cbn [In].
        rewrite !in_app_iff. intuition auto.
  - intros [= <-]. rewrite Hdrop, Hm. repeat split; auto.
Qed.

Lemma fixLine_keepLine (st : headerScan) (l : jsstring) :
  fixLine st l
  = match keepLine l with
    | None => st
    | Some x =>
        {| hasName := hasName st || hasKey NAME x;
           hasDescription := hasDescription st || hasKey DESCRIPTION x;
           hasModel := hasModel st || hasKey MODEL x;
           fixedLines := fixedLines st ++ [x] |}
    end.
Proof.
  destruct (keepLine l) as [x|] eqn:Hk.
  - destruct (keepLine_stable l x Hk) as (_ & Hkeys & _).
    rewrite !Hkeys by reflexivity.
    unfold keepLine in Hk. unfold fixLine. fold TOOLS ALLOWED_TOOLS NAME DESCRIPTION MODEL.
    destruct (hasKey TOOLS l); [discriminate|].
    destruct (hasKey ALLOWED_TOOLS l); [discriminate|]. cbn [orb] in Hk.
    destruct (matchQuoted l) as [[[indent field] value]|].
    + destruct (needsQuotes value); injection Hk as <-; reflexivity.
    + injection Hk as <-. reflexivity.
  - unfold keepLine in Hk. unfold fixLine. fold TOOLS ALLOWED_TOOLS.
    destruct (hasKey TOOLS l); [reflexivity|].
    destruct (hasKey ALLOWED_TOOLS l); [reflexivity|]. cbn [orb] in Hk.
    destruct (matchQuoted l) as [[[indent field] value]|]; [|discriminate].
    destruct (needsQuotes value); discriminate.
Qed.

(** The loop as a whole: the flags and the lines it leaves. *)
Lemma fold_fixLine (lines : list jsstring) (st : headerScan) :
  fold_left fixLine lines st
  = {| hasName := hasName st || existsb (hasKey NAME) (keptLines lines);
       hasDescription :=
         hasDescription st || existsb (hasKey DESCRIPTION) (keptLines lines);
       hasModel := hasModel st || existsb (hasKey MODEL) (keptLines lines);
       fixedLines := fixedLines st ++ keptLines lines |}.
Proof.
  revert st. induction lines as [|l lines IH]; intros st.
  - cbn. rewrite !orb_false_r, app_nil_r. destruct st; reflexivity.
  - cbn [fold_left]. rewrite IH, fixLine_keepLine, !keptLines_cons.
    destruct (keepLine l) as [x|]; [|reflexivity].
    cbn [hasName hasDescription hasModel fixedLines app existsb].
    rewrite <- !orb_assoc, <- app_assoc. reflexivity.
Qed.

Lemma keptLines_all (P : jsstring -> Prop) (lines : list jsstring) :
  (forall l x, In l lines -> keepLine l = Some x -> P x) ->
  Forall P (keptLines lines).
Proof.
  induction lines as [|l lines IH]; intros H; [constructor|].
  rewrite keptLines_cons. apply Forall_app. split.
  - destruct (keepLine l) as [x|] eqn:Hk; [|constructor].
    constructor; [|constructor]. apply (H l x); [left; reflexivity|exact Hk].
  - apply IH. intros l0 x Hin. apply H. right. exact Hin.
Qed.

Lemma keptLines_stable (lines : list jsstring) :
  Forall (fun l => keepLine l = Some l) lines -> keptLines lines = lines.
Proof.
  induction 1 as [|l lines Hl _ IH]; [reflexivity|].
  rewrite keptLines_cons, Hl, IH. reflexivity.
Qed.

(** *** The replacement template *)

Lemma getSubstitution_plain (matched tail template : jsstring) :
  ~ In DOLLAR template -> getSubstitution matched tail template = template.
Proof.
  induction template as [|c t IH]; intros H; [reflexivity|].
  cbn [getSubstitution]. destruct (N.eqb_spec c DOLLAR) as [->|_].
  - exfalso. apply H. left. reflexivity.
  - rewrite IH; [reflexivity|]. intros Hin. apply H. right. exact Hin.
Qed.

Lemma in_join_inv (sep : jsstring) (ls : list jsstring) (c : char) :
  In c (join sep ls) -> In c sep \/ exists l, In l ls /\ In c l.
Proof.
  induction ls as [|l0 ls IH]; [intros []|].
  destruct ls as [|l1 ls].
  - intros H. right. exists l0. split; [left; reflexivity|exact H].
  - change (join sep (l0 :: l1 :: ls)) with (l0 ++ sep ++ join sep (l1 :: ls)).
    rewrite !in_app_iff. intros [H|[H|H]].
    + right. exists l0. split; [left; reflexivity|exact H].
    + left. exact H.
    + destruct (IH H) as [Hs|(l & Hl & Hc)]; [left; exact Hs|].
      right. exists l. split; [right; exact Hl|exact Hc].
Qed.

Lemma template_plain (fixed : list jsstring) :
  Forall (fun l => ~ In DOLLAR l) fixed ->
  ~ In DOLLAR (OPEN ++ unlines fixed ++ CLOSE).
Proof.
  intros Hall. rewrite !in_app_iff. intros [H|[H|H]].
  - cbv in H. intuition discriminate.
  - apply in_join_inv in H as [H|(l & Hl & Hc)].
    + cbv in H. intuition discriminate.
    + rewrite Forall_forall in Hall. exact (Hall l Hl Hc).
  - cbv in H. intuition discriminate.
Qed.

(** *** Normal forms are fixed points *)

Lemma existsb_count (p : jsstring -> bool) (ls : list jsstring) :
  existsb p ls = negb (Nat.eqb (length (filter p ls)) 0).
Proof.
  induction ls as [|l ls IH]; [reflexivity|].
  cbn [existsb filter]. destruct (p l); [reflexivity|exact IH].
Qed.

Lemma fixFrontmatterFormat_normal (fixed : list jsstring) (rest agentName : jsstring) :
  fixed <> [] ->
  Forall (fun l => ~ In LF l) fixed ->
  Forall (fun l => ~ In DOLLAR l) fixed ->
  Forall (fun l => startsWith DASHES l = false) (tl fixed) ->
  Forall (fun l => keepLine l = Some l) fixed ->
  existsb (hasKey NAME) fixed = true ->
  existsb (hasKey DESCRIPTION) fixed = true ->
  existsb (hasKey MODEL) fixed = true ->
  fixFrontmatterFormat (OPEN ++ unlines fixed ++ CLOSE ++ rest) agentName
  = OPEN ++ unlines fixed ++ CLOSE ++ rest.
Proof.
  intros Hnil Hlf Hdollar Hdash Hkeep Hn Hd Hm.
  unfold fixFrontmatterFormat.
  rewrite matchFrontmatter_complete by assumption.
  unfold unlines at 1. rewrite split_join by assumption.
  rewrite fold_fixLine, keptLines_stable by assumption.
  unfold addMissing. cbn [hasName hasDescription hasModel fixedLines scanStart orb app].
  rewrite Hn, Hd, Hm. cbn [app]. rewrite app_nil_r.
  rewrite getSubstitution_plain by (apply template_plain; assumption).
  rewrite <- !app_assoc. reflexivity.
Qed.

(** *** The first pass *)

Lemma noneOf_not_in (bad : list char) (s : jsstring) (c : char) :
  noneOf bad s = true -> In c bad -> ~ In c s.
Proof.
  unfold noneOf. rewrite forallb_forall. intros H Hbad Hs.
  specialize (H c Hs). apply negb_true_iff in H.
  assert (Ht : existsb (N.eqb c) bad = true).
  { apply existsb_exists. exists c. split; [exact Hbad|apply N.eqb_refl]. }
  congruence.
Qed.

Lemma noneOf_weaken (bad bad' : list char) (s : jsstring) :
  incl bad' bad -> noneOf bad s = true -> noneOf bad' s = true.
Proof.
  unfold noneOf. rewrite !forallb_forall. intros Hincl H c Hc.
  specialize (H c Hc). apply negb_true_iff in H. apply negb_true_iff.
  destruct (existsb (N.eqb c) bad') eqn:E; [|reflexivity].
  apply existsb_exists in E as (x & Hx & Hcx).
  rewrite <- H. symmetry. apply existsb_exists. exists x.
  split; [apply Hincl, Hx|exact Hcx].
Qed.

Lemma dropWhile_in (p : char -> bool) (s : jsstring) (c : char) :
  In c (dropWhile p s) -> In c s.
Proof.
  induction s as [|d s IH]; [intros []|].
  cbn [dropWhile]. destruct (p d); [|intros H; exact H].
  intros H. right. apply IH, H.
Qed.

Lemma keepLine_some (l x : jsstring) :
  keepLine l = Some x -> hasKey TOOLS l = false /\ hasKey ALLOWED_TOOLS l = false.
Proof.
  unfold keepLine. destruct (hasKey TOOLS l), (hasKey ALLOWED_TOOLS l);
    try discriminate. intros _. split; reflexivity.
Qed.

(** **** The lines the normalizer adds *)

Lemma nameLine_keys (n : jsstring) :
  hasKey NAME (nameLine n) = true
  /\ hasKey DESCRIPTION (nameLine n) = false
  /\ hasKey MODEL (nameLine n) = false
  /\ hasKey TOOLS (nameLine n) = false
  /\ hasKey ALLOWED_TOOLS (nameLine n) = false
  /\ startsWith DASHES (nameLine n) = false.
Proof. repeat split; reflexivity. Qed.

Lemma descriptionLine_keys (n : jsstring) :
  hasKey NAME (descriptionLine n) = false
  /\ hasKey DESCRIPTION (descriptionLine n) = true
  /\ hasKey MODEL (descriptionLine n) = false
  /\ hasKey TOOLS (descriptionLine n) = false
  /\ hasKey ALLOWED_TOOLS (descriptionLine n) = false
  /\ startsWith DASHES (descriptionLine n) = false
  /\ keepLine (descriptionLine n) = Some (descriptionLine n).
Proof. repeat split; reflexivity. Qed.

Lemma modelLine_keys :
  hasKey NAME modelLine = false
  /\ hasKey DESCRIPTION modelLine = false
  /\ hasKey MODEL modelLine = true
  /\ hasKey TOOLS modelLine = false
  /\ hasKey ALLOWED_TOOLS modelLine = false
  /\ startsWith DASHES modelLine = false
  /\ keepLine modelLine = Some modelLine
  /\ ~ In LF modelLine /\ ~ In DOLLAR modelLine.
Proof.
  repeat split; try reflexivity; cbv; intuition discriminate.
Qed.

Lemma nameLine_units (n : jsstring) (c : char) :
  In c [LF; DOLLAR] -> noneOf [LF; DOLLAR] n = true -> ~ In c (nameLine n).
Proof.
  intros Hc Hn. unfold nameLine. rewrite in_app_iff. intros [H|H].
  - destruct Hc as [<-|[<-|[]]]; cbv in H; intuition discriminate.
  - exact (noneOf_not_in [LF; DOLLAR] n c Hn Hc H).
Qed.

Lemma descriptionLine_units (n : jsstring) (c : char) :
  In c [LF; DOLLAR] -> noneOf [LF; DOLLAR] n = true -> ~ In c (descriptionLine n).
Proof.
  intros Hc Hn. unfold descriptionLine. rewrite in_app_iff. intros [H|H].
  - destruct Hc as [<-|[<-|[]]]; cbv in H; intuition discriminate.
  - exact (noneOf_not_in [LF; DOLLAR] n c Hn Hc H).
Qed.

(** A name without quotes gives a name line the loop leaves alone. *)
Lemma nameLine_kept (n : jsstring) :
  noneOf [DQUOTE; SQUOTE] n = true -> keepLine (nameLine n) = Some (nameLine n).
Proof.
  intros Hn. unfold keepLine.
  destruct (nameLine_keys n) as (_ & _ & _ & -> & -> & _). cbn [orb].
  assert (Hm : matchQuoted (nameLine n) = None); [|rewrite Hm; reflexivity].
  unfold matchQuoted, nameLine.
  change (str "name: " ++ n) with (110 :: 97 :: 109 :: 101 :: COLON :: 32 :: n)%N.
  change (takeWhile isSpace (110 :: 97 :: 109 :: 101 :: COLON :: 32 :: n)%N)
    with (@nil char).
  change (dropWhile isSpace (110 :: 97 :: 109 :: 101 :: COLON :: 32 :: n)%N)
    with (110 :: 97 :: 109 :: 101 :: COLON :: 32 :: n)%N.
  change (takeWhile isFieldChar (110 :: 97 :: 109 :: 101 :: COLON :: 32 :: n)%N)
    with [110; 97; 109; 101]%N.
  change (dropWhile isFieldChar (110 :: 97 :: 109 :: 101 :: COLON :: 32 :: n)%N)
    with (COLON :: 32 :: n)%N.
  cbv beta iota. rewrite N.eqb_refl.
  change (dropWhile isSpace (32 :: n)%N) with (dropWhile isSpace n).
  destruct (dropWhile isSpace n) as [|q r] eqn:E; [reflexivity|].
  assert (Hq : isQuote q = false); [|rewrite Hq; reflexivity].
  assert (Hin : In q n) by (apply (dropWhile_in isSpace); rewrite E; left; reflexivity).
  unfold isQuote. apply orb_false_intro; apply N.eqb_neq; intros ->.
  - exact (noneOf_not_in [DQUOTE; SQUOTE] n DQUOTE Hn (or_introl eq_refl) Hin).
  - exact (noneOf_not_in [DQUOTE; SQUOTE] n SQUOTE Hn
             (or_intror (or_introl eq_refl)) Hin).
Qed.

(** **** Counting keys *)

Lemma countKey_app (k : jsstring) (a b : list jsstring) :
  countKey k (a ++ b) = countKey k a + countKey k b.
Proof. unfold countKey. rewrite filter_app, length_app. reflexivity. Qed.

Lemma countKey_cons (k l : jsstring) (ls : list jsstring) :
  countKey k (l :: ls) = (if hasKey k l then 1 else 0) + countKey k ls.
Proof. unfold countKey. cbn [filter]. destruct (hasKey k l); reflexivity. Qed.

Lemma countKey_none (k : jsstring) (ls : list jsstring) :
  Forall (fun l => hasKey k l = false) ls -> countKey k ls = 0.
Proof.
  induction 1 as [|l ls Hl _ IH]; [reflexivity|].
  rewrite countKey_cons, Hl, IH. reflexivity.
Qed.

Lemma countKey_existsb (k : jsstring) (ls : list jsstring) :
  existsb (hasKey k) ls = negb (Nat.eqb (countKey k ls) 0).
Proof. apply existsb_count. Qed.

(** Two keys with different first letters never accept the same line. *)
Lemma hasKey_exclusive (a b : char) (k1 k2 l : jsstring) :
  a <> b -> hasKey (a :: k1) l = true -> hasKey (b :: k2) l = false.
Proof.
  intros Hne H1. destruct (hasKey (b :: k2) l) eqn:H2; [|reflexivity].
  exfalso. apply Hne. unfold hasKey in H1, H2. cbn [app] in H1, H2.
  exact (startsWith_head a b _ _ _ H1 H2).
Qed.

Lemma dropped_line_has_no_key (k l : jsstring) :
  In k [NAME; DESCRIPTION; MODEL] -> keepLine l = None -> hasKey k l = false.
Proof.
  intros Hk. unfold keepLine.
  destruct (hasKey TOOLS l) eqn:Ht.
  - intros _. destruct Hk as [<-|[<-|[<-|[]]]];
      refine (hasKey_exclusive 116%N _ (str "ools") _ l _ Ht); discriminate.
  - destruct (hasKey ALLOWED_TOOLS l) eqn:Ha.
    + intros _. destruct Hk as [<-|[<-|[<-|[]]]];
        refine (hasKey_exclusive 97%N _ (str "llowed-tools") _ l _ Ha); discriminate.
    + cbn [orb]. destruct (matchQuoted l) as [[[indent field] value]|];
        [destruct (needsQuotes value)|]; discriminate.
Qed.

Lemma countKey_kept (k : jsstring) (lines : list jsstring) :
  In k [NAME; DESCRIPTION; MODEL] ->
  countKey k (keptLines lines) = countKey k lines.
Proof.
  intros Hk. induction lines as [|l lines IH]; [reflexivity|].
  rewrite keptLines_cons, countKey_app, countKey_cons, IH. f_equal.
  destruct (keepLine l) as [x|] eqn:E.
  - destruct (keepLine_stable l x E) as (_ & Hkeys & _).
    rewrite countKey_cons, Hkeys; [cbn; lia|].
    destruct Hk as [<-|[<-|[<-|[]]]]; reflexivity.
  - rewrite (dropped_line_has_no_key k l Hk E). reflexivity.
Qed.

Lemma first_line_prefix (sep : char) (s : jsstring) :
  exists z, s = hd [] (split sep s) ++ z.
Proof.
  pose proof (join_split sep s) as Hj.
  destruct (split sep s) as [|l0 [|l1 ls]].
  - exists s. reflexivity.
  - exists []. cbn [hd join] in *. rewrite app_nil_r. symmetry. exact Hj.
  - exists ([sep] ++ join [sep] (l1 :: ls)). cbn [hd]. symmetry. exact Hj.
Qed.

(** **** The shape of a normalized text *)

Lemma addMissing_fold (n : jsstring) (lines : list jsstring) :
  addMissing n (fold_left fixLine lines scanStart)
  = (if existsb (hasKey NAME) (keptLines lines) then [] else [nameLine n])
    ++ keptLines lines
    ++ (if existsb (hasKey DESCRIPTION) (keptLines lines) then []
        else [descriptionLine n])
    ++ (if existsb (hasKey MODEL) (keptLines lines) then [] else [modelLine]).
Proof. rewrite fold_fixLine. reflexivity. Qed.

Lemma Forall_optional (P : jsstring -> Prop) (b : bool) (x : jsstring) :
  P x -> Forall P (if b then [] else [x]).
Proof. intros H. destruct b; repeat constructor. exact H. Qed.

Lemma Forall_addMissing (P : jsstring -> Prop) (b1 b2 b3 : bool)
  (x y z : jsstring) (kept : list jsstring) :
  P x -> Forall P kept -> P y -> P z ->
  Forall P ((if b1 then [] else [x]) ++ kept
            ++ (if b2 then [] else [y]) ++ (if b3 then [] else [z])).
Proof.
  intros Hx Hk Hy Hz.
  apply Forall_app. split; [apply Forall_optional, Hx|].
  apply Forall_app. split; [exact Hk|].
  apply Forall_app. split; apply Forall_optional; assumption.
Qed.

Lemma shaped_without_header (content n : jsstring) :
  noneOf [LF; DOLLAR] n = true ->
  matchFrontmatter content = None ->
  shaped content n [nameLine n; descriptionLine n; modelLine].
Proof.
  intros Hn Hm.
  destruct (nameLine_keys n) as (N1 & N2 & N3 & N4 & N5 & N6).
  destruct (descriptionLine_keys n) as (D1 & D2 & D3 & D4 & D5 & D6 & D7).
  destruct modelLine_keys as (M1 & M2 & M3 & M4 & M5 & M6 & M7 & M8 & M9).
  unfold shaped, inputHeaderLines, headerLines. rewrite Hm. cbn [option_map].
  rewrite !countKey_cons, N1, N2, N3, N4, N5, D1, D2, D3, D4, D5, M1, M2, M3, M4, M5.
  repeat split; try reflexivity.
  - repeat constructor; try exact M8.
    + apply nameLine_units; [left; reflexivity|exact Hn].
    + apply descriptionLine_units; [left; reflexivity|exact Hn].
  - repeat constructor; try exact M9.
    + apply nameLine_units; [right; left; reflexivity|exact Hn].
    + apply descriptionLine_units; [right; left; reflexivity|exact Hn].
  - repeat constructor; assumption.
  - intros Hq. repeat constructor; try assumption. apply nameLine_kept, Hq.
Qed.

Lemma shaped_with_header (content n frontmatter rest : jsstring) :
  noneOf [LF; DOLLAR] n = true ->
  matchFrontmatter content = Some (frontmatter, rest) ->
  noneOf [DOLLAR] frontmatter = true ->
  startsWith DASHES frontmatter = false ->
  shaped content n (addMissing n (fold_left fixLine (split LF frontmatter) scanStart)).
Proof.
  intros Hn Hm Hdol Hdash.
  destruct (nameLine_keys n) as (N1 & N2 & N3 & N4 & N5 & N6).
  destruct (descriptionLine_keys n) as (D1 & D2 & D3 & D4 & D5 & D6 & D7).
  destruct modelLine_keys as (M1 & M2 & M3 & M4 & M5 & M6 & M7 & M8 & M9).
  destruct (matchFrontmatter_sound content frontmatter rest Hm) as [_ Htail].
  assert (Hlines_dash : Forall (fun l => startsWith DASHES l = false)
                          (split LF frontmatter)).
  { destruct (first_line_prefix LF frontmatter) as [z Hz].
    pose proof (split_not_nil LF frontmatter) as Hnil.
    destruct (split LF frontmatter) as [|l0 ls]; [contradiction|].
    constructor; [|exact Htail]. cbn [hd] in Hz.
    destruct (startsWith DASHES l0) eqn:Hd; [|reflexivity].
    rewrite Hz, (startsWith_app_r _ _ z Hd) in Hdash. discriminate Hdash. }
  pose proof (split_lines_without_sep LF frontmatter) as Hlines_lf.
  rewrite Forall_forall in Hlines_dash, Hlines_lf.
  rewrite addMissing_fold.
  unfold shaped, inputHeaderLines, headerLines. rewrite Hm. cbn [option_map fst].
  set (lines := split LF frontmatter) in *.
  rewrite !countKey_app.
  rewrite !(countKey_kept NAME), !(countKey_kept DESCRIPTION), !(countKey_kept MODEL)
    by (cbn; auto).
  rewrite !countKey_existsb.
  rewrite !(countKey_kept NAME), !(countKey_kept DESCRIPTION), !(countKey_kept MODEL)
    by (cbn; auto).
  assert (Ktools : countKey TOOLS (keptLines lines) = 0).
  { apply countKey_none, keptLines_all. intros l x _ E.
    destruct (keepLine_stable l x E) as (Hx & _). apply (keepLine_some x x Hx). }
  assert (Kallowed : countKey ALLOWED_TOOLS (keptLines lines) = 0).
  { apply countKey_none, keptLines_all. intros l x _ E.
    destruct (keepLine_stable l x E) as (Hx & _). apply (keepLine_some x x Hx). }
  rewrite Ktools, Kallowed.
  split; [|split; [|split; [|split; [|split; [|split; [|split; [|split]]]]]]].
  - apply Forall_addMissing.
    + apply nameLine_units; [left; reflexivity|exact Hn].
    + apply keptLines_all. intros l x Hl E Hin.
      destruct (keepLine_stable l x E) as (_ & _ & _ & Hunits).
      destruct (Hunits LF Hin) as [H|[H|H]]; try discriminate H.
      exact (Hlines_lf l Hl H).
    + apply descriptionLine_units; [left; reflexivity|exact Hn].
    + exact M8.
  - apply Forall_addMissing.
    + apply nameLine_units; [right; left; reflexivity|exact Hn].
    + apply keptLines_all. intros l x Hl E Hin.
      destruct (keepLine_stable l x E) as (_ & _ & _ & Hunits).
      destruct (Hunits DOLLAR Hin) as [H|[H|H]]; try discriminate H.
      apply (noneOf_not_in [DOLLAR] frontmatter DOLLAR Hdol (or_introl eq_refl)).
      exact (in_split_line LF frontmatter l DOLLAR Hl H).
    + apply descriptionLine_units; [right; left; reflexivity|exact Hn].
    + exact M9.
  - apply Forall_addMissing.
    + exact N6.
    + apply keptLines_all. intros l x Hl E.
      destruct (keepLine_stable l x E) as (_ & _ & -> & _). exact (Hlines_dash l Hl).
    + exact D6.
    + exact M6.
  - destruct (countKey NAME lines) as [|c1], (countKey DESCRIPTION lines) as [|c2],
      (countKey MODEL lines) as [|c3]; cbn [Nat.eqb negb];
      rewrite ?countKey_cons, ?N1, ?D1, ?M1; cbn [countKey filter length]; lia.
  - destruct (countKey NAME lines) as [|c1], (countKey DESCRIPTION lines) as [|c2],
      (countKey MODEL lines) as [|c3]; cbn [Nat.eqb negb];
      rewrite ?countKey_cons, ?N2, ?D2, ?M2; cbn [countKey filter length]; lia.
  - destruct (countKey NAME lines) as [|c1], (countKey DESCRIPTION lines) as [|c2],
      (countKey MODEL lines) as [|c3]; cbn [Nat.eqb negb];
      rewrite ?countKey_cons, ?N3, ?D3, ?M3; cbn [countKey filter length]; lia.
  - destruct (countKey NAME lines) as [|c1], (countKey DESCRIPTION lines) as [|c2],
      (countKey MODEL lines) as [|c3]; cbn [Nat.eqb negb];
      rewrite ?countKey_cons, ?N4, ?D4, ?M4; cbn [countKey filter length]; lia.
  - destruct (countKey NAME lines) as [|c1], (countKey DESCRIPTION lines) as [|c2],
      (countKey MODEL lines) as [|c3]; cbn [Nat.eqb negb];
      rewrite ?countKey_cons, ?N5, ?D5, ?M5; cbn [countKey filter length]; lia.
  - intros Hq. apply Forall_addMissing.
    + apply nameLine_kept, Hq.
    + apply keptLines_all. intros l x _ E.
      destruct (keepLine_stable l x E) as (Hx & _). exact Hx.
    + exact D7.
    + exact M7.
Qed.

Lemma shaped_not_nil (content n : jsstring) (fixed : list jsstring) :
  shaped content n fixed -> fixed <> [].
Proof.
  intros (_ & _ & _ & Hname & _) ->.
  change (countKey NAME []) with 0 in Hname. lia.
Qed.

(** Under the two conditions the normalizer writes a header block of the
    shape above, in front of an untouched rest. *)
Lemma fixFrontmatterFormat_shape (content n : jsstring) :
  noneOf [LF; DOLLAR] n = true ->
  plainHeader content = true ->
  exists fixed rest,
    fixFrontmatterFormat content n = OPEN ++ unlines fixed ++ CLOSE ++ rest
    /\ shaped content n fixed.
Proof.
  intros Hn. unfold plainHeader, fixFrontmatterFormat.
  destruct (matchFrontmatter content) as [[frontmatter rest]|] eqn:Hm.
  - intros Hplain. apply andb_prop in Hplain as [Hdol Hdash].
    apply negb_true_iff in Hdash.
    pose proof (shaped_with_header content n frontmatter rest Hn Hm Hdol Hdash) as Hs.
    exists (addMissing n (fold_left fixLine (split LF frontmatter) scanStart)), rest.
    split; [|exact Hs].
    rewrite getSubstitution_plain by (apply template_plain, Hs).
    rewrite <- !app_assoc. reflexivity.
  - intros _. exists [nameLine n; descriptionLine n; modelLine], (LF :: LF :: content).
    split; [|apply shaped_without_header; assumption].
    unfold newFrontmatter, unlines, OPEN, CLOSE. cbn [join].
    rewrite <- !app_assoc. reflexivity.
Qed.

Lemma shaped_header (content n : jsstring) (fixed : list jsstring) (rest : jsstring) :
  shaped content n fixed ->
  headerLines (OPEN ++ unlines fixed ++ CLOSE ++ rest) = Some fixed.
Proof.
  intros Hs. pose proof (shaped_not_nil content n fixed Hs) as Hnil.
  destruct Hs as (Hlf & _ & Hdash & _).
  unfold headerLines. rewrite matchFrontmatter_complete.
  - cbn [option_map fst]. unfold unlines. rewrite split_join by assumption.
    reflexivity.
  - exact Hnil.
  - exact Hlf.
  - destruct fixed as [|l ls]; [constructor|]. inversion Hdash. assumption.
Qed.

(** C2 (amended). Normalizing twice gives the same text as normalizing
    once, for a base name that holds no line feed, dollar sign or quote
    character and a text whose header block, if it has one, holds no dollar
    sign and does not begin with three hyphens. *)
Theorem fixFrontmatterFormat_idempotent_on_plain_input (content agentName : jsstring) :
  noneOf [LF; DOLLAR; DQUOTE; SQUOTE] agentName = true ->
  plainHeader content = true ->
  fixFrontmatterFormat (fixFrontmatterFormat content agentName) agentName
  = fixFrontmatterFormat content agentName.
Proof.
  intros Hn Hplain.
  assert (Hn1 : noneOf [LF; DOLLAR] agentName = true).
  { apply (noneOf_weaken [LF; DOLLAR; DQUOTE; SQUOTE]); [|exact Hn].
    intros c [<-|[<-|[]]]; cbn; auto. }
  assert (Hn2 : noneOf [DQUOTE; SQUOTE] agentName = true).
  { apply (noneOf_weaken [LF; DOLLAR; DQUOTE; SQUOTE]); [|exact Hn].
    intros c [<-|[<-|[]]]; cbn; auto. }
  destruct (fixFrontmatterFormat_shape content agentName Hn1 Hplain)
    as (fixed & rest & E & Hs).
  pose proof (shaped_not_nil content agentName fixed Hs) as Hnil.
  destruct Hs as (Hlf & Hdol & Hdash & Cn & Cd & Cm & _ & _ & Hkeep).
  rewrite E. apply fixFrontmatterFormat_normal; try assumption.
  - destruct fixed as [|l ls]; [constructor|]. inversion Hdash. assumption.
  - exact (Hkeep Hn2).
  - rewrite countKey_existsb, Cn. destruct (countKey NAME (inputHeaderLines content));
      reflexivity.
  - rewrite countKey_existsb, Cd.
    destruct (countKey DESCRIPTION (inputHeaderLines content)); reflexivity.
  - rewrite countKey_existsb, Cm. destruct (countKey MODEL (inputHeaderLines content));
      reflexivity.
Qed.

(** C3 (amended). For a base name without line feed or dollar sign and a
    text whose header block, if it has one, holds no dollar sign and does
    not begin with three hyphens: the header block of the normalized text
    has, for each of [name], [description] and [model], as many lines with
    that key as the header block of the input, and one if the input has
    none; no line with the key [tools] or [allowed-tools] is left. *)
Theorem normalized_header_keys (content agentName : jsstring) :
  noneOf [LF; DOLLAR] agentName = true ->
  plainHeader content = true ->
  exists lines,
    headerLines (fixFrontmatterFormat content agentName) = Some lines
    /\ countKey NAME lines = Nat.max 1 (countKey NAME (inputHeaderLines content))
    /\ countKey DESCRIPTION lines
       = Nat.max 1 (countKey DESCRIPTION (inputHeaderLines content))
    /\ countKey MODEL lines = Nat.max 1 (countKey MODEL (inputHeaderLines content))
    /\ countKey TOOLS lines = 0
    /\ countKey ALLOWED_TOOLS lines = 0.
Proof.
  intros Hn Hplain.
  destruct (fixFrontmatterFormat_shape content agentName Hn Hplain)
    as (fixed & rest & E & Hs).
  exists fixed. split.
  - rewrite E. exact (shaped_header content agentName fixed rest Hs).
  - destruct Hs as (_ & _ & _ & Cn & Cd & Cm & Ct & Ca & _). repeat split; assumption.
Qed.

(** **** Concrete inputs *)

(** A header block whose first line begins with three hyphens and which
    lacks a name: the name is put in front of that line, and the second
    pass takes the line for the closing delimiter. *)
Example second_pass_after_hyphen_line :
  fixFrontmatterFormat (unlines [str "---"; str "---a"; str "---"; str "body"])
    (str "reviewer")
  = unlines [str "---"; str "name: reviewer"; str "---a";
             str "description: Agent for reviewer"; str "model: sonnet";
             str "---"; str "body"]
  /\ fixFrontmatterFormat
       (fixFrontmatterFormat (unlines [str "---"; str "---a"; str "---"; str "body"])
          (str "reviewer")) (str "reviewer")
     = unlines [str "---"; str "name: reviewer";
                str "description: Agent for reviewer"; str "model: sonnet";
                str "---a"; str "description: Agent for reviewer";
                str "model: sonnet"; str "---"; str "body"].
Proof. split; vm_compute; reflexivity. Qed.

(** C2, counterexample: five inputs on which the second pass changes the
    text again: a header block beginning with three hyphens; a header value
    with doubled dollar signs, which the replacement template halves at
    each pass; and base names that hold quotes, a line feed, or a doubled
    dollar sign. *)
Lemma fixFrontmatterFormat_not_idempotent :
  stableUnderSecondPass (unlines [str "---"; str "---a"; str "---"; str "body"])
    (str "reviewer") = false
  /\ stableUnderSecondPass
       (unlines [str "---"; str "name: a"; str "description: costs $$$$";
                 str "model: sonnet"; str "---"; str "body"])
       (str "reviewer") = false
  /\ stableUnderSecondPass (str "body") (str "'reviewer'") = false
  /\ stableUnderSecondPass (str "body") (unlines [str "x"; str "---"]) = false
  /\ stableUnderSecondPass (str "body") (str "a$$") = false.
Proof. repeat split; vm_compute; reflexivity. Qed.

Example quotedSample_normalized :
  fixFrontmatterFormat quotedSample (str "reviewer")
  = unlines [str "---"; str "name: rev"; str "  description: 'x: y' ";
             str "model: sonnet"; str "---"; str "body"].
Proof. vm_compute. reflexivity. Qed.

(** C2 (amended) on the sample: the first pass strips the quotes of the
    name and drops the two tool lines, the second changes nothing. *)
Lemma fixFrontmatterFormat_idempotent_on_plain_input_witness :
  noneOf [LF; DOLLAR; DQUOTE; SQUOTE] (str "reviewer") = true
  /\ plainHeader quotedSample = true
  /\ fixFrontmatterFormat (fixFrontmatterFormat quotedSample (str "reviewer"))
       (str "reviewer")
     = fixFrontmatterFormat quotedSample (str "reviewer").
Proof.
  split; [reflexivity|]. split; [reflexivity|].
  exact (fixFrontmatterFormat_idempotent_on_plain_input quotedSample (str "reviewer")
           eq_refl eq_refl).
Defined.

(** C3, counterexample: a repeated key is kept as often as it is written;
    further inputs show what the conditions of the amended statement
    exclude: a value [$&] brings the original block, [tools] line
    included, back into the text; a header block beginning with three
    hyphens and lacking a name ends, when read again, before the
    description that was added; a base name with a line feed adds lines of
    its own. *)
Lemma normalized_header_not_unique :
  option_map (countKey NAME)
    (headerLines
       (fixFrontmatterFormat
          (unlines [str "---"; str "name: a"; str "name: b"; str "---"; str "body"])
          (str "reviewer"))) = Some 2
  /\ option_map (countKey TOOLS)
       (headerLines
          (fixFrontmatterFormat
             (unlines [str "---"; str "name: a"; str "tools: Read";
                       str "description: see $&"; str "---"; str "body"])
             (str "reviewer"))) = Some 1
  /\ option_map (countKey DESCRIPTION)
       (headerLines
          (fixFrontmatterFormat
             (unlines [str "---"; str "---a"; str "---"; str "body"])
             (str "reviewer"))) = Some 0
  /\ option_map (countKey TOOLS)
       (headerLines
          (fixFrontmatterFormat (str "body") (unlines [str "x"; str "tools: y"])))
     = Some 2.
Proof. repeat split; vm_compute; reflexivity. Qed.

(** C3 (amended) on the sample. *)
Lemma normalized_header_keys_witness :
  noneOf [LF; DOLLAR] (str "reviewer") = true
  /\ plainHeader quotedSample = true
  /\ exists lines,
       headerLines (fixFrontmatterFormat quotedSample (str "reviewer")) = Some lines
       /\ countKey NAME lines = Nat.max 1 (countKey NAME (inputHeaderLines quotedSample))
       /\ countKey DESCRIPTION lines
          = Nat.max 1 (countKey DESCRIPTION (inputHeaderLines quotedSample))
       /\ countKey MODEL lines
          = Nat.max 1 (countKey MODEL (inputHeaderLines quotedSample))
       /\ countKey TOOLS lines = 0
       /\ countKey ALLOWED_TOOLS lines = 0.
Proof.
  split; [reflexivity|]. split; [reflexivity|].
  exact (normalized_header_keys quotedSample (str "reviewer") eq_refl eq_refl).
Defined.

End FrontmatterFacts.

(** ** The assisted rewriter *)

Section RewriterFacts.

Import AutoContextService.

Variable projectName : jsstring.

Variable generateContextSection : list MarkdownFile -> jsstring.

Variable generateFullAgent : jsstring -> jsstring -> jsstring
                             -> ClaudeCodeService.ClaudeResponse.

(** C8. When the file can be read and written and the assistant answers
    with [success = false], the update writes the file and reports
    success; the method names the fallback and the reason the assistant
    gave; the text written is the header block, the previous prompt if it
    is longer than 50 characters and the default prompt otherwise, and the
    static context section. *)
Theorem update_falls_back_when_assistant_fails
  (agentName : jsstring) (disk : agentFile) (files : list MarkdownFile)
  (original : jsstring) :
  readFileSync disk = Returns original ->
  (forall text, writeFileSync disk text = Returns tt) ->
  let p := prepare agentName original in
  let response :=
    generateFullAgent agentName (agentDescription p) (currentPrompt p) in
  ClaudeCodeService.success response = false ->
  updateAgentWithContextAI projectName generateContextSection generateFullAgent
    agentName disk files
  = ({| success := true;
        method := str "fallback (AI failed: "
                  ++ orElse (ClaudeCodeService.error response) (str "unknown")
                  ++ str ")";
        error := None |},
     Some (frontmatter p ++ [LF; LF]
           ++ (if Nat.ltb 50 (length (currentPrompt p)) then currentPrompt p
               else generateDefaultAgentPrompt agentName projectName)
           ++ generateContextSection files)).
Proof.
  intros Hread Hwrite p response Hfail.
  unfold updateAgentWithContextAI, rebuild, chooseBody.
  rewrite Hread. fold p. fold response. rewrite Hfail.
  rewrite Hwrite. reflexivity.
Qed.

End RewriterFacts.

(** C8 on a file holding a short prompt, with an assistant that always
    times out. *)
Lemma update_falls_back_when_assistant_fails_witness :
  AutoContextService.updateAgentWithContextAI (str "demo")
    (fun _ => unlines [str ""; str ""; str "## Project Context (Auto-generated)"; str ""])
    timedOut (str "reviewer") (writableFile (str "Review the code.")) []
  = ({| AutoContextService.success := true;
        AutoContextService.method :=
          str "fallback (AI failed: Timeout after 90s. Partial output: )";
        AutoContextService.error := None |},
     Some (unlines [str "---"; str "name: reviewer";
                    str "description: Agent for reviewer"; str "model: sonnet";
                    str "---"; str ""]
           ++ [LF]
           ++ AutoContextService.generateDefaultAgentPrompt (str "reviewer") (str "demo")
           ++ unlines [str ""; str ""; str "## Project Context (Auto-generated)"; str ""])).
Proof.
  exact (update_falls_back_when_assistant_fails (str "demo")
           (fun _ => unlines [str ""; str ""; str "## Project Context (Auto-generated)";
                              str ""])
           timedOut (str "reviewer") (writableFile (str "Review the code.")) []
           (str "Review the code.") eq_refl (fun _ => eq_refl) eq_refl).
Defined.

(** ** The digest: failures and priorities *)

Section DigestPriorities.

Import ClaudeCodeService.

Lemma textSection_none (name : jsstring) (f : file) (cap : N) (st : digestState) :
  textSection name f cap st = None
  <-> f = Unreadable /\ (totalChars st < MAX_TOTAL)%N.
Proof.
  unfold textSection, existsSync. destruct f as [| |text].
  - rewrite andb_false_l. split; [discriminate|intros [H _]; discriminate].
  - rewrite andb_true_l. destruct (N.ltb_spec (totalChars st) MAX_TOTAL).
    + split; [intros _; split; [reflexivity|assumption]|reflexivity].
    + split; [discriminate|intros [_ H']; lia].
  - rewrite andb_true_l. destruct (N.ltb_spec (totalChars st) MAX_TOTAL);
      (split; [discriminate|intros [H' _]; discriminate]).
Qed.

Lemma cappedLength_le (f : file) (cap : N) : (cappedLength f cap <= cap)%N.
Proof. destruct f; cbn [cappedLength]; lia. Qed.

Lemma cappedLength_unreadable (cap : N) : cappedLength Unreadable cap = 0%N.
Proof. reflexivity. Qed.

(** The running total after the first three priority blocks. *)
Lemma total_before_pyproject (ws : workspace) (s1 s2 : digestState) :
  textSection (str "CLAUDE.md") (claudeMd ws) MAX_FILE_SIZE emptyDigest = Some s1 ->
  textSection (str "README.md") (readmeMd ws) MAX_FILE_SIZE s1 = Some s2 ->
  totalChars (manifestSection (packageJson ws) s2)
  = (cappedLength (claudeMd ws) MAX_FILE_SIZE
     + cappedLength (readmeMd ws) MAX_FILE_SIZE
     + match packageJson ws with Manifest s => strlen s | _ => 0 end)%N.
Proof.
  intros E1 E2.
  destruct (textSection_spec _ _ _ _ _ E1) as [T1 _].
  destruct (textSection_spec _ _ _ _ _ E2) as [T2 _].
  destruct (manifestSection_spec (packageJson ws) s2) as [T3 _].
  change (totalChars emptyDigest) with 0%N in T1.
  assert (H1 : (cappedLength (claudeMd ws) (N.min MAX_FILE_SIZE (MAX_TOTAL - 0))
                = cappedLength (claudeMd ws) MAX_FILE_SIZE)%N).
  { reflexivity. }
  rewrite H1 in T1.
  pose proof (cappedLength_le (claudeMd ws) MAX_FILE_SIZE) as B1.
  assert (H2 : (N.min MAX_FILE_SIZE (MAX_TOTAL - totalChars s1) = MAX_FILE_SIZE)%N).
  { unfold MAX_FILE_SIZE, MAX_TOTAL in *. lia. }
  rewrite H2 in T2.
  pose proof (cappedLength_le (readmeMd ws) MAX_FILE_SIZE) as B2.
  rewrite T3.
  assert (Hlt : (totalChars s2 <? MAX_TOTAL)%N = true).
  { apply N.ltb_lt. unfold MAX_FILE_SIZE, MAX_TOTAL in *. lia. }
  rewrite Hlt. destruct (packageJson ws); lia.
Qed.

(** X2. getProjectContext throws exactly when it meets a text file that
    exists and cannot be read: CLAUDE.md, README.md, or pyproject.toml while
    budget is left for it. An unreadable or malformed package.json never
    makes it throw, and requirements.txt and the directory tree cannot. *)
Theorem getProjectContext_throws_on_unreadable_text_only (ws : workspace) :
  getProjectContext ws = None
  <-> claudeMd ws = Unreadable
      \/ readmeMd ws = Unreadable
      \/ (pyprojectToml ws = Unreadable
          /\ (cappedLength (claudeMd ws) MAX_FILE_SIZE
              + cappedLength (readmeMd ws) MAX_FILE_SIZE
              + match packageJson ws with Manifest s => strlen s | _ => 0 end
              < MAX_TOTAL)%N).
Proof.
  unfold getProjectContext, runProjectContext.
  rewrite guidelinesSection_first.
  destruct (textSection (str "CLAUDE.md") (claudeMd ws) MAX_FILE_SIZE emptyDigest)
    as [s1|] eqn:E1.
  - assert (C : claudeMd ws <> Unreadable).
    { intros HC. assert (N : textSection (str "CLAUDE.md") (claudeMd ws) MAX_FILE_SIZE
                                emptyDigest = None).
      { apply textSection_none. split; [exact HC|reflexivity]. }
      congruence. }
    cbn [bindOpt].
    destruct (textSection (str "README.md") (readmeMd ws) MAX_FILE_SIZE s1)
      as [s2|] eqn:E2.
    + assert (T1 : (totalChars s1 < MAX_TOTAL)%N).
      { destruct (textSection_spec _ _ _ _ _ E1) as [T1 _].
        change (totalChars emptyDigest) with 0%N in T1.
        pose proof (cappedLength_le (claudeMd ws)
                      (N.min MAX_FILE_SIZE (MAX_TOTAL - 0))) as B.
        unfold MAX_FILE_SIZE, MAX_TOTAL in *. lia. }
      assert (R : readmeMd ws <> Unreadable).
      { intros HR. assert (N : textSection (str "README.md") (readmeMd ws)
                                  MAX_FILE_SIZE s1 = None).
        { apply textSection_none. split; assumption. }
        congruence. }
      cbn [bindOpt].
      pose proof (total_before_pyproject ws s1 s2 E1 E2) as T.
      destruct (textSection (str "pyproject.toml") (pyprojectToml ws) 1000
                  (manifestSection (packageJson ws) s2)) as [s4|] eqn:E4.
      * cbn [bindOpt option_map]. split; [discriminate|].
        intros [H|[H|[H Hlt]]]; [contradiction|contradiction|].
        assert (N : textSection (str "pyproject.toml") (pyprojectToml ws) 1000
                      (manifestSection (packageJson ws) s2) = None).
        { apply textSection_none. split; [exact H|]. rewrite T. exact Hlt. }
        congruence.
      * cbn [bindOpt option_map]. split; [|reflexivity]. intros _.
        apply textSection_none in E4 as [H Hlt]. right; right.
        split; [exact H|]. rewrite <- T. exact Hlt.
    + cbn [bindOpt option_map]. split; [|reflexivity]. intros _.
      apply textSection_none in E2 as [H _]. right; left. exact H.
  - cbn [bindOpt option_map]. split; [|reflexivity]. intros _.
    apply textSection_none in E1 as [H _]. left. exact H.
Qed.

Lemma textSection_parts (name : jsstring) (f : file) (cap : N) (st st' : digestState) :
  textSection name f cap st = Some st' ->
  exists more, contextParts st' = contextParts st ++ more.
Proof.
  unfold textSection. destruct (existsSync f && (totalChars st <? MAX_TOTAL)%N).
  - destruct f; try discriminate. intros [= <-]. eexists. reflexivity.
  - intros [= <-]. exists []. symmetry. apply app_nil_r.
Qed.

Lemma textSection_readable (name text : jsstring) (cap : N) (st : digestState) :
  (totalChars st < MAX_TOTAL)%N ->
  textSection name (Readable text) cap st
  = Some (pushPart name
            (substringTo (N.to_nat (N.min cap (MAX_TOTAL - totalChars st))) text)
            (strlen (substringTo (N.to_nat (N.min cap (MAX_TOTAL - totalChars st)))
                       text))
            (noteRead name st)).
Proof.
  intros H. unfold textSection. cbn [existsSync andb].
  apply N.ltb_lt in H. rewrite H. reflexivity.
Qed.

Lemma manifestSection_parts (m : manifest) (st : digestState) :
  exists more, contextParts (manifestSection m st) = contextParts st ++ more.
Proof.
  unfold manifestSection.
  destruct (manifestExists m && (totalChars st <? MAX_TOTAL)%N);
    [destruct m|]; try (exists []; symmetry; apply app_nil_r).
  eexists. reflexivity.
Qed.

Lemma structureSection_parts (root : option (list dirent)) (st : digestState) :
  exists more, contextParts (structureSection root st) = contextParts st ++ more.
Proof.
  unfold structureSection. destruct (totalChars st <? MAX_TOTAL)%N.
  - eexists. reflexivity.
  - exists []. symmetry. apply app_nil_r.
Qed.

(** X3. The two files of highest priority always receive their full share:
    whenever CLAUDE.md and README.md can be read, the digest begins with the
    CLAUDE.md section holding the first 2000 characters of the file, followed
    by the README.md section holding the first 2000 characters of that file;
    the global budget never shortens either of them. *)
Theorem digest_begins_with_guidelines_and_readme
  (ws : workspace) (guidelines readme digest : jsstring) :
  claudeMd ws = Readable guidelines ->
  readmeMd ws = Readable readme ->
  getProjectContext ws = Some digest ->
  exists sections,
    digest
    = join [LF; LF]
        ((str "## CLAUDE.md" ++ [LF] ++ substringTo (N.to_nat MAX_FILE_SIZE) guidelines)
         :: (str "## README.md" ++ [LF] ++ substringTo (N.to_nat MAX_FILE_SIZE) readme)
         :: sections).
Proof.
  intros HC HR. unfold getProjectContext, runProjectContext.
  rewrite HC, HR.
  change (guidelinesSection (str "CLAUDE.md") (Readable guidelines) emptyDigest)
    with (Some (pushPart (str "CLAUDE.md")
                  (substringTo (N.to_nat MAX_FILE_SIZE) guidelines)
                  (strlen (substringTo (N.to_nat MAX_FILE_SIZE) guidelines))
                  (noteRead (str "CLAUDE.md") emptyDigest))).
  cbn [bindOpt].
  set (s1 := pushPart (str "CLAUDE.md") _ _ _).
  assert (T1 : (totalChars s1 <= MAX_FILE_SIZE)%N).
  { subst s1. unfold pushPart, noteRead, emptyDigest. cbn [totalChars].
    rewrite strlen_substringTo. lia. }
  assert (L1 : (totalChars s1 < MAX_TOTAL)%N).
  { unfold MAX_FILE_SIZE, MAX_TOTAL in *. lia. }
  rewrite (textSection_readable (str "README.md") readme MAX_FILE_SIZE s1 L1).
  assert (M : N.min MAX_FILE_SIZE (MAX_TOTAL - totalChars s1) = MAX_FILE_SIZE).
  { unfold MAX_FILE_SIZE, MAX_TOTAL in *. lia. }
  rewrite M. cbn [bindOpt].
  set (s2 := pushPart (str "README.md") _ _ _).
  destruct (manifestSection_parts (packageJson ws) s2) as [m3 P3].
  destruct (textSection (str "pyproject.toml") (pyprojectToml ws) 1000
              (manifestSection (packageJson ws) s2)) as [s4|] eqn:E4;
    [|discriminate].
  destruct (textSection_parts _ _ _ _ _ E4) as [m4 P4].
  destruct (structureSection_parts (rootListing ws) s4) as [m5 P5].
  cbn [bindOpt option_map]. intros [= <-].
  exists (m3 ++ m4 ++ m5). rewrite P5, P4, P3. subst s2 s1.
  unfold pushPart, noteRead, emptyDigest. cbn [contextParts app].
  rewrite <- !app_assoc. reflexivity.
Qed.

End DigestPriorities.

Lemma digest_begins_with_guidelines_and_readme_witness :
  exists digest sections,
    ClaudeCodeService.getProjectContext fullWorkspace = Some digest
    /\ digest
       = join [LF; LF]
           ((str "## CLAUDE.md" ++ [LF] ++ repeat 97%N 2000)
            :: (str "## README.md" ++ [LF] ++ repeat 98%N 2000)
            :: sections).
Proof.
  destruct (ClaudeCodeService.getProjectContext fullWorkspace) as [digest|] eqn:E;
    [|vm_compute in E; discriminate].
  destruct (digest_begins_with_guidelines_and_readme fullWorkspace
              (repeat 97%N 2000) (repeat 98%N 2000) digest eq_refl eq_refl E)
    as [sections H].
  exists digest, sections. split; [reflexivity|exact H].
Defined.

(** ** The assistant client: exit, spawn failure and the probe *)

Section ExitFacts.

Import ClaudeCodeService.

Variable showSeconds : N -> jsstring.

Lemma runEvents_stderr (t : N) (events : list event) (st : running) :
  forallb isOutput events = true ->
  stderr (runEvents showSeconds t events st) = stderr st ++ stderrOf events.
Proof.
  revert st. induction events as [|ev events IH]; intros st H.
  - cbn. symmetry. apply app_nil_r.
  - cbn [forallb] in H. apply andb_true_iff in H as [Hev H].
    change (runEvents showSeconds t (ev :: events) st)
      with (runEvents showSeconds t events (handle showSeconds t st ev)).
    rewrite (IH _ H).
    destruct ev; try discriminate; cbn [handle stderr stderrOf];
      [reflexivity|rewrite app_assoc; reflexivity|reflexivity].
Qed.

(** Once the watchdog is off it stays off, and nothing kills the process. *)
Lemma runEvents_disarmed (t : N) (events : list event) (st : running) :
  timeoutId st = false ->
  killed (runEvents showSeconds t events st) = killed st.
Proof.
  revert st. induction events as [|ev events IH]; intros st H; [reflexivity|].
  change (runEvents showSeconds t (ev :: events) st)
    with (runEvents showSeconds t events (handle showSeconds t st ev)).
  assert (Hev : timeoutId (handle showSeconds t st ev) = false
                /\ killed (handle showSeconds t st ev) = killed st).
  { destruct ev; cbn [handle]; try rewrite H; cbn [timeoutId killed];
      split; first [exact H|reflexivity]. }
  destruct Hev as [Hid Hk]. rewrite (IH _ Hid). exact Hk.
Qed.

(** The state when the first callback other than output runs. *)
Lemma runEvents_before (t : N) (before : list event) :
  forallb isOutput before = true ->
  runEvents showSeconds t before started
  = {| stdout := stdoutOf before; stderr := stderrOf before; settled := Pending;
       timeoutId := true; waitingInterval := true; killed := false |}.
Proof.
  intros H. rewrite (runEvents_output showSeconds t before started H).
  rewrite (runEvents_stderr t before started H). reflexivity.
Qed.

(** X4. When the process exits before the timeout, the promise is fulfilled
    by the close handler, whatever callbacks follow: success exactly when
    the exit code is 0, content the trimmed standard output, and on a
    non-zero or missing exit code the error is the standard error text, or
    the exit code message when standard error is empty. The process is
    never killed afterwards. *)
Theorem execute_reports_exit_code
  (timeout : option N) (before after : list event) (code : option Z) :
  forallb isOutput before = true ->
  exists response,
    execute showSeconds timeout (before ++ Close code :: after) = Fulfilled response
    /\ success response = exitedCleanly code
    /\ content response = trim (stdoutOf before)
    /\ error response
       = (if exitedCleanly code then None
          else Some (orElse (Some (stderrOf before))
                       (str "Process exited with code " ++ showCode code)))
    /\ killed (runEvents showSeconds (effectiveTimeout timeout)
                 (before ++ Close code :: after) started) = false.
Proof.
  intros H. set (t := effectiveTimeout timeout).
  exists (closeResponse code (stdoutOf before) (stderrOf before)).
  assert (E : runEvents showSeconds t (before ++ Close code :: after) started
              = runEvents showSeconds t after
                  {| stdout := stdoutOf before; stderr := stderrOf before;
                     settled := Fulfilled (closeResponse code (stdoutOf before)
                                             (stderrOf before));
                     timeoutId := false; waitingInterval := false;
                     killed := false |}).
  { rewrite runEvents_app, (runEvents_before t before H). reflexivity. }
  split; [|split; [|split; [|split]]].
  - unfold execute. fold t. rewrite E.
    apply runEvents_keeps_value. reflexivity.
  - destruct code as [[| |]|]; reflexivity.
  - destruct code as [[| |]|]; reflexivity.
  - destruct code as [[| |]|]; reflexivity.
  - rewrite E. apply runEvents_disarmed. reflexivity.
Qed.

(** X5. When the process cannot be started (the error event comes before
    close and before the timeout), the promise is fulfilled with
    success = false, an empty content even if output had been captured, and
    an error text that embeds the message of the error and the hint to
    install the CLI. *)
Theorem execute_reports_spawn_failure
  (timeout : option N) (before after : list event) (message : jsstring) :
  forallb isOutput before = true ->
  exists response,
    execute showSeconds timeout (before ++ ProcError message :: after)
    = Fulfilled response
    /\ success response = false
    /\ content response = []
    /\ error response
       = Some (str "Failed to execute Claude Code: " ++ message
               ++ str ". Make sure 'claude' CLI is installed.").
Proof.
  intros H. set (t := effectiveTimeout timeout).
  exists (errorResponse message).
  split; [|repeat split].
  unfold execute. fold t.
  rewrite runEvents_app, (runEvents_before t before H).
  change (runEvents showSeconds t (ProcError message :: after) ?st)
    with (runEvents showSeconds t after (handle showSeconds t st (ProcError message))).
  apply runEvents_keeps_value. reflexivity.
Qed.

(** *** isAvailable *)

Lemma probe_keeps_value (events : list event) (st : probe) (v : bool) :
  verdict st = Fulfilled v ->
  verdict (fold_left probeHandle events st) = Fulfilled v.
Proof.
  revert st. induction events as [|ev events IH]; intros st H; [exact H|].
  cbn [fold_left]. apply IH.
  destruct ev; cbn [probeHandle verdict]; rewrite ?H; reflexivity.
Qed.

Lemma probe_from_pending (events : list event) (k : bool) :
  verdict (fold_left probeHandle events {| verdict := Pending; probeKilled := k |})
  = Fulfilled true
  <-> exists before code after,
        events = before ++ Close code :: after
        /\ forallb isOutput before = true
        /\ exitedCleanly code = true.
Proof.
  revert k. induction events as [|ev events IH]; intros k.
  - cbn. split; [discriminate|].
    intros (before & code & after & E & _). destruct before; discriminate.
  - cbn [fold_left].
    destruct ev as [chunk|chunk| | |code|message]; cbn [probeHandle verdict probeKilled resolve].
    1-3: rewrite IH; split;
      [intros (before & code & after & -> & Hb & Hc);
       eexists (_ :: before), code, after; repeat split; assumption
      |intros (before & code & after & E & Hb & Hc);
       destruct before as [|b before]; [discriminate|];
       injection E as <- ->; cbn [forallb] in Hb;
       apply andb_true_iff in Hb as [_ Hb];
       exists before, code, after; repeat split; assumption].
    + rewrite probe_keeps_value with (v := false) by reflexivity.
      split; [discriminate|].
      intros (before & code & after & E & Hb & _).
      destruct before as [|b before]; [discriminate|].
      injection E as <- _. discriminate.
    + erewrite probe_keeps_value by reflexivity.
      split.
      * intros [= Hc]. exists [], code, events.
        repeat split. unfold exitedCleanly. exact Hc.
      * intros (before & code' & after & E & Hb & Hc).
        destruct before as [|b before].
        -- injection E as <- _. unfold exitedCleanly in Hc. rewrite Hc. reflexivity.
        -- injection E as <- _. discriminate.
    + rewrite probe_keeps_value with (v := false) by reflexivity.
      split; [discriminate|].
      intros (before & code & after & E & Hb & _).
      destruct before as [|b before]; [discriminate|].
      injection E as <- _. discriminate.
Qed.

Lemma probe_never_rejects (events : list event) (st : probe) :
  isRejected (verdict st) = false ->
  isRejected (verdict (fold_left probeHandle events st)) = false.
Proof.
  revert st. induction events as [|ev events IH]; intros st H; [exact H|].
  cbn [fold_left]. apply IH.
  destruct ev; cbn [probeHandle verdict]; try exact H;
    destruct (verdict st); try discriminate; reflexivity.
Qed.

Lemma probe_output (before : list event) (st : probe) :
  forallb isOutput before = true -> fold_left probeHandle before st = st.
Proof.
  revert st. induction before as [|ev before IH]; intros st H; [reflexivity|].
  cbn [forallb] in H. apply andb_true_iff in H as [Hev H].
  cbn [fold_left]. rewrite <- (IH st H) at 2. f_equal.
  destruct ev; try discriminate; reflexivity.
Qed.

(** X6. The availability probe answers with the first callback that is not
    output: while only output has arrived the promise is pending; the first
    close, error or timer callback fulfils it, with true when it is a close
    with exit code 0 and with false in every other case (an error, another
    or no exit code, the five-second timer), and no later callback changes
    the answer. So the answer is true exactly when the process closes with
    exit code 0 before any error and before the timer. The promise is
    rejected exactly when the executor itself throws (in [spawn]). *)
Theorem isAvailable_answers_with_first_settling_callback
  (before after : list event) (ev : event) :
  forallb isOutput before = true ->
  isOutput ev = false ->
  isAvailableCall Launched before = Pending
  /\ isAvailableCall Launched (before ++ ev :: after) = Fulfilled (probeAnswer ev)
  /\ (forall events,
        isAvailableCall Launched events = Fulfilled true
        <-> exists before' code after',
              events = before' ++ Close code :: after'
              /\ forallb isOutput before' = true
              /\ exitedCleanly code = true)
  /\ (forall l events,
        isRejected (isAvailableCall l events) = true
        <-> exists reason, l = ExecutorThrows reason).
Proof.
  intros Hbefore Hev. cbn [isAvailableCall]. unfold isAvailable.
  split; [|split; [|split]].
  - rewrite (probe_output before probing Hbefore). reflexivity.
  - rewrite fold_left_app, (probe_output before probing Hbefore).
    cbn [fold_left]. apply probe_keeps_value.
    destruct ev; try discriminate; reflexivity.
  - intros events. apply probe_from_pending.
  - intros [reason|] events; cbn [isAvailableCall].
    + split; [intros _; exists reason; reflexivity|reflexivity].
    + unfold isAvailable. rewrite probe_never_rejects by reflexivity.
      split; [discriminate|intros [reason H]; discriminate].
Qed.

End ExitFacts.

Lemma isAvailable_answers_with_first_settling_callback_witness :
  forallb isOutput [ClaudeCodeService.StdoutData (str "1.0.0")] = true
  /\ isOutput (ClaudeCodeService.Close (Some 1%Z)) = false
  /\ ClaudeCodeService.isAvailableCall ClaudeCodeService.Launched
       [ClaudeCodeService.StdoutData (str "1.0.0")]
     = ClaudeCodeService.Pending
  /\ ClaudeCodeService.isAvailableCall ClaudeCodeService.Launched
       ([ClaudeCodeService.StdoutData (str "1.0.0")]
        ++ ClaudeCodeService.Close (Some 1%Z)
           :: [ClaudeCodeService.Close (Some 0%Z)])
     = ClaudeCodeService.Fulfilled false.
Proof.
  split; [reflexivity|]. split; [reflexivity|].
  destruct (isAvailable_answers_with_first_settling_callback
              [ClaudeCodeService.StdoutData (str "1.0.0")]
              [ClaudeCodeService.Close (Some 0%Z)]
              (ClaudeCodeService.Close (Some 1%Z)) eq_refl eq_refl)
    as (H1 & H2 & _).
  split; [exact H1|exact H2].
Defined.

Lemma execute_reports_exit_code_witness :
  forallb isOutput
    [ClaudeCodeService.StdoutData (str " done "); ClaudeCodeService.StderrData (str "warn")]
  = true
  /\ exists response,
       ClaudeCodeService.execute secondsText None
         ([ClaudeCodeService.StdoutData (str " done ");
           ClaudeCodeService.StderrData (str "warn")]
          ++ ClaudeCodeService.Close (Some 2%Z) :: [ClaudeCodeService.TimeoutDue])
       = ClaudeCodeService.Fulfilled response
       /\ ClaudeCodeService.success response = false
       /\ ClaudeCodeService.content response = str "done"
       /\ ClaudeCodeService.error response = Some (str "warn")
       /\ ClaudeCodeService.killed
            (ClaudeCodeService.runEvents secondsText 300000%N
               ([ClaudeCodeService.StdoutData (str " done ");
                 ClaudeCodeService.StderrData (str "warn")]
                ++ ClaudeCodeService.Close (Some 2%Z) :: [ClaudeCodeService.TimeoutDue])
               ClaudeCodeService.started) = false.
Proof.
  split; [reflexivity|].
  exact (execute_reports_exit_code secondsText None
           [ClaudeCodeService.StdoutData (str " done ");
            ClaudeCodeService.StderrData (str "warn")]
           [ClaudeCodeService.TimeoutDue] (Some 2%Z) eq_refl).
Defined.

Lemma execute_reports_spawn_failure_witness :
  forallb isOutput [ClaudeCodeService.StdoutData (str "partial")] = true
  /\ exists response,
       ClaudeCodeService.execute secondsText (Some 60000%N)
         ([ClaudeCodeService.StdoutData (str "partial")]
          ++ ClaudeCodeService.ProcError (str "spawn claude ENOENT")
             :: [ClaudeCodeService.Close (Some 0%Z)])
       = ClaudeCodeService.Fulfilled response
       /\ ClaudeCodeService.success response = false
       /\ ClaudeCodeService.content response = []
       /\ ClaudeCodeService.error response
          = Some (str "Failed to execute Claude Code: spawn claude ENOENT. Make sure 'claude' CLI is installed.").
Proof.
  split; [reflexivity|].
  exact (execute_reports_spawn_failure secondsText (Some 60000%N)
           [ClaudeCodeService.StdoutData (str "partial")]
           [ClaudeCodeService.Close (Some 0%Z)] (str "spawn claude ENOENT") eq_refl).
Defined.

(** ** The scan: what it returns and when it fails *)

Section ScanResults.

Import AutoContextService.

Lemma visitEntries_none (depth : nat) (dir : list jsstring) (entries : list node) :
  Forall (fun e => forall depth dir files,
            visitEntry depth dir e files = None <-> blockedAt depth e = true) entries ->
  forall files,
    visitEntries depth dir entries files = None
    <-> existsb (blockedAt depth) entries = true.
Proof.
  induction 1 as [|e es He _ IH]; intros files; cbn [visitEntries existsb].
  - split; discriminate.
  - destruct (visitEntry depth dir e files) as [mid|] eqn:E.
    + rewrite IH. destruct (blockedAt depth e) eqn:B; [|reflexivity].
      apply (He depth dir files) in B. rewrite B in E. discriminate.
    + apply (He depth dir files) in E. rewrite E. split; reflexivity.
Qed.

Lemma visitEntry_none (e : node) :
  forall depth dir files,
    visitEntry depth dir e files = None <-> blockedAt depth e = true.
Proof.
  induction e as [name text|name|name|name entries IH] using node_tree_ind;
    intros depth dir files.
  - cbn [visitEntry blockedAt].
    destruct (endsWith (str ".md") name), text; split; discriminate.
  - rewrite visitEntry_directory. unfold findMarkdownFiles. cbn [blockedAt].
    rewrite andb_false_r.
    destruct (entered name), (Nat.ltb MAX_DEPTH (S depth)); split; discriminate.
  - rewrite visitEntry_directory. unfold findMarkdownFiles. cbn [blockedAt].
    rewrite andb_true_r.
    destruct (entered name), (Nat.ltb MAX_DEPTH (S depth)); cbn [andb negb];
      split; try discriminate; reflexivity.
  - rewrite visitEntry_directory. unfold findMarkdownFiles. cbn [blockedAt].
    destruct (entered name); [|split; discriminate].
    destruct (Nat.ltb MAX_DEPTH (S depth)); [split; discriminate|].
    cbn [andb negb]. apply visitEntries_none. exact IH.
Qed.

(** X9. The scan fails exactly when it has to list a directory and cannot:
    the root itself when it exists, or a directory the scan enters, one that
    is neither on the skip list nor hidden, at most five levels below the
    root. A root that does not exist gives the empty result; unreadable
    files, and directories the scan does not enter, never make it fail. *)
Theorem scan_fails_exactly_on_entered_unlistable_directory (root : listing node) :
  scanMarkdownFiles root = None <-> scanBlocked root = true.
Proof.
  unfold scanMarkdownFiles, findMarkdownFiles, scanBlocked.
  cbn [Nat.ltb Nat.leb MAX_DEPTH].
  destruct root as [| |entries].
  - split; discriminate.
  - split; reflexivity.
  - apply visitEntries_none. apply Forall_forall. intros e _. apply visitEntry_none.
Qed.

Lemma visitEntry_scanned (e : node) :
  forall depth dir files files',
    Forall scanned files ->
    visitEntry depth dir e files = Some files' ->
    Forall scanned files'.
Proof.
  induction e as [name text|name|name|name entries IH] using node_tree_ind;
    intros depth dir files files' Hfiles.
  - cbn [visitEntry]. destruct (endsWith (str ".md") name) eqn:Hmd;
      [|intros [= <-]; exact Hfiles].
    destruct text as [content|]; intros [= <-]; [|exact Hfiles].
    apply Forall_app. split; [exact Hfiles|]. constructor; [|constructor].
    unfold scanned, markdownFile;
      cbn [AutoContextService.name path AutoContextService.content title description].
    rewrite last_last. repeat split. exact Hmd.
  - rewrite visitEntry_directory. unfold findMarkdownFiles.
    destruct (entered name), (Nat.ltb MAX_DEPTH (S depth));
      intros [= <-]; exact Hfiles.
  - rewrite visitEntry_directory. unfold findMarkdownFiles.
    destruct (entered name), (Nat.ltb MAX_DEPTH (S depth));
      intros E; try discriminate E; injection E as <-; exact Hfiles.
  - rewrite visitEntry_directory. unfold findMarkdownFiles.
    destruct (entered name); [|intros [= <-]; exact Hfiles].
    destruct (Nat.ltb MAX_DEPTH (S depth)); [intros [= <-]; exact Hfiles|].
    revert files Hfiles.
    induction IH as [|e es He _ IHes]; intros files Hfiles; cbn [visitEntries].
    + intros [= <-]. exact Hfiles.
    + destruct (visitEntry (S depth) (dir ++ [name]) e files) as [mid|] eqn:E;
        [|discriminate].
      apply IHes. exact (He _ _ _ _ Hfiles E).
Qed.

(** X8. Every record a completed scan returns is a markdown file: its name
    ends in .md and is the last component of its path, and its title and
    description are what parseMarkdown finds in its content; the description,
    if any, has at most 200 characters. *)
Theorem scan_returns_parsed_markdown_files (root : listing node)
  (files : list MarkdownFile) (f : MarkdownFile) :
  scanMarkdownFiles root = Some files ->
  In f files ->
  endsWith (str ".md") (name f) = true
  /\ last (path f) [] = name f
  /\ title f = fst (parseMarkdown (content f))
  /\ description f = snd (parseMarkdown (content f))
  /\ (forall d, description f = Some d -> length d <= 200).
Proof.
  intros Hscan Hin.
  assert (H : Forall scanned files).
  { revert Hscan. unfold scanMarkdownFiles, findMarkdownFiles.
    cbn [Nat.ltb Nat.leb MAX_DEPTH].
    destruct root as [| |entries];
      [intros [= <-]; constructor|discriminate|].
    assert (G : forall acc, Forall scanned acc ->
                  visitEntries 0 [] entries acc = Some files -> Forall scanned files).
    { induction entries as [|e es IH]; intros acc Hacc; cbn [visitEntries].
      - intros [= <-]. exact Hacc.
      - destruct (visitEntry 0 [] e acc) as [mid|] eqn:E; [|discriminate].
        apply IH. exact (visitEntry_scanned e 0 [] acc mid Hacc E). }
    apply G. constructor. }
  rewrite Forall_forall in H. destruct (H f Hin) as (H1 & H2 & H3 & H4).
  repeat split; try assumption.
  intros d Hd. rewrite H4 in Hd. exact (description_at_most_200 _ _ Hd).
Qed.

(** X10. The description parseMarkdown returns has at most 200 characters
    and is taken from one line of the content: that line trimmed and cut to
    200 characters, where the trimmed line is not empty, does not begin with
    a hash sign and is not three hyphens. *)
Theorem parseMarkdown_description_comes_from_a_line (content d : jsstring) :
  snd (parseMarkdown content) = Some d ->
  length d <= 200
  /\ exists raw,
       In raw (split LF content)
       /\ d = substringTo 200 (trim raw)
       /\ isEmpty (trim raw) = false
       /\ startsWith [HASH] (trim raw) = false
       /\ streq (trim raw) (str "---") = false.
Proof.
  intros H. split; [exact (description_at_most_200 content d H)|].
  revert H. unfold parseMarkdown. cbn [snd]. apply scanDescription_spec.
Qed.

End ScanResults.

Lemma scan_fails_exactly_on_entered_unlistable_directory_example :
  option_map (map AutoContextService.path)
    (AutoContextService.scanMarkdownFiles guardedTree)
  = Some [[str "a"; str "b"; str "c"; str "d"; str "e"; str "deep.md"]]
  /\ AutoContextService.scanMarkdownFiles
       (AutoContextService.Entries
          [AutoContextService.DirNode (str "docs") AutoContextService.Unlistable])
     = None
  /\ AutoContextService.scanMarkdownFiles AutoContextService.Unlistable = None
  /\ AutoContextService.scanMarkdownFiles AutoContextService.Missing = Some [].
Proof. repeat split; reflexivity. Qed.

Lemma scan_returns_parsed_markdown_files_witness :
  exists files f,
    AutoContextService.scanMarkdownFiles sampleTree = Some files
    /\ In f files
    /\ AutoContextService.path f = [str "docs"; str "guide.md"]
    /\ endsWith (str ".md") (AutoContextService.name f) = true
    /\ last (AutoContextService.path f) [] = AutoContextService.name f
    /\ AutoContextService.title f = Some (str "Page")
    /\ AutoContextService.description f = Some (str "Text.").
Proof.
  destruct (AutoContextService.scanMarkdownFiles sampleTree) as [files|] eqn:E;
    [|vm_compute in E; discriminate E].
  exists files.
  exists (AutoContextService.markdownFile (str "guide.md") [str "docs"; str "guide.md"]
            (unlines [str "# Page"; str ""; str "Text."])).
  assert (Hin : In (AutoContextService.markdownFile (str "guide.md")
                      [str "docs"; str "guide.md"]
                      (unlines [str "# Page"; str ""; str "Text."])) files).
  { vm_compute in E. injection E as <-. right. left. reflexivity. }
  destruct (scan_returns_parsed_markdown_files sampleTree files _ E Hin)
    as (H1 & H2 & _).
  split; [reflexivity|]. split; [exact Hin|]. split; [reflexivity|].
  split; [exact H1|]. split; [exact H2|]. split; reflexivity.
Defined.

Lemma parseMarkdown_description_comes_from_a_line_witness :
  snd (AutoContextService.parseMarkdown
         (unlines [str "# Title"; str ""; str "  Hello world.  "]))
  = Some (str "Hello world.")
  /\ length (str "Hello world.") <= 200
  /\ exists raw,
       In raw (split LF (unlines [str "# Title"; str ""; str "  Hello world.  "]))
       /\ str "Hello world." = substringTo 200 (trim raw)
       /\ AutoContextService.isEmpty (trim raw) = false
       /\ startsWith [AutoContextService.HASH] (trim raw) = false
       /\ streq (trim raw) (str "---") = false.
Proof.
  split; [reflexivity|].
  exact (parseMarkdown_description_comes_from_a_line
           (unlines [str "# Title"; str ""; str "  Hello world.  "])
           (str "Hello world.") eq_refl).
Defined.

(** ** The context marker: stripping and injecting *)

Section MarkerFacts.

Import AutoContextService.

(** *** Occurrences *)

Lemma indexOf_unfold (p s : jsstring) :
  indexOf p s
  = if startsWith p s then Some 0
    else match s with
         | [] => None
         | _ :: s' => option_map S (indexOf p s')
         end.
Proof. destruct s; reflexivity. Qed.

(** The index found is that of the first occurrence. *)
Lemma indexOf_some (p s : jsstring) (i : nat) :
  indexOf p s = Some i ->
  i <= length s
  /\ startsWith p (skipn i s) = true
  /\ forall j, j < i -> startsWith p (skipn j s) = false.
Proof.
  revert i. induction s as [|c s IH]; intros i; rewrite indexOf_unfold.
  - destruct (startsWith p []) eqn:E; [|discriminate].
    intros [= <-]. repeat split; [cbn; lia|exact E|lia].
  - destruct (startsWith p (c :: s)) eqn:E.
    + intros [= <-]. repeat split; [cbn; lia|exact E|lia].
    + destruct (indexOf p s) as [k|]; [|discriminate].
      cbn [option_map]. intros [= <-].
      destruct (IH k eq_refl) as (Hk & Hat & Hmin).
      repeat split; [cbn [length]; lia|exact Hat|].
      intros [|j] Hj; [exact E|]. cbn [skipn]. apply Hmin. lia.
Qed.

(** An occurrence anywhere gives an index. *)
Lemma indexOf_found (p s : jsstring) (j : nat) :
  startsWith p (skipn j s) = true -> exists i, indexOf p s = Some i.
Proof.
  revert j. induction s as [|c s IH]; intros j H; rewrite indexOf_unfold.
  - rewrite skipn_nil in H. rewrite H. eexists; reflexivity.
  - destruct (startsWith p (c :: s)) eqn:E; [eexists; reflexivity|].
    destruct j as [|j]; [cbn [skipn] in H; congruence|].
    cbn [skipn] in H. destruct (IH j H) as [i ->]. eexists; reflexivity.
Qed.

Lemma includes_prefix (p a b : jsstring) :
  includes p (a ++ b) = false -> includes p a = false.
Proof.
  unfold includes. destruct (indexOf p a) as [i|] eqn:E; [|reflexivity].
  destruct (indexOf_some p a i E) as (Hi & Hat & _).
  assert (Hat' : startsWith p (skipn i (a ++ b)) = true).
  { rewrite skipn_app. replace (i - length a) with 0 by lia. cbn [skipn].
    apply startsWith_app_r, Hat. }
  destruct (indexOf_found p (a ++ b) i Hat') as [k ->]. discriminate.
Qed.

Lemma startsWith_length (p s : jsstring) :
  startsWith p s = true -> length p <= length s.
Proof.
  revert s. induction p as [|x p IH]; intros s H; [cbn; lia|].
  destruct s as [|y s]; [discriminate|]. cbn [startsWith] in H.
  apply andb_true_iff in H as [_ H]. apply IH in H. cbn [length]. lia.
Qed.

(** Nothing occurs before the first occurrence. *)
Lemma includes_before_index (p s : jsstring) (i : nat) :
  p <> [] -> indexOf p s = Some i -> includes p (firstn i s) = false.
Proof.
  intros Hp E. destruct (indexOf_some p s i E) as (Hi & _ & Hmin).
  unfold includes. destruct (indexOf p (firstn i s)) as [j|] eqn:Ej; [|reflexivity].
  destruct (indexOf_some p (firstn i s) j Ej) as (Hj & Hat & _).
  pose proof (startsWith_length _ _ Hat) as Hlen.
  rewrite length_skipn, length_firstn in Hlen.
  assert (Hpos : 0 < length p) by (destruct p; [congruence|cbn; lia]).
  assert (Hlt : j < i) by lia.
  assert (Hat' : startsWith p (skipn j s) = true).
  { rewrite <- (firstn_skipn i s) at 1. rewrite skipn_app.
    apply startsWith_app_r, Hat. }
  rewrite (Hmin j Hlt) in Hat'. discriminate.
Qed.

Lemma trimEnd_prefix (s : jsstring) : exists w, s = trimEnd s ++ w.
Proof.
  exists (rev (takeWhile isSpace (rev s))). unfold trimEnd.
  rewrite <- rev_app_distr, takeWhile_dropWhile. symmetry. apply rev_involutive.
Qed.

Lemma contextMarker_not_nil : contextMarker <> [].
Proof. discriminate. Qed.

Lemma removeOldContext_clean (content : jsstring) :
  includes contextMarker (removeOldContext content) = false.
Proof.
  unfold removeOldContext.
  destruct (indexOf contextMarker content) as [i|] eqn:E.
  - destruct (trimEnd_prefix (substringTo i content)) as [w Hw].
    apply (includes_prefix _ _ w). rewrite <- Hw.
    apply includes_before_index; [exact contextMarker_not_nil|exact E].
  - unfold includes. rewrite E. reflexivity.
Qed.

Lemma removeOldContext_without_marker (content : jsstring) :
  includes contextMarker content = false -> removeOldContext content = content.
Proof.
  unfold includes, removeOldContext.
  destruct (indexOf contextMarker content); [discriminate|reflexivity].
Qed.

(** X11. Stripping the old context keeps a prefix of the text, leaves no
    occurrence of the marker in it, and is idempotent: a second strip
    changes nothing. *)
Theorem removeOldContext_leaves_no_marker (content : jsstring) :
  (exists dropped, content = removeOldContext content ++ dropped)
  /\ includes contextMarker (removeOldContext content) = false
  /\ removeOldContext (removeOldContext content) = removeOldContext content.
Proof.
  split; [|split].
  - unfold removeOldContext.
    destruct (indexOf contextMarker content) as [i|]; [|exists []; symmetry; apply app_nil_r].
    destruct (trimEnd_prefix (substringTo i content)) as [w Hw].
    exists (w ++ substringFrom i content).
    rewrite app_assoc, <- Hw. symmetry. apply firstn_skipn.
  - apply removeOldContext_clean.
  - apply removeOldContext_without_marker, removeOldContext_clean.
Qed.

(** *** Searching past a unit the pattern does not hold *)

Lemma indexOf_past (c : char) (p a x : jsstring) :
  ~ In c p -> p <> [] ->
  indexOf p (a ++ c :: x)
  = match indexOf p a with
    | Some i => Some i
    | None => option_map (fun k => S (length a + k)) (indexOf p x)
    end.
Proof.
  intros Hc Hp. induction a as [|d a IH].
  - cbn [app length]. rewrite (indexOf_unfold p (c :: x)).
    rewrite (startsWith_before c p [] x Hc : startsWith p (c :: x) = startsWith p []).
    rewrite (indexOf_unfold p []).
    destruct p as [|y p]; [congruence|]. cbn [startsWith].
    destruct (indexOf (y :: p) x); reflexivity.
  - change ((d :: a) ++ c :: x) with (d :: (a ++ c :: x)).
    rewrite (indexOf_unfold p (d :: a ++ c :: x)), (indexOf_unfold p (d :: a)).
    rewrite (startsWith_before c p (d :: a) x Hc
             : startsWith p (d :: a ++ c :: x) = startsWith p (d :: a)).
    destruct (startsWith p (d :: a)); [reflexivity|].
    rewrite IH. destruct (indexOf p a); [reflexivity|].
    destruct (indexOf p x); reflexivity.
Qed.

Lemma contextMarker_without_LF : ~ In LF contextMarker.
Proof. cbv. intuition discriminate. Qed.

Lemma trimEnd_line_feeds (s : jsstring) : trimEnd (s ++ [LF; LF]) = trimEnd s.
Proof. unfold trimEnd. rewrite rev_app_distr. reflexivity. Qed.

(** A text that holds no marker, followed by two line feeds and the
    marker, is cut back to itself. *)
Lemma removeOldContext_injected (base tail : jsstring) :
  includes contextMarker base = false ->
  removeOldContext (base ++ [LF; LF] ++ contextMarker ++ tail) = trimEnd base.
Proof.
  intros Hbase. unfold removeOldContext.
  assert (E : indexOf contextMarker (base ++ [LF; LF] ++ contextMarker ++ tail)
              = Some (length (base ++ [LF; LF]))).
  { change (base ++ [LF; LF] ++ contextMarker ++ tail)
      with (base ++ LF :: ([] ++ LF :: (contextMarker ++ tail))).
    rewrite (indexOf_past LF contextMarker base _
               contextMarker_without_LF contextMarker_not_nil).
    unfold includes in Hbase.
    destruct (indexOf contextMarker base); [discriminate|].
    rewrite (indexOf_past LF contextMarker [] _
               contextMarker_without_LF contextMarker_not_nil).
    change (indexOf contextMarker []) with (@None nat).
    rewrite (indexOf_unfold contextMarker (contextMarker ++ tail)), startsWith_app.
    cbn [option_map length]. rewrite length_app. cbn [length]. f_equal. lia. }
  rewrite E. unfold substringTo.
  rewrite (app_assoc base [LF; LF]).
  rewrite firstn_app, firstn_all, Nat.sub_diag. cbn [firstn].
  rewrite app_nil_r. apply trimEnd_line_feeds.
Qed.

Variable projectName : jsstring.
Variable toLowerCase : jsstring -> jsstring.
Variable relative : MarkdownFile -> jsstring.

Lemma generateContextSection_header (files : list MarkdownFile) :
  exists tail,
    generateContextSection projectName toLowerCase relative files
    = [LF; LF] ++ contextMarker ++ tail.
Proof. unfold generateContextSection. eexists. reflexivity. Qed.

(** X12. What the updater appends is what the next update strips: for every
    text that holds no marker, appending the generated context section and
    then stripping the old context gives the text back, without its
    trailing white space. *)
Theorem strip_undoes_generated_context (base : jsstring) (files : list MarkdownFile) :
  includes contextMarker base = false ->
  removeOldContext
    (base ++ generateContextSection projectName toLowerCase relative files)
  = trimEnd base.
Proof.
  intros H. destruct (generateContextSection_header files) as [tail ->].
  apply removeOldContext_injected, H.
Qed.

End MarkerFacts.

Lemma strip_undoes_generated_context_witness :
  includes AutoContextService.contextMarker (str "You review code.  ") = false
  /\ AutoContextService.removeOldContext
       (str "You review code.  "
        ++ AutoContextService.generateContextSection (str "demo") lowerAscii slashPath
             sampleDocs)
     = str "You review code.".
Proof.
  split; [reflexivity|].
  exact (strip_undoes_generated_context (str "demo") lowerAscii slashPath
           (str "You review code.  ") sampleDocs eq_refl).
Defined.

(** ** The extracts of CLAUDE.md and of the README *)

Section ExtractFacts.

Import AutoContextService.

Lemma lines_of_unlines (kept : list jsstring) :
  Forall (fun l => ~ In LF l) kept ->
  length (split LF (unlines kept)) <= Nat.max 1 (length kept).
Proof.
  intros H. destruct kept as [|l kept]; [cbn; lia|].
  unfold unlines. rewrite split_join; [lia|discriminate|exact H].
Qed.

Lemma trimEnd_in (s : jsstring) (c : char) : In c (trimEnd s) -> In c s.
Proof.
  unfold trimEnd. intros H. apply in_rev in H.
  apply dropWhile_in in H. apply in_rev. exact H.
Qed.

Lemma trim_in (s : jsstring) (c : char) : In c (trim s) -> In c s.
Proof.
  unfold trim, trimStart. intros H. apply trimEnd_in in H.
  exact (dropWhile_in isSpace s c H).
Qed.

Lemma dropWhile_snoc (p : char -> bool) (a : jsstring) (c : char) :
  p c = false -> dropWhile p (a ++ [c]) <> [].
Proof.
  intros Hc. induction a as [|d a IH]; cbn [app dropWhile].
  - rewrite Hc. discriminate.
  - destruct (p d); [exact IH|discriminate].
Qed.

(** A line that begins with a unit that is not white space does not trim
    to the empty string. *)
Lemma trim_of_text (c : char) (s : jsstring) :
  isSpace c = false -> isEmpty (trim (c :: s)) = false.
Proof.
  intros Hc. unfold trim, trimStart. cbn [dropWhile]. rewrite Hc.
  unfold trimEnd. cbn [rev].
  pose proof (dropWhile_snoc isSpace (rev s) c Hc) as H.
  destruct (dropWhile isSpace (rev s ++ [c])) as [|x r] eqn:E; [congruence|].
  cbn [rev]. destruct (rev r); reflexivity.
Qed.

Lemma heading_not_blank (line : jsstring) :
  startsWith (str "#") line = true -> isEmpty (trim line) = false.
Proof.
  destruct line as [|c s]; [discriminate|].
  change (startsWith (str "#") (c :: s)) with (N.eqb 35 c && true).
  rewrite andb_true_r. intros H. apply N.eqb_eq in H. subst c.
  apply trim_of_text. reflexivity.
Qed.

Lemma starts_not_blank (p s : jsstring) :
  p <> [] -> startsWith p s = true -> isEmpty s = false.
Proof. destruct p, s; try reflexivity; [congruence|discriminate]. Qed.

(** The loop of extractClaudeContext, from any iteration that starts with
    fewer than 15 lines counted. *)
Lemma relevantLines_spec (lines : list jsstring) :
  forall inCodeBlock lineCount,
    lineCount < 15 ->
    length (relevantLines inCodeBlock lineCount lines) <= 15 - lineCount
    /\ Forall (fun line => In line lines
                 /\ isEmpty (trim line) = false
                 /\ startsWith FENCE (trim line) = false
                 /\ streq (trim line) (str "---") = false)
         (relevantLines inCodeBlock lineCount lines).
Proof.
  induction lines as [|line rest IH]; intros inCodeBlock lineCount Hn.
  - cbn [relevantLines length]. split; [lia|constructor].
  - assert (Hrest : forall b n, n < 15 ->
              length (relevantLines b n rest) <= 15 - n
              /\ Forall (fun l => In l (line :: rest)
                           /\ isEmpty (trim l) = false
                           /\ startsWith FENCE (trim l) = false
                           /\ streq (trim l) (str "---") = false)
                   (relevantLines b n rest)).
    { intros b n Hb. destruct (IH b n Hb) as [L F]. split; [exact L|].
      eapply Forall_impl; [|exact F]. cbn beta.
      intros l (H1 & H2). split; [right; exact H1|exact H2]. }
    cbn [relevantLines].
    destruct (startsWith FENCE (trim line)) eqn:Hfence; [apply Hrest, Hn|].
    destruct inCodeBlock; [apply Hrest, Hn|].
    destruct (streq (trim line) (str "---")) eqn:Hrule; [apply Hrest, Hn|].
    assert (Hpushed : isEmpty (trim line) = false ->
              length (if Nat.leb 15 (S lineCount) then [line]
                      else line :: relevantLines false (S lineCount) rest)
              <= 15 - lineCount
              /\ Forall (fun l => In l (line :: rest)
                           /\ isEmpty (trim l) = false
                           /\ startsWith FENCE (trim l) = false
                           /\ streq (trim l) (str "---") = false)
                   (if Nat.leb 15 (S lineCount) then [line]
                    else line :: relevantLines false (S lineCount) rest)).
    { intros Hblank.
      assert (Hline : In line (line :: rest)
                      /\ isEmpty (trim line) = false
                      /\ startsWith FENCE (trim line) = false
                      /\ streq (trim line) (str "---") = false).
      { repeat split; [left; reflexivity|exact Hblank|exact Hfence|exact Hrule]. }
      destruct (Nat.leb_spec 15 (S lineCount)) as [Hfull|Hroom].
      - cbn [length]. split; [lia|]. constructor; [exact Hline|constructor].
      - destruct (Hrest false (S lineCount) Hroom) as [L F].
        cbn [length]. split; [lia|]. constructor; [exact Hline|exact F]. }
    destruct (startsWith (str "#") line) eqn:Hhash.
    { cbn [orb]. apply Hpushed, heading_not_blank, Hhash. }
    destruct (startsWith (str "-") (trim line)) eqn:Hdash.
    { cbn [orb]. apply Hpushed.
      exact (starts_not_blank (str "-") (trim line) ltac:(discriminate) Hdash). }
    destruct (startsWith (str "*") (trim line)) eqn:Hstar.
    { cbn [orb]. apply Hpushed.
      exact (starts_not_blank (str "*") (trim line) ltac:(discriminate) Hstar). }
    cbn [orb].
    destruct (isEmpty (trim line)) eqn:Hblank; cbn [negb andb].
    + destruct (Nat.leb_spec 15 lineCount); [lia|]. apply Hrest, Hn.
    + destruct (Nat.ltb_spec lineCount 15) as [_|Hge]; [|lia].
      apply Hpushed. reflexivity.
Qed.

(** X13. The extract of CLAUDE.md holds at most 15 lines. Each of them is a
    line of the file, is not blank, and is neither a code-fence line nor a
    line of three hyphens. *)
Theorem extractClaudeContext_keeps_at_most_15_lines (content : jsstring) :
  length (split LF (extractClaudeContext content)) <= 15
  /\ exists kept,
       extractClaudeContext content = unlines kept
       /\ length kept <= 15
       /\ Forall (fun line => In line (split LF content)
                    /\ isEmpty (trim line) = false
                    /\ startsWith FENCE (trim line) = false
                    /\ streq (trim line) (str "---") = false) kept.
Proof.
  unfold extractClaudeContext.
  destruct (relevantLines_spec (split LF content) false 0 ltac:(lia)) as [L F].
  split.
  - etransitivity; [apply lines_of_unlines|lia].
    eapply Forall_impl; [|exact F]. cbn beta. intros l (Hin & _).
    pose proof (split_lines_without_sep LF content) as H.
    rewrite Forall_forall in H. exact (H l Hin).
  - eexists. split; [reflexivity|]. split; [lia|exact F].
Qed.

(** The loop of extractReadmeSummary, from any iteration that starts with
    fewer than six lines collected: it only appends, stops at six, and what
    it appends are trimmed lines. *)
Lemma summaryLoop_spec (lines : list jsstring) :
  forall inCodeBlock inFrontmatter passedTitle emptyLineCount summaryLines,
    length summaryLines < 6 ->
    exists added,
      summaryLoop inCodeBlock inFrontmatter passedTitle emptyLineCount
                  summaryLines lines
      = summaryLines ++ added
      /\ length (summaryLines ++ added) <= 6
      /\ Forall (fun l => exists raw,
                   In raw lines /\ l = trim raw
                   /\ isEmpty l = false
                   /\ startsWith (str "#") raw = false
                   /\ startsWith FENCE l = false
                   /\ streq l (str "---") = false
                   /\ isVersionLine raw = false
                   /\ startsWith (str "[![") raw = false
                   /\ isEmptyBlockquote raw = false) added.
Proof.
  induction lines as [|line rest IH];
    intros inCodeBlock inFrontmatter passedTitle emptyLineCount summaryLines Hn.
  - exists []. cbn [summaryLoop]. rewrite app_nil_r.
    split; [reflexivity|]. split; [lia|constructor].
  - assert (Hrest : forall b1 b2 b3 n acc, length acc < 6 ->
              exists added,
                summaryLoop b1 b2 b3 n acc rest = acc ++ added
                /\ length (acc ++ added) <= 6
                /\ Forall (fun l => exists raw,
                             In raw (line :: rest) /\ l = trim raw
                             /\ isEmpty l = false
                             /\ startsWith (str "#") raw = false
                             /\ startsWith FENCE l = false
                             /\ streq l (str "---") = false
                             /\ isVersionLine raw = false
                             /\ startsWith (str "[![") raw = false
                             /\ isEmptyBlockquote raw = false) added).
    { intros b1 b2 b3 n acc Hacc.
      destruct (IH b1 b2 b3 n acc Hacc) as (added & E & L & F).
      exists added. split; [exact E|]. split; [exact L|].
      eapply Forall_impl; [|exact F]. cbn beta.
      intros l (raw & Hin & Hl). exists raw. split; [right; exact Hin|exact Hl]. }
    assert (Hstop : exists added,
              summaryLines = summaryLines ++ added
              /\ length (summaryLines ++ added) <= 6
              /\ Forall (fun l => exists raw,
                           In raw (line :: rest) /\ l = trim raw
                           /\ isEmpty l = false
                           /\ startsWith (str "#") raw = false
                           /\ startsWith FENCE l = false
                           /\ streq l (str "---") = false
                           /\ isVersionLine raw = false
                           /\ startsWith (str "[![") raw = false
                           /\ isEmptyBlockquote raw = false) added).
    { exists []. rewrite app_nil_r. split; [reflexivity|]. split; [lia|constructor]. }
    cbn [summaryLoop].
    destruct (streq (trim line) (str "---")) eqn:Hrule; [apply Hrest, Hn|].
    destruct inFrontmatter; [apply Hrest, Hn|].
    destruct (startsWith FENCE (trim line)) eqn:Hfence; [apply Hrest, Hn|].
    destruct inCodeBlock; [apply Hrest, Hn|].
    destruct (startsWith (str "# ") line && negb passedTitle); [apply Hrest, Hn|].
    destruct (startsWith (str "#") line) eqn:Hhash; [exact Hstop|].
    destruct (isEmpty (trim line)) eqn:Hblank.
    { destruct (Nat.ltb 2 (S emptyLineCount) && Nat.ltb 0 (length summaryLines));
        [exact Hstop|apply Hrest, Hn]. }
    destruct (isVersionLine line) eqn:Hversion; [apply Hrest, Hn|].
    destruct (startsWith (str "[![") line) eqn:Hbadge; [apply Hrest, Hn|].
    destruct (isEmptyBlockquote line) eqn:Hquote; [apply Hrest, Hn|].
    assert (Hline : exists raw,
              In raw (line :: rest) /\ trim line = trim raw
              /\ isEmpty (trim line) = false
              /\ startsWith (str "#") raw = false
              /\ startsWith FENCE (trim line) = false
              /\ streq (trim line) (str "---") = false
              /\ isVersionLine raw = false
              /\ startsWith (str "[![") raw = false
              /\ isEmptyBlockquote raw = false).
    { exists line. repeat split; try assumption. left; reflexivity. }
    destruct (Nat.leb_spec 6 (length (summaryLines ++ [trim line]))) as [Hfull|Hroom].
    + exists [trim line]. split; [reflexivity|].
      split; [rewrite length_app; cbn [length]; lia|].
      constructor; [exact Hline|constructor].
    + destruct (Hrest false false passedTitle 0 (summaryLines ++ [trim line]) Hroom)
        as (added & E & L & F).
      exists (trim line :: added). rewrite E, <- app_assoc.
      split; [reflexivity|]. split; [rewrite <- app_assoc in L; exact L|].
      constructor; [exact Hline|exact F].
Qed.

(** X14. The summary of the README holds at most six lines. Each of them
    is the trim of a line of the file, and is not blank, not a code fence and
    not three hyphens. The line it comes from, as it stands in the file
    before trimming, does not begin with a hash sign and is neither a version
    line, a badge line nor an empty blockquote: these four tests look at the
    untrimmed line, so an indented heading, version line, badge or
    blockquote mark is returned. *)
Theorem extractReadmeSummary_keeps_at_most_six_lines (content : jsstring) :
  length (split LF (extractReadmeSummary content)) <= 6
  /\ exists kept,
       extractReadmeSummary content = unlines kept
       /\ length kept <= 6
       /\ Forall (fun l => exists raw,
                    In raw (split LF content) /\ l = trim raw
                    /\ isEmpty l = false
                    /\ startsWith (str "#") raw = false
                    /\ startsWith FENCE l = false
                    /\ streq l (str "---") = false
                    /\ isVersionLine raw = false
                    /\ startsWith (str "[![") raw = false
                    /\ isEmptyBlockquote raw = false) kept.
Proof.
  unfold extractReadmeSummary.
  destruct (summaryLoop_spec (split LF content) false false false 0 []
              ltac:(cbn; lia)) as (added & E & L & F).
  rewrite E. cbn [app] in *. split.
  - etransitivity; [apply lines_of_unlines|lia].
    eapply Forall_impl; [|exact F]. cbn beta. intros l (raw & Hin & -> & _) Hlf.
    apply trim_in in Hlf.
    pose proof (split_lines_without_sep LF content) as H.
    rewrite Forall_forall in H. exact (H raw Hin Hlf).
  - exists added. split; [reflexivity|]. split; [exact L|exact F].
Qed.

(** The four tests on the untrimmed line let indented lines through. *)
Example extractReadmeSummary_returns_indented_heading :
  extractReadmeSummary
    (unlines [str "# Title"; str "  # looks like a heading"; str " Version: 1.2.3";
              str " >"; str "# Next"; str "not reached"])
  = unlines [str "# looks like a heading"; str "Version: 1.2.3"; str ">"].
Proof. vm_compute. reflexivity. Qed.

End ExtractFacts.

(** ** The static analysis: technologies, suggestions and templates *)

Section StaticFacts.

Import AutoContextService.

Lemma Subsequence_app (a b c d : list jsstring) :
  Subsequence a b -> Subsequence c d -> Subsequence (a ++ c) (b ++ d).
Proof.
  intros H1 H2. induction H1; cbn [app]; [exact H2| |]; constructor; assumption.
Qed.

Lemma Subsequence_none (b : list jsstring) : Subsequence [] b.
Proof. induction b; constructor; assumption. Qed.

Lemma Subsequence_one (x : jsstring) (b : list jsstring) :
  In x b -> Subsequence [x] b.
Proof.
  induction b as [|y b IH]; intros []; [subst y|].
  - apply Subsequence_take, Subsequence_none.
  - apply Subsequence_skip, IH. assumption.
Qed.

(** *** Definition texts that are already normalized *)

Lemma header_block_shape (a b c : jsstring) (body : list jsstring) :
  unlines (str "---" :: a :: b :: c :: str "---" :: body)
  = OPEN ++ unlines [a; b; c] ++ CLOSE
    ++ match body with [] => [] | _ :: _ => LF :: unlines body end.
Proof.
  unfold unlines, OPEN, CLOSE. destruct body as [|l body]; cbn [join];
    rewrite <- ?app_assoc, ?app_nil_r; reflexivity.
Qed.

Lemma literal_then_value (c : char) (literal value : jsstring) :
  ~ In c literal -> ~ In c value -> ~ In c (literal ++ value).
Proof. intros H1 H2 H. apply in_app_or in H as [H|H]; contradiction. Qed.

Lemma agent_template_normal (n d agentName : jsstring) (body : list jsstring) :
  noneOf [LF; DOLLAR] n = true ->
  noneOf [LF; DOLLAR] d = true ->
  keepLine (str "name: " ++ n) = Some (str "name: " ++ n) ->
  keepLine (str "description: " ++ d) = Some (str "description: " ++ d) ->
  fixFrontmatterFormat (definitionText n d body) agentName = definitionText n d body
  /\ headerLines (definitionText n d body) = Some (headerOf n d).
Proof.
  intros Hn Hd Kn Kd. unfold definitionText, headerOf. cbn [app].
  rewrite header_block_shape.
  set (rest := match body with [] => [] | _ :: _ => LF :: unlines body end).
  assert (Hlf : Forall (fun l => ~ In LF l)
                  [str "name: " ++ n; str "description: " ++ d; str "model: sonnet"]).
  { repeat constructor.
    - apply literal_then_value; [cbv; intuition discriminate|].
      exact (noneOf_not_in [LF; DOLLAR] n LF Hn (or_introl eq_refl)).
    - apply literal_then_value; [cbv; intuition discriminate|].
      exact (noneOf_not_in [LF; DOLLAR] d LF Hd (or_introl eq_refl)).
    - cbv; intuition discriminate. }
  assert (Hdollar : Forall (fun l => ~ In DOLLAR l)
                  [str "name: " ++ n; str "description: " ++ d; str "model: sonnet"]).
  { repeat constructor.
    - apply literal_then_value; [cbv; intuition discriminate|].
      exact (noneOf_not_in [LF; DOLLAR] n DOLLAR Hn (or_intror (or_introl eq_refl))).
    - apply literal_then_value; [cbv; intuition discriminate|].
      exact (noneOf_not_in [LF; DOLLAR] d DOLLAR Hd (or_intror (or_introl eq_refl))).
    - cbv; intuition discriminate. }
  assert (Hdash : Forall (fun l => startsWith DASHES l = false)
                    (tl [str "name: " ++ n; str "description: " ++ d;
                         str "model: sonnet"])).
  { repeat constructor. }
  split.
  - apply fixFrontmatterFormat_normal; try assumption; try reflexivity;
      [discriminate|].
    repeat constructor; [exact Kn|exact Kd].
  - unfold headerLines.
    rewrite matchFrontmatter_complete by (assumption || discriminate).
    cbn [option_map fst]. unfold unlines. rewrite split_join; [reflexivity|discriminate|exact Hlf].
Qed.

(** A value that does not begin, after white space, with a quote is left
    alone by the loop. *)
Lemma field_line_kept (key value : jsstring) :
  forallb isFieldChar key = true -> key <> [] ->
  hasKey TOOLS (key ++ str ": " ++ value) = false ->
  hasKey ALLOWED_TOOLS (key ++ str ": " ++ value) = false ->
  noneOf [DQUOTE; SQUOTE] value = true ->
  keepLine (key ++ str ": " ++ value) = Some (key ++ str ": " ++ value).
Proof.
  intros Hkey Hnil Ht Ha Hv. unfold keepLine. rewrite Ht, Ha. cbn [orb].
  assert (Hm : matchQuoted (key ++ str ": " ++ value) = None);
    [|rewrite Hm; reflexivity].
  unfold matchQuoted.
  change (key ++ str ": " ++ value) with (key ++ COLON :: 32%N :: value).
  assert (Hstop : stops isSpace (key ++ COLON :: 32%N :: value)).
  { destruct key as [|k key]; [congruence|]. cbn [app stops forallb] in *.
    apply andb_true_iff in Hkey as [Hk _]. apply fieldChar_not_space, Hk. }
  assert (T1 : takeWhile isSpace (key ++ COLON :: 32%N :: value) = [])
    by exact (takeWhile_app isSpace [] _ eq_refl Hstop).
  assert (D1 : dropWhile isSpace (key ++ COLON :: 32%N :: value)
               = key ++ COLON :: 32%N :: value)
    by exact (dropWhile_app isSpace [] _ eq_refl Hstop).
  rewrite T1, D1.
  rewrite (takeWhile_app isFieldChar key (COLON :: 32%N :: value) Hkey eq_refl).
  rewrite (dropWhile_app isFieldChar key (COLON :: 32%N :: value) Hkey eq_refl).
  destruct key as [|k key]; [congruence|].
  rewrite N.eqb_refl.
  change (dropWhile isSpace (32%N :: value)) with (dropWhile isSpace value).
  destruct (dropWhile isSpace value) as [|q r] eqn:E; [reflexivity|].
  assert (Hq : isQuote q = false); [|rewrite Hq; reflexivity].
  assert (Hin : In q value) by (apply (dropWhile_in isSpace); rewrite E; left; reflexivity).
  unfold isQuote. apply orb_false_intro; apply N.eqb_neq; intros ->.
  - exact (noneOf_not_in [DQUOTE; SQUOTE] value DQUOTE Hv (or_introl eq_refl) Hin).
  - exact (noneOf_not_in [DQUOTE; SQUOTE] value SQUOTE Hv
             (or_intror (or_introl eq_refl)) Hin).
Qed.

Lemma plain_value (value : jsstring) :
  noneOf [LF; DOLLAR; DQUOTE; SQUOTE] value = true ->
  noneOf [LF; DOLLAR] value = true
  /\ keepLine (str "name: " ++ value) = Some (str "name: " ++ value)
  /\ keepLine (str "description: " ++ value) = Some (str "description: " ++ value).
Proof.
  intros H.
  assert (Hq : noneOf [DQUOTE; SQUOTE] value = true).
  { apply (noneOf_weaken [LF; DOLLAR; DQUOTE; SQUOTE]); [|exact H].
    intros c [<-|[<-|[]]]; cbn; tauto. }
  split; [|split].
  - apply (noneOf_weaken [LF; DOLLAR; DQUOTE; SQUOTE]); [|exact H].
    intros c [<-|[<-|[]]]; cbn; tauto.
  - apply (field_line_kept (str "name") value); try reflexivity;
      [discriminate|exact Hq].
  - apply (field_line_kept (str "description") value); try reflexivity;
      [discriminate|exact Hq].
Qed.

(** X18. A definition text built by buildAgentTemplate from a name and a
    description that hold no line feed, dollar sign or quote character is
    already normalized, whatever the prompt: fixFrontmatterFormat leaves it
    unchanged, and its header block holds exactly the three keys. *)
Theorem built_template_is_normalized
  (name description promptContent agentName : jsstring) :
  noneOf [LF; DOLLAR; DQUOTE; SQUOTE] name = true ->
  noneOf [LF; DOLLAR; DQUOTE; SQUOTE] description = true ->
  fixFrontmatterFormat (buildAgentTemplate name description promptContent) agentName
  = buildAgentTemplate name description promptContent
  /\ headerLines (buildAgentTemplate name description promptContent)
     = Some (headerOf name description).
Proof.
  intros Hn Hd.
  destruct (plain_value name Hn) as (Pn & Kn & _).
  destruct (plain_value description Hd) as (Pd & _ & Kd).
  exact (agent_template_normal name description agentName
           [str ""; promptContent; str ""] Pn Pd Kn Kd).
Qed.

Lemma nameChar_plain (c : char) :
  Extension.isNameChar c = true ->
  negb (existsb (N.eqb c) [LF; DOLLAR; DQUOTE; SQUOTE]) = true.
Proof.
  unfold Extension.isNameChar, LF, DOLLAR, DQUOTE, SQUOTE, DASH. cbn [existsb].
  intros H. by_ranges.
Qed.

(** X19. The template a new agent is created from is already normalized:
    for every name the input box accepts, fixFrontmatterFormat leaves the
    text of getAgentTemplate unchanged. *)
Theorem new_agent_template_is_normalized (name : jsstring) :
  Extension.validateInput name = None ->
  fixFrontmatterFormat (Extension.getAgentTemplate name) name
  = Extension.getAgentTemplate name
  /\ headerLines (Extension.getAgentTemplate name)
     = Some (headerOf name
               (str "Description of what this agent does and when to use it")).
Proof.
  intros Hvalid.
  assert (Hchars : forallb Extension.isNameChar name = true).
  { unfold Extension.validateInput in Hvalid.
    destruct name as [|c rest]; [discriminate|].
    destruct (forallb Extension.isNameChar (c :: rest)); [reflexivity|discriminate]. }
  assert (Hplain : noneOf [LF; DOLLAR; DQUOTE; SQUOTE] name = true).
  { unfold noneOf. rewrite forallb_forall in *. intros c Hc.
    apply nameChar_plain, Hchars, Hc. }
  destruct (plain_value name Hplain) as (Pn & Kn & _).
  apply (agent_template_normal name
           (str "Description of what this agent does and when to use it"));
    try reflexivity; assumption.
Qed.

(** *** The analysis of the scanned files *)

Variable projectName : jsstring.
Variable toLowerCase : jsstring -> jsstring.
Variable relative : MarkdownFile -> jsstring.

(** X15. detectTechStack lists technologies in one fixed order, each at most
    once, and at most one of each exclusive family: one backend framework,
    one of Angular, React, Vue and Svelte, one database, one
    object-relational mapper. *)
Theorem detectTechStack_is_ordered_and_exclusive (files : list MarkdownFile) :
  Subsequence (detectTechStack toLowerCase files) technologies
  /\ countIn backends (detectTechStack toLowerCase files) <= 1
  /\ countIn frontends (detectTechStack toLowerCase files) <= 1
  /\ countIn databases (detectTechStack toLowerCase files) <= 1
  /\ countIn mappers (detectTechStack toLowerCase files) <= 1.
Proof.
  unfold detectTechStack.
  set (allContent := join (str " ") (map (fun f => toLowerCase (content f)) files)).
  split; [|repeat split].
  - unfold technologies.
    change [str "JWT"; str "OAuth"; str "TypeScript"; str "GraphQL"; str "Docker"]
      with ([str "JWT"] ++ [str "OAuth"] ++ [str "TypeScript"] ++ [str "GraphQL"]
            ++ [str "Docker"]).
    repeat apply Subsequence_app;
      by_tests; first [apply Subsequence_none | apply Subsequence_one; cbn; tauto].
  - unfold countIn. rewrite !filter_app, !length_app.
    change 1 with (1 + (0 + (0 + (0 + (0 + (0 + (0 + (0 + (0 + 0))))))))).
    repeat apply Nat.add_le_mono; by_tests; vm_compute; lia.
  - unfold countIn. rewrite !filter_app, !length_app.
    change 1 with (0 + (0 + (1 + (0 + (0 + (0 + (0 + (0 + (0 + 0))))))))).
    repeat apply Nat.add_le_mono; by_tests; vm_compute; lia.
  - unfold countIn. rewrite !filter_app, !length_app.
    change 1 with (0 + (0 + (0 + (1 + (0 + (0 + (0 + (0 + (0 + 0))))))))).
    repeat apply Nat.add_le_mono; by_tests; vm_compute; lia.
  - unfold countIn. rewrite !filter_app, !length_app.
    change 1 with (0 + (0 + (0 + (0 + (1 + (0 + (0 + (0 + (0 + 0))))))))).
    repeat apply Nat.add_le_mono; by_tests; vm_compute; lia.
Qed.

(** X16. suggestAgents proposes agents in one fixed order, each at most
    once, and proposes the documentation expert exactly when the scan found
    three files or more. *)
Theorem suggestAgents_names_in_fixed_order (files : list MarkdownFile) :
  Subsequence
    (map AgentSuggestion.name (suggestAgents projectName toLowerCase relative files))
    knownAgents
  /\ (In (str "docs-expert")
         (map AgentSuggestion.name
            (suggestAgents projectName toLowerCase relative files))
      <-> 3 <= length files).
Proof.
  unfold suggestAgents.
  set (contentLower := join (str " ") (map (fun f => toLowerCase (content f)) files)).
  rewrite !map_app. split.
  - change knownAgents
      with ([str "docs-expert"] ++ [str "api-expert"] ++ [str "test-expert"]
            ++ [str "architecture-expert"]).
    repeat apply Subsequence_app; by_tests; cbn [map AgentSuggestion.name];
      first [apply Subsequence_none | apply Subsequence_one; left; reflexivity].
  - destruct (Nat.leb_spec 3 (length files)) as [Hmany|Hfew].
    + split; [intros _; exact Hmany|intros _; left; reflexivity].
    + split; [|lia]. intros H. exfalso. revert H. by_tests; vm_compute;
        intuition congruence.
Qed.

(** X17. Every template suggestAgents proposes is already in the form the
    normalizer produces, whatever the project is called as long as its name
    holds no line feed and no dollar sign: fixFrontmatterFormat leaves the
    template unchanged, and its header block is the name and the description
    shown with the suggestion, and the model. *)
Theorem suggested_templates_are_normalized
  (files : list MarkdownFile) (s : AgentSuggestion.t) :
  noneOf [LF; DOLLAR] projectName = true ->
  In s (suggestAgents projectName toLowerCase relative files) ->
  fixFrontmatterFormat (AgentSuggestion.template s) (AgentSuggestion.name s)
  = AgentSuggestion.template s
  /\ headerLines (AgentSuggestion.template s)
     = Some (headerOf (AgentSuggestion.name s) (AgentSuggestion.description s)).
Proof.
  intros HP Hin. unfold suggestAgents in Hin.
  assert (Hunit : forall c, In c [LF; DOLLAR] -> ~ In c projectName).
  { intros c Hc. exact (noneOf_not_in [LF; DOLLAR] projectName c HP Hc). }
  assert (Hmid : forall before after,
            noneOf [LF; DOLLAR] before = true -> noneOf [LF; DOLLAR] after = true ->
            noneOf [LF; DOLLAR] (before ++ projectName ++ after) = true).
  { intros before after Hb Ha. unfold noneOf in *.
    rewrite !forallb_app. apply andb_true_intro. split; [exact Hb|].
    apply andb_true_intro. split; [exact HP|exact Ha]. }
  repeat (apply in_app_or in Hin; destruct Hin as [Hin|Hin]);
    match type of Hin with
    | context [if ?b then _ else _] => destruct b
    end;
    try (destruct Hin as [<-|[]]); try contradiction;
    cbn [AgentSuggestion.template AgentSuggestion.name AgentSuggestion.description].
  - apply (agent_template_normal (str "docs-expert")
             (str "Expert in " ++ projectName
              ++ str " documentation and project structure"));
      try reflexivity. apply Hmid; reflexivity.
  - apply (agent_template_normal (str "api-expert")
             (str "Expert in " ++ projectName ++ str " API and endpoints"));
      try reflexivity. apply Hmid; reflexivity.
  - apply (agent_template_normal (str "test-expert")
             (str "Expert in testing for " ++ projectName));
      try reflexivity.
    rewrite <- (app_nil_r projectName). apply Hmid; reflexivity.
  - apply (agent_template_normal (str "architecture-expert")
             (str "Expert in " ++ projectName ++ str " architecture and design"));
      try reflexivity. apply Hmid; reflexivity.
Qed.

End StaticFacts.

Lemma suggested_templates_are_normalized_witness :
  noneOf [LF; DOLLAR] (str "demo") = true
  /\ exists s,
       In s (AutoContextService.suggestAgents (str "demo") lowerAscii slashPath sampleDocs)
       /\ AutoContextService.AgentSuggestion.name s = str "docs-expert"
       /\ AutoContextService.fixFrontmatterFormat
            (AutoContextService.AgentSuggestion.template s)
            (AutoContextService.AgentSuggestion.name s)
          = AutoContextService.AgentSuggestion.template s
       /\ AutoContextService.headerLines (AutoContextService.AgentSuggestion.template s)
          = Some [str "name: docs-expert";
                  str "description: Expert in demo documentation and project structure";
                  str "model: sonnet"].
Proof.
  split; [reflexivity|].
  destruct (AutoContextService.suggestAgents (str "demo") lowerAscii slashPath sampleDocs)
    as [|s more] eqn:E; [vm_compute in E; discriminate E|].
  assert (Hin : In s (AutoContextService.suggestAgents (str "demo") lowerAscii slashPath
                        sampleDocs)) by (rewrite E; left; reflexivity).
  destruct (suggested_templates_are_normalized (str "demo") lowerAscii slashPath
              sampleDocs s eq_refl Hin) as [H1 H2].
  exists s. split; [left; reflexivity|].
  assert (Hs : AutoContextService.AgentSuggestion.name s = str "docs-expert"
               /\ AutoContextService.AgentSuggestion.description s
                  = str "Expert in demo documentation and project structure").
  { vm_compute in E. injection E as <- _. split; reflexivity. }
  destruct Hs as [Hname Hdescription].
  split; [exact Hname|]. split; [exact H1|].
  rewrite H2, Hname, Hdescription. reflexivity.
Defined.

Lemma built_template_is_normalized_witness :
  noneOf [LF; DOLLAR; DQUOTE; SQUOTE] (str "api-helper") = true
  /\ noneOf [LF; DOLLAR; DQUOTE; SQUOTE] (str "Knows the payment API") = true
  /\ AutoContextService.fixFrontmatterFormat
       (AutoContextService.buildAgentTemplate (str "api-helper")
          (str "Knows the payment API") (str "You are the API helper."))
       (str "renamed")
     = unlines [str "---"; str "name: api-helper";
                str "description: Knows the payment API"; str "model: sonnet";
                str "---"; str ""; str "You are the API helper."; str ""].
Proof.
  split; [reflexivity|]. split; [reflexivity|].
  exact (proj1 (built_template_is_normalized (str "api-helper")
                  (str "Knows the payment API") (str "You are the API helper.")
                  (str "renamed") eq_refl eq_refl)).
Defined.

Lemma new_agent_template_is_normalized_witness :
  Extension.validateInput (str "my-agent") = None
  /\ AutoContextService.fixFrontmatterFormat (Extension.getAgentTemplate (str "my-agent"))
       (str "my-agent")
     = Extension.getAgentTemplate (str "my-agent").
Proof.
  split; [reflexivity|].
  exact (proj1 (new_agent_template_is_normalized (str "my-agent") eq_refl)).
Defined.

(** ** The two update strategies *)

Section UpdateFacts.

Import AutoContextService.

(** *** A pattern without line feed occurs inside one line *)

Lemma includes_past (c : char) (p a x : jsstring) :
  ~ In c p -> p <> [] ->
  includes p (a ++ c :: x) = includes p a || includes p x.
Proof.
  intros Hc Hp. unfold includes. rewrite (indexOf_past c p a x Hc Hp).
  destruct (indexOf p a); [reflexivity|]. destruct (indexOf p x); reflexivity.
Qed.

Lemma includes_unlines (p : jsstring) (lines : list jsstring) :
  ~ In LF p -> p <> [] ->
  Forall (fun l => includes p l = false) lines ->
  includes p (unlines lines) = false.
Proof.
  intros Hc Hp H. induction H as [|l ls Hl _ IH].
  - destruct p; [congruence|reflexivity].
  - destruct ls as [|l' ls]; [exact Hl|].
    change (unlines (l :: l' :: ls)) with (l ++ LF :: unlines (l' :: ls)).
    rewrite (includes_past LF p l _ Hc Hp), Hl, IH. reflexivity.
Qed.

(** A text that does not hold the first unit of the pattern does not hold
    the pattern. *)
Lemma includes_first_unit (c : char) (p s : jsstring) :
  ~ In c s -> includes (c :: p) s = false.
Proof.
  intros Hc. unfold includes.
  destruct (indexOf (c :: p) s) as [i|] eqn:E; [|reflexivity].
  destruct (indexOf_some _ _ _ E) as (_ & Hat & _). exfalso. apply Hc.
  destruct (skipn i s) as [|d r] eqn:Es; [discriminate|].
  cbn [startsWith] in Hat. apply andb_true_iff in Hat as [Hd _].
  apply N.eqb_eq in Hd. subst d.
  rewrite <- (firstn_skipn i s), Es. apply in_or_app. right. left. reflexivity.
Qed.

Lemma includes_marker_between (before value after : jsstring) :
  ~ In HASH before -> ~ In HASH value -> ~ In HASH after ->
  includes contextMarker (before ++ value ++ after) = false.
Proof.
  intros H1 H2 H3. apply (includes_first_unit HASH).
  intros H. apply in_app_or in H as [H|H]; [contradiction|].
  apply in_app_or in H as [H|H]; contradiction.
Qed.

Lemma default_prompt_without_marker (agentName projectName : jsstring) :
  noneOf [HASH] agentName = true ->
  noneOf [HASH] projectName = true ->
  includes contextMarker (generateDefaultAgentPrompt agentName projectName) = false.
Proof.
  intros Ha Hp.
  pose proof (noneOf_not_in [HASH] agentName HASH Ha (or_introl eq_refl)) as Ha'.
  pose proof (noneOf_not_in [HASH] projectName HASH Hp (or_introl eq_refl)) as Hp'.
  unfold generateDefaultAgentPrompt.
  apply includes_unlines;
    [exact contextMarker_without_LF|exact contextMarker_not_nil|].
  repeat (apply Forall_cons;
          [first [reflexivity
                 |apply includes_marker_between;
                  first [assumption|cbv; intuition discriminate]]|]).
  apply Forall_nil.
Qed.

Section Static.

Variable projectName : jsstring.
Variable toLowerCase : jsstring -> jsstring.
Variable relative : MarkdownFile -> jsstring.

(** X21. A static update that can read and write its file replaces the old
    context: the text written is a base followed by the freshly generated
    section, the base holds no marker (nothing of an older section survives
    in it), and stripping the written text gives the base back without its
    trailing white space. The base name of the file and the project name are
    assumed to hold no hash sign. *)
Theorem static_update_replaces_old_context
  (agentName : jsstring) (disk : agentFile) (files : list MarkdownFile)
  (original : jsstring) :
  readFileSync disk = Returns original ->
  (forall text, writeFileSync disk text = Returns tt) ->
  noneOf [HASH] agentName = true ->
  noneOf [HASH] projectName = true ->
  exists base,
    updateAgentWithContext projectName toLowerCase relative agentName disk files
    = (true,
       Some (base ++ generateContextSection projectName toLowerCase relative files))
    /\ includes contextMarker base = false
    /\ removeOldContext
         (base ++ generateContextSection projectName toLowerCase relative files)
       = trimEnd base.
Proof.
  intros Hread Hwrite Ha Hp. unfold updateAgentWithContext. rewrite Hread.
  set (stripped := removeOldContext (fixFrontmatterFormat original agentName)).
  assert (Hclean : includes contextMarker stripped = false)
    by apply removeOldContext_clean.
  set (base := match indexOfFrom (str "---") stripped 4 with
               | Some frontmatterEnd =>
                   if isEmpty (trim (substringFrom (frontmatterEnd + 3) stripped))
                      || Nat.ltb (length (trim (substringFrom (frontmatterEnd + 3)
                                                  stripped))) 20
                   then substringTo (frontmatterEnd + 3) stripped ++ [LF; LF]
                        ++ generateDefaultAgentPrompt agentName projectName
                   else stripped
               | None => stripped
               end).
  assert (Hbase : includes contextMarker base = false).
  { subst base. destruct (indexOfFrom (str "---") stripped 4) as [k|]; [|exact Hclean].
    destruct (isEmpty (trim (substringFrom (k + 3) stripped))
              || Nat.ltb (length (trim (substringFrom (k + 3) stripped))) 20);
      [|exact Hclean].
    change (substringTo (k + 3) stripped ++ [LF; LF]
            ++ generateDefaultAgentPrompt agentName projectName)
      with (substringTo (k + 3) stripped
            ++ LF :: ([] ++ LF :: generateDefaultAgentPrompt agentName projectName)).
    rewrite !(includes_past LF) by
      (exact contextMarker_without_LF || exact contextMarker_not_nil).
    rewrite (default_prompt_without_marker agentName projectName Ha Hp).
    rewrite (includes_prefix contextMarker (substringTo (k + 3) stripped)
               (substringFrom (k + 3) stripped));
      [reflexivity|]. unfold substringTo, substringFrom.
    rewrite firstn_skipn. exact Hclean. }
  exists base. rewrite Hwrite. split; [reflexivity|]. split; [exact Hbase|].
  destruct (generateContextSection_header projectName toLowerCase relative files)
    as [tail ->].
  apply removeOldContext_injected, Hbase.
Qed.

End Static.

Section Assisted.

Variable projectName : jsstring.
Variable generateContextSection : list MarkdownFile -> jsstring.
Variable generateFullAgent : jsstring -> jsstring -> jsstring
                             -> ClaudeCodeService.ClaudeResponse.




End Assisted.

End UpdateFacts.

Lemma static_update_replaces_old_context_witness :
  noneOf [AutoContextService.HASH] (str "reviewer") = true
  /\ noneOf [AutoContextService.HASH] (str "demo") = true
  /\ exists base,
       AutoContextService.updateAgentWithContext (str "demo") lowerAscii slashPath
         (str "reviewer")
         (writableFile
            (unlines [str "You review code."; str "Be brief and precise."; str "";
                      str "## Project Context (Auto-generated)"; str "";
                      str "Project: **old**"]))
         sampleDocs
       = (true,
          Some (base ++ AutoContextService.generateContextSection (str "demo")
                          lowerAscii slashPath sampleDocs))
       /\ includes AutoContextService.contextMarker base = false
       /\ AutoContextService.removeOldContext
            (base ++ AutoContextService.generateContextSection (str "demo")
                       lowerAscii slashPath sampleDocs)
          = trimEnd base.
Proof.
  split; [reflexivity|]. split; [reflexivity|].
  exact (static_update_replaces_old_context (str "demo") lowerAscii slashPath
           (str "reviewer")
           (writableFile
              (unlines [str "You review code."; str "Be brief and precise."; str "";
                        str "## Project Context (Auto-generated)"; str "";
                        str "Project: **old**"]))
           sampleDocs _ eq_refl (fun _ => eq_refl) eq_refl eq_refl).
Defined.

(** The text the static strategy writes for a file that carries an old
    context section. *)
Example static_update_sample :
  AutoContextService.updateAgentWithContext (str "demo") lowerAscii slashPath
    (str "reviewer")
    (writableFile
       (unlines [str "You review code."; str "Be brief and precise."; str "";
                 str "## Project Context (Auto-generated)"; str "";
                 str "Project: **old**"]))
    sampleDocs
  = (true,
     Some (unlines [str "---"; str "name: reviewer";
                    str "description: Agent for reviewer"; str "model: sonnet";
                    str "---"; str ""; str "You review code.";
                    str "Be brief and precise."; str "";
                    str "## Project Context (Auto-generated)"; str "";
                    str "Project: **demo**"; str "";
                    str "### Overview"; str "A FastAPI service with a React client.";
                    str "";
                    str "### Project Guidelines (from CLAUDE.md)"; str "# Rules";
                    str "- Run the tests first"; str "";
                    str "### Tech Stack"; str "FastAPI, React"; str "";
                    str "### Documentation"; str "- `guide.md` - How to deploy.";
                    str ""])).
Proof. vm_compute. reflexivity. Qed.

(** ** The directory tree of the digest *)

Section TreeFacts.

Import ClaudeCodeService.

Lemma flat_map_ext_in (f g : dirent -> list jsstring) (es : list dirent) :
  Forall (fun e => f e = g e) es -> flat_map f es = flat_map g es.
Proof.
  induction 1 as [|e es He _ IH]; [reflexivity|].
  cbn [flat_map]. rewrite He, IH. reflexivity.
Qed.

Lemma prune_name (levels : nat) (e : dirent) :
  direntName (prune levels e) = direntName e.
Proof. destruct e; reflexivity. Qed.

(** The lines of an entry do not depend on what lies below [maxDepth]. *)
Lemma entryLines_prune (e : dirent) :
  forall maxDepth depth,
    depth <= maxDepth ->
    entryLines maxDepth depth (prune (maxDepth - depth) e)
    = entryLines maxDepth depth e.
Proof.
  induction e as [name|name|name entries IH] using dirent_tree_ind;
    intros maxDepth depth Hd.
  - reflexivity.
  - cbn [prune]. destruct (maxDepth - depth); reflexivity.
  - cbn [prune entryLines direntName].
    destruct (startsWith (str ".") name && Nat.eqb depth 0); [reflexivity|].
    destruct (listIncludes skipDirs name); [reflexivity|].
    destruct (maxDepth - depth) as [|k] eqn:Hk.
    + assert (Hlt : Nat.ltb maxDepth (S depth) = true) by (apply Nat.ltb_lt; lia).
      rewrite Hlt. reflexivity.
    + assert (Hge : Nat.ltb maxDepth (S depth) = false) by (apply Nat.ltb_ge; lia).
      rewrite Hge. rewrite flat_map_concat_map, map_map, <- flat_map_concat_map.
      rewrite (flat_map_ext_in
                 (fun x => entryLines maxDepth (S depth) (prune k x))
                 (entryLines maxDepth (S depth)) entries); [reflexivity|].
      eapply Forall_impl; [|exact IH]. cbn beta. intros e He.
      replace k with (maxDepth - S depth) by lia. apply He. lia.
Qed.

Lemma getDirectoryStructure_prune (dir : option (list dirent)) (depth maxDepth : nat) :
  depth <= maxDepth ->
  getDirectoryStructure (option_map (map (prune (maxDepth - depth))) dir)
    depth maxDepth
  = getDirectoryStructure dir depth maxDepth.
Proof.
  intros Hd. unfold getDirectoryStructure.
  destruct (Nat.ltb maxDepth depth); [reflexivity|].
  destruct dir as [entries|]; [|reflexivity]. cbn [option_map].
  rewrite flat_map_concat_map, map_map, <- flat_map_concat_map.
  rewrite (flat_map_ext_in
             (fun x => entryLines maxDepth depth (prune (maxDepth - depth) x))
             (entryLines maxDepth depth) entries); [reflexivity|].
  apply Forall_forall. intros e _. apply entryLines_prune, Hd.
Qed.

(** X7. The digest never depends on anything more than two directory levels
    below the workspace root: making every directory beyond that level
    unreadable changes neither the tree text nor the digest, nor whether
    getProjectContext throws. *)
Theorem digest_ignores_deep_directories (ws : workspace) :
  getDirectoryStructure (rootListing (shallow ws)) 0 2
  = getDirectoryStructure (rootListing ws) 0 2
  /\ getProjectContext (shallow ws) = getProjectContext ws.
Proof.
  assert (H : getDirectoryStructure (rootListing (shallow ws)) 0 2
              = getDirectoryStructure (rootListing ws) 0 2).
  { exact (getDirectoryStructure_prune (rootListing ws) 0 2 (Nat.le_0_l 2)). }
  split; [exact H|].
  unfold getProjectContext, runProjectContext, structureSection.
  rewrite H. reflexivity.
Qed.

(** The tree text of a sample four directories deep, cut at two levels. *)
Example deepTree_structure :
  getDirectoryStructure (Some deepTree) 0 2
  = unlines [str "README.md"; str "src/"; str "  main.ts"; str "  core/";
             str "    a.ts"; str "    deep/"].
Proof. vm_compute. reflexivity. Qed.

End TreeFacts.

(** ** The files the digest reads *)

Section DigestReads.

Import ClaudeCodeService.

(** The four files the priority blocks name, in the order of the blocks. *)
Lemma reads_in_priority_order (ws : workspace) (reads : list jsstring) :
  projectContextReads ws = Some reads ->
  Subsequence reads
    [str "CLAUDE.md"; str "README.md"; str "package.json"; str "pyproject.toml"].
Proof.
  unfold projectContextReads, runProjectContext. rewrite guidelinesSection_first.
  destruct (textSection (str "CLAUDE.md") (claudeMd ws) MAX_FILE_SIZE emptyDigest)
    as [s1|] eqn:E1; [|discriminate]. cbn [bindOpt].
  destruct (textSection (str "README.md") (readmeMd ws) MAX_FILE_SIZE s1)
    as [s2|] eqn:E2; [|discriminate]. cbn [bindOpt].
  destruct (textSection (str "pyproject.toml") (pyprojectToml ws) 1000
              (manifestSection (packageJson ws) s2)) as [s4|] eqn:E4;
    [|discriminate].
  cbn [bindOpt option_map]. intros [= <-]. rewrite structureSection_reads.
  destruct (textSection_reads _ _ _ _ _ E4) as [R4|[_ R4]];
    destruct (manifestSection_reads (packageJson ws) s2) as [R3|[_ R3]];
    destruct (textSection_reads _ _ _ _ _ E2) as [R2|[_ R2]];
    destruct (textSection_reads _ _ _ _ _ E1) as [R1|[_ R1]];
    rewrite R4, R3, R2, R1; cbn [filesRead emptyDigest app];
    repeat first [apply Subsequence_take | apply Subsequence_skip
                 | apply Subsequence_nil].
Qed.

(** X1. Every file getProjectContext reads is one that getReadableFiles
    names: the list shown to the user before the digest is built never
    omits a file the digest draws on. The files are read in the order
    CLAUDE.md, README.md, package.json, pyproject.toml, each at most once,
    and no other file is read. *)
Theorem getReadableFiles_names_every_file_read (ws : workspace) (reads : list jsstring) :
  projectContextReads ws = Some reads ->
  incl reads (getReadableFiles ws)
  /\ Subsequence reads
       [str "CLAUDE.md"; str "README.md"; str "package.json"; str "pyproject.toml"].
Proof.
  intros H. split; [exact (reads_are_listed ws reads H)|].
  exact (reads_in_priority_order ws reads H).
Qed.

End DigestReads.

Lemma getReadableFiles_names_every_file_read_witness :
  exists reads,
    ClaudeCodeService.projectContextReads fullWorkspace = Some reads
    /\ length reads = 4
    /\ incl reads (ClaudeCodeService.getReadableFiles fullWorkspace)
    /\ Subsequence reads
         [str "CLAUDE.md"; str "README.md"; str "package.json"; str "pyproject.toml"].
Proof.
  eexists. split; [vm_compute; reflexivity|]. split; [reflexivity|].
  apply (getReadableFiles_names_every_file_read fullWorkspace).
  vm_compute. reflexivity.
Defined.

(** ** The header block through an update *)

Section HeaderThroughUpdate.

Import AutoContextService.

(** *** Searching a text that begins with a header block *)

(** Units that are not the first unit of the pattern can be skipped. *)
Lemma indexOf_skip (c : char) (p a x : jsstring) :
  ~ In c a ->
  indexOf (c :: p) (a ++ x) = option_map (fun k => length a + k) (indexOf (c :: p) x).
Proof.
  intros Hc. induction a as [|d a IH].
  - cbn [app length]. destruct (indexOf (c :: p) x); reflexivity.
  - change ((d :: a) ++ x) with (d :: (a ++ x)). rewrite indexOf_unfold.
    assert (Hd : N.eqb c d = false).
    { apply N.eqb_neq. intros ->. apply Hc. left. reflexivity. }
    cbn [startsWith]. rewrite Hd. cbn [andb].
    rewrite IH by (intros H; apply Hc; right; exact H).
    destruct (indexOf (c :: p) x); reflexivity.
Qed.

Lemma indexOf_none (p s : jsstring) :
  includes p s = false -> indexOf p s = None.
Proof. unfold includes. destruct (indexOf p s); [discriminate|reflexivity]. Qed.

(** The marker is not found before the end of a header block whose lines
    do not hold it. *)
Lemma marker_after_header (block rest : jsstring) :
  includes contextMarker block = false ->
  indexOf contextMarker (OPEN ++ block ++ CLOSE ++ rest)
  = option_map (fun k => length (OPEN ++ block ++ CLOSE) + k)
      (indexOf contextMarker rest).
Proof.
  intros Hblock.
  change (OPEN ++ block ++ CLOSE ++ rest)
    with (DASHES ++ LF :: (block ++ LF :: (DASHES ++ rest))).
  rewrite (indexOf_past LF contextMarker DASHES _
             contextMarker_without_LF contextMarker_not_nil).
  change (indexOf contextMarker DASHES) with (@None nat).
  rewrite (indexOf_past LF contextMarker block _
             contextMarker_without_LF contextMarker_not_nil).
  rewrite (indexOf_none _ _ Hblock).
  change contextMarker with (HASH :: tl contextMarker).
  rewrite (indexOf_skip HASH (tl contextMarker) DASHES rest)
    by (cbv; intuition discriminate).
  destruct (indexOf (HASH :: tl contextMarker) rest) as [k|]; [|reflexivity].
  cbn [option_map]. f_equal. rewrite !length_app.
  change (length OPEN) with 4. change (length CLOSE) with 4.
  change (length DASHES) with 3. lia.
Qed.

Lemma dropWhile_app_keep (p : char -> bool) (u v : jsstring) (c : char) :
  p c = false -> exists w, dropWhile p (u ++ c :: v) = w ++ c :: v.
Proof.
  intros Hc. induction u as [|d u IH]; cbn [app dropWhile].
  - rewrite Hc. exists []. reflexivity.
  - destruct (p d); [exact IH|]. exists (d :: u). reflexivity.
Qed.

(** Trimming the end never reaches past a unit that is not white space. *)
Lemma trimEnd_keeps (a x : jsstring) (c : char) :
  isSpace c = false -> exists x', trimEnd ((a ++ [c]) ++ x) = (a ++ [c]) ++ x'.
Proof.
  intros Hc. unfold trimEnd. rewrite !rev_app_distr. cbn [rev app].
  destruct (dropWhile_app_keep isSpace (rev x) (rev a) c Hc) as [w ->].
  exists (rev w). rewrite rev_app_distr. cbn [rev].
  rewrite rev_involutive. reflexivity.
Qed.

(** Removing the old context leaves alone a prefix that ends in a hyphen and
    before whose end the marker does not begin. *)
Lemma removeOldContext_keeps_prefix (header rest : jsstring) :
  indexOf contextMarker (header ++ rest)
  = option_map (fun k => length header + k) (indexOf contextMarker rest) ->
  (exists a, header = a ++ [DASH]) ->
  exists rest', removeOldContext (header ++ rest) = header ++ rest'.
Proof.
  intros Hindex [a Ha]. unfold removeOldContext. rewrite Hindex.
  destruct (indexOf contextMarker rest) as [k|]; [|exists rest; reflexivity].
  cbn [option_map]. unfold substringTo.
  rewrite firstn_app, firstn_all2 by lia.
  replace (length header + k - length header) with k by lia.
  rewrite Ha. apply trimEnd_keeps. reflexivity.
Qed.

Lemma header_ends_in_hyphen (block : jsstring) :
  exists a, OPEN ++ block ++ CLOSE = a ++ [DASH].
Proof.
  exists (OPEN ++ block ++ [LF; DASH; DASH]). rewrite <- !app_assoc. reflexivity.
Qed.

(** *** The split at [indexOf('---', 4)] *)

(** In a text that begins with a header block whose lines hold no three
    hyphens, the search from index 4 finds the closing delimiter. *)
Lemma closing_delimiter_found (block rest : jsstring) :
  includes DASHES block = false ->
  indexOfFrom DASHES (OPEN ++ block ++ CLOSE ++ rest) 4
  = Some (length (OPEN ++ block ++ CLOSE) - 3).
Proof.
  intros Hblock. unfold indexOfFrom.
  assert (Hlen : Nat.ltb (length (OPEN ++ block ++ CLOSE ++ rest)) 4 = false).
  { apply Nat.ltb_ge. rewrite length_app. change (length OPEN) with 4. lia. }
  rewrite Hlen.
  change (skipn 4 (OPEN ++ block ++ CLOSE ++ rest))
    with (block ++ LF :: (DASHES ++ rest)).
  rewrite (indexOf_past LF DASHES block _ dashes_without_LF ltac:(discriminate)).
  rewrite (indexOf_none _ _ Hblock).
  rewrite (indexOf_unfold DASHES (DASHES ++ rest)), startsWith_app.
  cbn [option_map]. f_equal. rewrite !length_app.
  change (length OPEN) with 4. change (length CLOSE) with 4. lia.
Qed.

(** A text whose header block has the lines [fixed] begins with that
    block, and every text that begins with it has that header block. *)
Lemma header_block_of (normalized : jsstring) (fixed : list jsstring) :
  headerLines normalized = Some fixed ->
  (exists rest, normalized = (OPEN ++ unlines fixed ++ CLOSE) ++ rest)
  /\ forall text, headerLines ((OPEN ++ unlines fixed ++ CLOSE) ++ text) = Some fixed.
Proof.
  unfold headerLines.
  destruct (matchFrontmatter normalized) as [[g rest]|] eqn:E; [|discriminate].
  cbn [option_map fst]. intros [= <-].
  destruct (matchFrontmatter_sound normalized g rest E) as [Hshape Hdash].
  assert (Hjoin : unlines (split LF g) = g) by apply join_split.
  split.
  - exists rest. rewrite Hjoin, <- !app_assoc. exact Hshape.
  - intros text. rewrite <- !app_assoc.
    rewrite (matchFrontmatter_complete (split LF g) text);
      [|apply split_not_nil|apply split_lines_without_sep|exact Hdash].
    cbn [option_map fst]. rewrite Hjoin. reflexivity.
Qed.

(** The text after step 2 of an update, for a file whose normalized header
    lines hold neither three hyphens nor the marker: the normalized header
    block, then what is left of the body; and step 3 splits it at the end of
    the block. *)
Lemma stripped_shape (normalized : jsstring) (fixed : list jsstring) :
  headerLines normalized = Some fixed ->
  Forall (fun l => includes DASHES l = false) fixed ->
  Forall (fun l => includes contextMarker l = false) fixed ->
  exists body,
    removeOldContext normalized = (OPEN ++ unlines fixed ++ CLOSE) ++ body
    /\ indexOfFrom DASHES (removeOldContext normalized) 4
       = Some (length (OPEN ++ unlines fixed ++ CLOSE) - 3)
    /\ forall text, headerLines ((OPEN ++ unlines fixed ++ CLOSE) ++ text) = Some fixed.
Proof.
  intros Hheader Hdashes Hmarker.
  destruct (header_block_of normalized fixed Hheader) as [[rest Hfix] Hh].
  assert (Hblock : includes contextMarker (unlines fixed) = false).
  { apply includes_unlines;
      [exact contextMarker_without_LF|exact contextMarker_not_nil|exact Hmarker]. }
  assert (Hblock' : includes DASHES (unlines fixed) = false).
  { apply includes_unlines; [exact dashes_without_LF|discriminate|exact Hdashes]. }
  destruct (removeOldContext_keeps_prefix (OPEN ++ unlines fixed ++ CLOSE) rest)
    as [body Hbody].
  { rewrite <- !app_assoc. apply marker_after_header, Hblock. }
  { apply header_ends_in_hyphen. }
  exists body. rewrite Hfix, Hbody. split; [reflexivity|]. split; [|exact Hh].
  rewrite <- !app_assoc. apply closing_delimiter_found, Hblock'.
Qed.

Lemma header_length (block : jsstring) :
  length (OPEN ++ block ++ CLOSE) - 3 + 3 = length (OPEN ++ block ++ CLOSE).
Proof. rewrite !length_app. change (length CLOSE) with 4. lia. Qed.

Lemma substringTo_prefix (a b : jsstring) : substringTo (length a) (a ++ b) = a.
Proof.
  unfold substringTo. rewrite firstn_app, firstn_all, Nat.sub_diag.
  cbn [firstn]. apply app_nil_r.
Qed.

(** The header block [prepare] hands to the assisted strategy. *)
Lemma prepare_frontmatter (original agentName : jsstring) (fixed : list jsstring) :
  headerLines (fixFrontmatterFormat original agentName) = Some fixed ->
  Forall (fun l => includes DASHES l = false) fixed ->
  Forall (fun l => includes contextMarker l = false) fixed ->
  frontmatter (prepare agentName original) = OPEN ++ unlines fixed ++ CLOSE.
Proof.
  intros Hheader Hdashes Hmarker.
  destruct (stripped_shape (fixFrontmatterFormat original agentName) fixed
              Hheader Hdashes Hmarker) as (body & Hs & Hidx & _).
  unfold prepare. cbn [frontmatter].
  change (indexOfFrom (str "---")) with (indexOfFrom DASHES).
  rewrite Hidx. cbn [fst]. rewrite header_length, Hs. apply substringTo_prefix.
Qed.

Lemma Forall_both (P Q : jsstring -> Prop) (l : list jsstring) :
  Forall (fun x => P x /\ Q x) l -> Forall P l /\ Forall Q l.
Proof.
  intros H. split; (eapply Forall_impl; [|exact H]); cbn beta; tauto.
Qed.

Section Static.

Variable projectName : jsstring.
Variable toLowerCase : jsstring -> jsstring.
Variable relative : MarkdownFile -> jsstring.

(** X22. A static update never alters the normalized header: for every
    file and base name, if the lines of the header block fixFrontmatterFormat
    produces hold neither three hyphens in a row nor the context marker, the
    text written begins with that header block, and that block is the header
    block of the written text, also when the default prompt replaces a stub
    body. *)
Theorem static_update_keeps_normalized_header
  (agentName : jsstring) (disk : agentFile) (files : list MarkdownFile)
  (original : jsstring) (fixed : list jsstring) :
  readFileSync disk = Returns original ->
  (forall text, writeFileSync disk text = Returns tt) ->
  headerLines (fixFrontmatterFormat original agentName) = Some fixed ->
  Forall (fun l => includes DASHES l = false /\ includes contextMarker l = false)
    fixed ->
  exists written,
    updateAgentWithContext projectName toLowerCase relative agentName disk files
    = (true, Some written)
    /\ startsWith (OPEN ++ unlines fixed ++ CLOSE) written = true
    /\ headerLines written = Some fixed.
Proof.
  intros Hread Hwrite Hheader Hlines.
  destruct (Forall_both _ _ _ Hlines) as [Hdashes Hmarker].
  destruct (stripped_shape (fixFrontmatterFormat original agentName) fixed
              Hheader Hdashes Hmarker) as (body & Hs & Hidx & Hh).
  unfold updateAgentWithContext. rewrite Hread.
  change (indexOfFrom (str "---")) with (indexOfFrom DASHES).
  rewrite Hidx, header_length, Hs, substringTo_prefix.
  set (header := OPEN ++ unlines fixed ++ CLOSE) in *.
  destruct (isEmpty (trim (substringFrom (length header) (header ++ body)))
            || Nat.ltb (length (trim (substringFrom (length header) (header ++ body))))
                 20);
    rewrite Hwrite; eexists; (split; [reflexivity|]);
    rewrite <- !app_assoc; (split; [apply startsWith_app|apply Hh]).
Qed.

End Static.

Section Assisted.

Variable projectName : jsstring.
Variable generateContextSection : list MarkdownFile -> jsstring.
Variable generateFullAgent : jsstring -> jsstring -> jsstring
                             -> ClaudeCodeService.ClaudeResponse.

(** X23. An assisted update never alters the normalized header either,
    whatever the assistant answers: for every file and base name, if the
    lines of the header block fixFrontmatterFormat produces hold neither
    three hyphens in a row nor the context marker, the text written begins
    with that header block, and that block is the header block of the
    written text. *)
Theorem assisted_update_keeps_normalized_header
  (agentName : jsstring) (disk : agentFile) (files : list MarkdownFile)
  (original : jsstring) (fixed : list jsstring) :
  readFileSync disk = Returns original ->
  (forall text, writeFileSync disk text = Returns tt) ->
  headerLines (fixFrontmatterFormat original agentName) = Some fixed ->
  Forall (fun l => includes DASHES l = false /\ includes contextMarker l = false)
    fixed ->
  exists written,
    snd (updateAgentWithContextAI projectName generateContextSection
           generateFullAgent agentName disk files) = Some written
    /\ startsWith (OPEN ++ unlines fixed ++ CLOSE) written = true
    /\ headerLines written = Some fixed.
Proof.
  intros Hread Hwrite Hheader Hlines.
  destruct (Forall_both _ _ _ Hlines) as [Hdashes Hmarker].
  destruct (stripped_shape (fixFrontmatterFormat original agentName) fixed
              Hheader Hdashes Hmarker) as (_ & _ & _ & Hh).
  pose proof (prepare_frontmatter original agentName fixed Hheader Hdashes Hmarker)
    as Hfront.
  unfold updateAgentWithContextAI. rewrite Hread. unfold rebuild. rewrite Hfront.
  destruct (chooseBody projectName generateContextSection agentName
              (currentPrompt (prepare agentName original)) files
              (generateFullAgent agentName
                 (agentDescription (prepare agentName original))
                 (currentPrompt (prepare agentName original))))
    as [[newPrompt contextSection] how].
  rewrite Hwrite. cbn [snd]. eexists. split; [reflexivity|].
  split; [apply startsWith_app|apply Hh].
Qed.

End Assisted.

End HeaderThroughUpdate.

(** A header line that holds three hyphens in a row is cut in two by the
    split at [indexOf('---', 4)]: here the name line of an agent called
    a---b, through the assisted strategy. *)
Example assisted_update_splits_inside_a_name :
  option_map AutoContextService.headerLines
    (snd (AutoContextService.updateAgentWithContextAI (str "demo")
            (fun _ => []) timedOut (str "a---b") (writableFile (str "Review.")) []))
  = Some (Some [str "name: a---"; str ""; str "b";
                str "description: Agent for a---b"; str "model: sonnet"]).
Proof. vm_compute. reflexivity. Qed.

Lemma static_update_keeps_normalized_header_witness :
  exists written,
    AutoContextService.updateAgentWithContext (str "demo") lowerAscii slashPath
      (str "cost$") (writableFile (str "Review the code with care.")) sampleDocs
    = (true, Some written)
    /\ startsWith
         (unlines [str "---"; str "name: cost$";
                   str "description: Agent for cost$"; str "model: sonnet";
                   str "---"]) written = true
    /\ AutoContextService.headerLines written
       = Some [str "name: cost$"; str "description: Agent for cost$"; str "model: sonnet"].
Proof.
  exact (static_update_keeps_normalized_header (str "demo") lowerAscii slashPath
           (str "cost$") (writableFile (str "Review the code with care.")) sampleDocs
           (str "Review the code with care.")
           [str "name: cost$"; str "description: Agent for cost$"; str "model: sonnet"]
           eq_refl (fun _ => eq_refl) eq_refl ltac:(repeat constructor)).
Defined.

Lemma assisted_update_keeps_normalized_header_witness :
  exists written,
    snd (AutoContextService.updateAgentWithContextAI (str "demo")
           (fun _ => []) timedOut (str "cost$") (writableFile (str "Review the code with care.")) [])
    = Some written
    /\ startsWith
         (unlines [str "---"; str "name: cost$";
                   str "description: Agent for cost$"; str "model: sonnet";
                   str "---"]) written = true
    /\ AutoContextService.headerLines written
       = Some [str "name: cost$"; str "description: Agent for cost$"; str "model: sonnet"].
Proof.
  exact (assisted_update_keeps_normalized_header (str "demo") (fun _ => []) timedOut
           (str "cost$") (writableFile (str "Review the code with care.")) []
           (str "Review the code with care.")
           [str "name: cost$"; str "description: Agent for cost$"; str "model: sonnet"]
           eq_refl (fun _ => eq_refl) eq_refl ltac:(repeat constructor)).
Defined.
